(** * Palcube: message triage, ticket fields, assignment scoring and
      repository naming, embedded from the Python sources

    Sources embedded here:
    - [slack_listener.py]: [SlackEventListener.should_process_message] and the
      ticket fields built in [create_jira_ticket_and_repository];
    - [tools/tools/action_items/assign_team_member.py]: [assign_team_member];
    - [tools/tools/action_items/github_automation_simple.py]:
      [_generate_repo_name] and [_create_branch_structure];
    - [tools/tools/action_items/github_automation.py]:
      [_create_branch_structure];
    - [tools/tools/action_items/advanced_automation.py]: the branch plan of
      [create_git_repository_for_task].

    Further on, from the same files and from those they work with:
    - [slack_listener.py]: [handle_socket_mode_request],
      [process_message_sync], [call_orchestrate_agent] and the choice of
      project, repository and project type in
      [create_jira_ticket_and_repository];
    - [tools/tools/action_items/slack_event_handler.py]:
      [process_slack_event];
    - [tools/tools/action_items/assign_team_member.py]:
      [update_ticket_assignee];
    - [tools/tools/action_items/create_jira_ticket.py]: the summary and the
      assignee of [create_jira_ticket];
    - [tools/tools/action_items/advanced_automation.py]: the name and the
      main branch of the plan, and the subtasks of
      [analyze_conversation_for_subtasks];
    - [tools/tools/action_items/github_automation.py]:
      [_generate_repo_name] and the recommendations of
      [analyze_task_for_repository_structure];
    - [tools/tools/action_items/github_automation_simple.py]:
      [create_github_repository_for_task] with its helpers.

    Python [str] values are sequences of Unicode code points, Python [int]s
    are unbounded integers, the de-duplication memory is a finite set. *)

From Stdlib Require Import ZArith NArith List Bool Lia String Ascii.
From Stdlib Require Import DecimalString.
From stdpp Require Import base decidable countable gmap.
Import ListNotations.

Local Open Scope N_scope.

(** ** Python strings *)

(** A [str] is the list of its code points. *)
Definition str := list N.

(** An ASCII literal of the source, as a [str]. *)
Definition lit (s : string) : str :=
  List.map N_of_ascii (list_ascii_of_string s).
Arguments lit s%_string.

(** [a == b] on strings. *)
Fixpoint str_eqb (a b : str) : bool :=
  match a, b with
  | [], [] => true
  | x :: a', y :: b' => (x =? y) && str_eqb a' b'
  | _, _ => false
  end.

(** [s.startswith(prefix)]. *)
Fixpoint startswith (s prefix : str) : bool :=
  match prefix, s with
  | [], _ => true
  | p :: prefix', c :: s' => (c =? p) && startswith s' prefix'
  | _ :: _, [] => false
  end.

(** [needle in hay] on strings: [needle] occurs as a contiguous run. *)
Fixpoint str_in (needle hay : str) : bool :=
  startswith hay needle ||
  match hay with
  | [] => false
  | _ :: hay' => str_in needle hay'
  end.

(** [x in xs] for a list of strings. *)
Definition list_in (x : str) (xs : list str) : bool :=
  List.existsb (str_eqb x) xs.

(** Truth value of an optional string: [None] and [""] are falsy. *)
Definition truthy (o : option str) : bool :=
  match o with
  | Some (_ :: _) => true
  | _ => false
  end.

(** [a or b] on optional strings. *)
Definition py_or (a b : option str) : option str :=
  if truthy a then a else b.

(** [d.get(key) == s], where a missing key gives [None]. *)
Definition opt_eqb (o : option str) (s : str) : bool :=
  match o with
  | Some x => str_eqb x s
  | None => false
  end.

(** [s.strip('-')] and [s.rstrip('-')]. *)
Definition hyphen : N := 45.

Fixpoint lstrip_hyphen (s : str) : str :=
  match s with
  | c :: s' => if c =? hyphen then lstrip_hyphen s' else s
  | [] => []
  end.

Fixpoint rstrip_hyphen (s : str) : str :=
  match s with
  | [] => []
  | c :: s' =>
      match rstrip_hyphen s' with
      | [] => if c =? hyphen then [] else [c]
      | t => c :: t
      end
  end.

Definition strip_hyphen (s : str) : str := rstrip_hyphen (lstrip_hyphen s).

(** ** Character classes on the ASCII range *)

Definition is_ascii (c : N) : Prop := c < 128.
Definition is_ascii_upper (c : N) : bool := (65 <=? c) && (c <=? 90).
Definition is_ascii_lower (c : N) : bool := (97 <=? c) && (c <=? 122).
Definition is_ascii_digit (c : N) : bool := (48 <=? c) && (c <=? 57).
Definition is_ascii_letter (c : N) : bool := is_ascii_upper c || is_ascii_lower c.

(** The ASCII characters for which [str.isspace] holds: tab to carriage
    return, the four separators 0x1C-0x1F and the space. *)
Definition is_ascii_space (c : N) : bool :=
  ((9 <=? c) && (c <=? 13)) || ((28 <=? c) && (c <=? 31)) || (c =? 32).

Definition ascii_lower (c : N) : N :=
  if is_ascii_upper c then c + 32 else c.

(** ** The Unicode tables behind [str.lower], [str.isalpha] and the [\s] class

    The case and category tables are part of the Python runtime, not of the
    repository.  They are taken as an interface: the operations, and what
    they do on and to the ASCII range. *)
Class Unicode := {
  (** [s.lower()] *)
  lower : str -> str;
  (** [c.isalpha()] for a one-character string *)
  isalpha : N -> bool;
  (** membership in the class [\s] of a [str] pattern *)
  isspace : N -> bool;
  lower_ascii :
    forall s, Forall is_ascii s -> lower s = List.map ascii_lower s;
  lower_ascii_out :
    forall s c, In c (lower s) -> c < 128 ->
      is_ascii_lower c = true \/ (In c s /\ is_ascii_upper c = false);
  isalpha_ascii : forall c, c < 128 -> isalpha c = is_ascii_letter c;
  isspace_ascii : forall c, c < 128 -> isspace c = is_ascii_space c
}.

(** ** slack_listener.py: message triage *)

Module SlackListener.

(** The fields of [event_data["event"]] that the listener reads.  A missing
    key is [None]; a key that is present holds a string. *)
Record slack_event := {
  ev_type : option str;
  ev_bot_id : option str;
  ev_user : option str;
  ev_client_msg_id : option str;
  ev_ts : option str;
  ev_text : option str
}.

Record event_payload := { ed_event : option slack_event }.

(** [{}] *)
Definition empty_event : slack_event :=
  {| ev_type := None; ev_bot_id := None; ev_user := None;
     ev_client_msg_id := None; ev_ts := None; ev_text := None |}.

(** [d.get(key, "")] *)
Definition get_or_empty (o : option str) : str := default [] o.

(** The local list [trigger_keywords] of [should_process_message]. *)
Definition trigger_keywords : list str :=
  [ lit "bug"; lit "issue"; lit "problem"; lit "error"; lit "broken";
    lit "fix"; lit "feature"; lit "request"; lit "task"; lit "todo";
    lit "action"; lit "ticket"; lit "jira"; lit "urgent"; lit "critical";
    lit "blocker"; lit "help"; lit "support"; lit "review"; lit "pr";
    lit "pull request"; lit "create"; lit "new"; lit "build";
    lit "develop"; lit "implement"; lit "add"; lit "update" ].

(** The bot's own user id. *)
Definition bot_user_id : str := lit "U09ADLT6360".

(** [event.get("client_msg_id") or event.get("ts")] *)
Definition message_id (event : slack_event) : option str :=
  py_or (ev_client_msg_id event) (ev_ts event).

Definition has_mention (text : str) : bool :=
  str_in (lit "@Action Agent") text ||
  str_in (lit "<@U09ADLT6360>") text ||
  str_in (lit "U09ADLT6360") text.

Section Triage.
Context `{U : Unicode}.

Definition has_trigger (text : str) : bool :=
  let text_lower := lower text in
  List.existsb (fun keyword => str_in keyword text_lower) trigger_keywords.

(** [should_process_message]: the result and [self.processed_messages] after
    the call.  The calls to [logger.info] are left out. *)
Definition should_process_message (event_data : event_payload)
    (processed_messages : gset (option str)) : bool * gset (option str) :=
  let event := default empty_event (ed_event event_data) in
  if negb (opt_eqb (ev_type event) (lit "message")) then
    (false, processed_messages)
  else if truthy (ev_bot_id event)
          || startswith (get_or_empty (ev_user event)) (lit "B") then
    (false, processed_messages)
  else if opt_eqb (ev_user event) bot_user_id || truthy (ev_bot_id event) then
    (false, processed_messages)
  else
    let message_id := message_id event in
    if bool_decide (message_id ∈ processed_messages) then
      (false, processed_messages)
    else
      let text := get_or_empty (ev_text event) in
      if negb (has_mention text) then (false, processed_messages)
      else if negb (has_trigger text) then (false, processed_messages)
      else (true, {[ message_id ]} ∪ processed_messages).

(** The listener calls [should_process_message] once per delivered event, in
    delivery order, on the one shared set. *)
Fixpoint handle_events (events : list event_payload)
    (processed_messages : gset (option str)) : list bool * gset (option str) :=
  match events with
  | [] => ([], processed_messages)
  | e :: rest =>
      let '(b, s1) := should_process_message e processed_messages in
      let '(bs, s2) := handle_events rest s1 in
      (b :: bs, s2)
  end.

(** *** Ticket fields built by [create_jira_ticket_and_repository] *)

(** The issue type chosen from the message text ("Determine issue type based
    on keywords"). *)
Definition derive_issue_type (message_text : str) : str :=
  let text_lower := lower message_text in
  if List.existsb (fun word => str_in word text_lower)
       [lit "bug"; lit "error"; lit "broken"; lit "fix"] then lit "Bug"
  else if List.existsb (fun word => str_in word text_lower)
            [lit "feature"; lit "request"; lit "enhancement"] then lit "Story"
  else lit "Task".

(** "Check if our issue type exists": the derived type is kept when the
    project offers it, otherwise the project's first type is used; with no
    type at all the function logs an error and returns [None]. *)
Definition available_issue_type (issue_types : list str) (issue_type : str)
    : option str :=
  if List.existsb (fun it => str_eqb it issue_type) issue_types then
    Some issue_type
  else
    match issue_types with
    | it :: _ => Some it
    | [] => None
    end.

(** ['summary': f"Action Item: {message_text[:50]}..."] *)
Definition issue_summary (message_text : str) : str :=
  lit "Action Item: " ++ firstn 50 message_text ++ lit "...".

Record issue_fields := {
  summary : str;
  issuetype : str
}.

(** The [summary] and [issuetype] entries of [issue_dict], for a project
    whose issue types have the names [issue_types]. *)
Definition issue_dict (issue_types : list str) (message_text : str)
    : option issue_fields :=
  match available_issue_type issue_types (derive_issue_type message_text) with
  | Some issue_type =>
      Some {| summary := issue_summary message_text; issuetype := issue_type |}
  | None => None
  end.

End Triage.

End SlackListener.

(** ** Exceptions *)

(** A raised exception: its class and [str(e)]. *)
Record exn := {
  exn_class : string;
  exn_message : str
}.

Inductive result (A : Type) : Type :=
| Ok (a : A)
| Raise (e : exn).
Arguments Ok {A} a.
Arguments Raise {A} e.

(** ** assign_team_member.py *)

Module AssignTeamMember.

(** A value of the [team_members] dictionary. *)
Record member_info := {
  name : str;
  role : str;
  expertise : list str;
  current_workload : Z;
  availability : str
}.

(** The [team_members] dictionary, in insertion order: account id and
    member data. *)
Definition roster := list (str * member_info).

(** A value of [unique_members]: the account ids of one display name and the
    data of its first entry. *)
Record member_group := {
  usernames : list str;
  info : member_info
}.

Record TeamMember := {
  tm_username : str;
  tm_name : str;
  tm_role : str;
  tm_current_workload : Z;
  tm_expertise : list str;
  tm_availability : str
}.

(** The two calls made on the Jira client: the number of issues returned by
    [search_issues] for a project key and an account id ([None] when the call
    raises), and whether [jira.user] returns for an account id. *)
Record Jira := {
  search_issues : str -> str -> option nat;
  user : str -> bool
}.

(** The environment read at the start of the call: whether the three
    credentials are set, and the outcome of constructing the client. *)
Record environment := {
  credentials_set : bool;
  connect : result Jira
}.

Definition mk_member (n r : string) (e : list str) : member_info :=
  {| name := lit n; role := lit r; expertise := e;
     current_workload := 0%Z; availability := lit "Available" |}.

(** The dictionary literal of the source. *)
Definition team_members : roster :=
  [ (lit "712020:3bfe137e-5ac0-4efa-b04e-9d85b57b9139",
     mk_member "Ntutu Peter" "Senior Developer"
       [lit "frontend"; lit "react"; lit "javascript"; lit "ui/ux";
        lit "fullstack"; lit "python"; lit "backend"]);
    (lit "712020:2952f39a-da3d-48c2-a925-02b93c30d8e6",
     mk_member "Hyllo Deck" "Project Lead"
       [lit "frontend"; lit "backend"; lit "fullstack"; lit "python";
        lit "javascript"; lit "project-management"]);
    (lit "63e1fbc8c3eb74ad8e9908f6",
     mk_member "Peter Lemashon" "Developer"
       [lit "frontend"; lit "javascript"; lit "react"; lit "ui/ux";
        lit "mobile"]);
    (lit "712020:a60f6a64-dbed-43f5-86a1-ab50d677a25d",
     mk_member "Berry Tech" "Backend Developer"
       [lit "backend"; lit "python"; lit "api"; lit "database";
        lit "devops"; lit "cloud"]);
    (lit "712020:ae6e8776-fbb2-49c5-a48a-248dcff9a51c",
     mk_member "Berry Writers" "Content Developer"
       [lit "content"; lit "documentation"; lit "writing"; lit "marketing";
        lit "technical-writing"]);
    (lit "712020:2c742993-5b76-46bf-b2dd-824a26b15abe",
     mk_member "Mash Peter" "Frontend Developer"
       [lit "frontend"; lit "javascript"; lit "react"; lit "vue";
        lit "ui/ux"; lit "css"]);
    (lit "712020:963e2599-82a1-4f34-a538-67f0a93662c7",
     mk_member "Nancy Ntutu" "QA Engineer"
       [lit "testing"; lit "quality"; lit "automation"; lit "bug-fixes";
        lit "manual-testing"]);
    (lit "712020:74d059da-56f7-4e7d-8d90-51e0b42b218f",
     mk_member "Ntutu Sinantei" "Backend Developer"
       [lit "backend"; lit "python"; lit "api"; lit "database";
        lit "microservices"]);
    (lit "712020:df023e88-6666-4331-90de-3f3130d5016e",
     mk_member "Xapho Bell" "Full Stack Developer"
       [lit "frontend"; lit "backend"; lit "fullstack"; lit "python";
        lit "javascript"; lit "react"; lit "nodejs"]) ].

Definition set_workload (m : member_info) (w : Z) : member_info :=
  {| name := name m; role := role m; expertise := expertise m;
     current_workload := w; availability := availability m |}.

(** "Get current workload for each team member": a failed query leaves the
    seed value. *)
Definition refresh_workloads (jira : Jira) (project_key : str)
    (team_members : roster) : roster :=
  List.map
    (fun '(username, member) =>
       match search_issues jira project_key username with
       | Some n => (username, set_workload member (Z.of_nat n))
       | None => (username, member)
       end)
    team_members.

(** One round of "Group team members by name to avoid duplicates". *)
Fixpoint group_add (member_name username : str) (member : member_info)
    (unique : list (str * member_group)) : list (str * member_group) :=
  match unique with
  | [] => [(member_name, {| usernames := [username]; info := member |})]
  | (n, g) :: rest =>
      if str_eqb n member_name then
        (n, {| usernames := usernames g ++ [username]; info := info g |})
        :: rest
      else (n, g) :: group_add member_name username member rest
  end.

Definition unique_members (team_members : roster)
    : list (str * member_group) :=
  fold_left
    (fun unique '(username, member) =>
       group_add (name member) username member unique)
    team_members [].

(** [unique_members[key]] *)
Fixpoint lookup_group (key : str) (unique : list (str * member_group))
    : option member_group :=
  match unique with
  | [] => None
  | (n, g) :: rest => if str_eqb n key then Some g else lookup_group key rest
  end.

Section Scoring.
Context `{U : Unicode}.

(** [any(exp.lower() in item.lower() for exp in member_info["expertise"])] *)
Definition expertise_match (member : member_info) (item : str) : bool :=
  List.existsb (fun exp => str_in (lower exp) (lower item)) (expertise member).

(** The number of items of the list that raise [expertise_matches]. *)
Definition count_matches (member : member_info) (items : list str) : Z :=
  Z.of_nat (length (List.filter (expertise_match member) items)).

(** The body of the scoring loop for one member. *)
Definition score (member : member_info) (issue_type priority : str)
    (components labels : list str) : Z :=
  let score := 0%Z in
  let workload_score := Z.max 0 (10 - current_workload member) in
  let score := (score + workload_score * 3)%Z in
  let expertise_matches :=
    (count_matches member components + count_matches member labels)%Z in
  let score := (score + expertise_matches * 2)%Z in
  let score :=
    if list_in priority [lit "Highest"; lit "High"] then
      let score :=
        if str_in (lit "Senior") (role member) then (score + 5)%Z else score in
      if str_in (lit "QA") (role member) && str_eqb issue_type (lit "Bug")
      then (score + 3)%Z else score
    else score in
  let score :=
    if str_eqb issue_type (lit "Bug") && str_in (lit "QA") (role member)
    then (score + 4)%Z
    else if str_eqb issue_type (lit "Story")
            && str_in (lit "Developer") (role member)
    then (score + 3)%Z
    else if str_eqb issue_type (lit "Epic")
            && str_in (lit "Senior") (role member)
    then (score + 8)%Z
    else if str_eqb issue_type (lit "Task")
            && str_in (lit "Developer") (role member)
    then (score + 3)%Z
    else score in
  if str_eqb (availability member) (lit "Available") then (score + 2)%Z
  else score.

(** The scoring loop: [(best_member_name, best_score)] after scanning
    [unique], starting from [best]. *)
Definition scan (issue_type priority : str) (components labels : list str)
    (unique : list (str * member_group)) (best : option str * Z)
    : option str * Z :=
  fold_left
    (fun best '(member_name, member_data) =>
       let s := score (info member_data) issue_type priority
                  components labels in
       if (s >? snd best)%Z then (Some member_name, s) else best)
    unique best.

(** [best_member_name] after the loop and the "Fallback to first available
    team member"; indexing the empty key list raises [IndexError]. *)
Definition best_member_name (issue_type priority : str)
    (components labels : list str) (unique : list (str * member_group))
    : result str :=
  let best := scan issue_type priority components labels unique (None, (-1)%Z) in
  if truthy (fst best) then Ok (default [] (fst best))
  else
    match unique with
    | (first, _) :: _ => Ok first
    | [] => Raise {| exn_class := "IndexError";
                     exn_message := lit "list index out of range" |}
    end.

(** "Try each username format until one works" *)
Definition working_username (jira : Jira) (usernames : list str)
    : option str :=
  List.find (user jira) usernames.

Definition fallback_username : str :=
  lit "712020:3bfe137e-5ac0-4efa-b04e-9d85b57b9139".

(** The body of the [try] block, for the dictionary [team_members]. *)
Definition assign_body (team_members : roster) (env : environment)
    (issue_type priority : str) (components labels : list str)
    (project_key : str) : result TeamMember :=
  if negb (credentials_set env) then
    Raise {| exn_class := "ValueError";
             exn_message := lit "Jira credentials not properly configured" |}
  else
    match connect env with
    | Raise e => Raise e
    | Ok jira =>
        let team_members := refresh_workloads jira project_key team_members in
        let unique := unique_members team_members in
        match best_member_name issue_type priority components labels unique with
        | Raise e => Raise e
        | Ok best =>
            match lookup_group best unique with
            | None =>
                Raise {| exn_class := "KeyError";
                         exn_message := lit "'" ++ best ++ lit "'" |}
            | Some selected_member =>
                let m := info selected_member in
                match working_username jira (usernames selected_member) with
                | Some username =>
                    Ok {| tm_username := username;
                          tm_name := name m;
                          tm_role := role m;
                          tm_current_workload := current_workload m;
                          tm_expertise := expertise m;
                          tm_availability := availability m |}
                | None =>
                    Ok {| tm_username := fallback_username;
                          tm_name := lit "Ntutu Peter";
                          tm_role := lit "Senior Developer";
                          tm_current_workload := current_workload m;
                          tm_expertise := expertise m;
                          tm_availability := availability m |}
                end
            end
        end
    end.

(** [except Exception as e: raise Exception(f"Failed to assign team member:
    {str(e)}")] around the body. *)
Definition assign_team_member_with (team_members : roster) (env : environment)
    (issue_type priority : str) (components labels : list str)
    (project_key : str) : result TeamMember :=
  match assign_body team_members env issue_type priority components labels
          project_key with
  | Ok m => Ok m
  | Raise e =>
      Raise {| exn_class := "Exception";
               exn_message := lit "Failed to assign team member: "
                              ++ exn_message e |}
  end.

(** The tool as written, on its own dictionary. *)
Definition assign_team_member := assign_team_member_with team_members.

End Scoring.

End AssignTeamMember.

(** ** The host, as the provisioners drive it *)

(** [git]: [subprocess.run(cmd, cwd=..., check=True)] for a git command,
    with the working directory when one is passed: the state of the host
    after the command and the exception raised, if any ([CalledProcessError]
    for a non-zero exit status).  [chdir]: [os.chdir(path)]. *)
Class Host (G : Type) := {
  git : G -> option str -> list str -> G * option exn;
  chdir : G -> str -> G * option exn
}.

Definition is_CalledProcessError (e : exn) : bool :=
  String.eqb (exn_class e) "CalledProcessError".

(** ** github_automation_simple.py *)

Module GithubAutomationSimple.

Section RepoName.
Context `{U : Unicode}.

(** The characters kept by [re.sub(r'[^a-zA-Z0-9\s-]', '', _)]. *)
Definition kept (c : N) : bool :=
  is_ascii_letter c || is_ascii_digit c || isspace c || (c =? hyphen).

(** [re.sub(r'\s+', '-', _)]: [in_run] tells that the previous character
    belonged to the run of whitespace being replaced. *)
Fixpoint sub_spaces (in_run : bool) (s : str) : str :=
  match s with
  | [] => []
  | c :: s' =>
      if isspace c then
        if in_run then sub_spaces true s' else hyphen :: sub_spaces true s'
      else c :: sub_spaces false s'
  end.

Definition _generate_repo_name (task_title : str) : str :=
  let name := List.filter kept (lower task_title) in
  let name := sub_spaces false name in
  let name := strip_hyphen name in
  let name :=
    if (50 <? length name)%nat then rstrip_hyphen (firstn 50 name)
    else name in
  let name :=
    match name with
    | c :: _ => if negb (isalpha c) then lit "repo-" ++ name else name
    | [] => name
    end in
  match name with
  | [] => lit "new-project"
  | _ :: _ => name
  end.

End RepoName.

Section Branches.
Context {G : Type} `{Host G}.

(** The [try] block catches [CalledProcessError] only, prints a warning and
    returns the branches listed so far. *)
Definition _create_branch_structure (g : G) (local_path project_type : str)
    (use_ibm_watsonx : bool) : G * result (list str) :=
  let branches := [lit "main"; lit "develop"] in
  let handler (g : G) (e : exn) (branches : list str) :=
    if is_CalledProcessError e then (g, Ok branches) else (g, Raise e) in
  match git g (Some local_path)
          [lit "git"; lit "checkout"; lit "-b"; lit "develop"] with
  | (g, Some e) => handler g e branches
  | (g, None) =>
      match git g (Some local_path)
              [lit "git"; lit "checkout"; lit "-b";
               lit "feature/initial-setup"] with
      | (g, Some e) => handler g e branches
      | (g, None) =>
          let branches := branches ++ [lit "feature/initial-setup"] in
          match git g (Some local_path)
                  [lit "git"; lit "checkout"; lit "main"] with
          | (g, Some e) => handler g e branches
          | (g, None) => (g, Ok branches)
          end
      end
  end.

End Branches.

End GithubAutomationSimple.

(** ** github_automation.py *)

Module GithubAutomation.

Section Branches.
Context {G : Type} `{Host G}.

(** A step of the function, followed by the rest of the function: nothing
    is caught, so an exception ends the call. *)
Definition step {A : Type} (r : G * option exn)
    (k : G -> G * result A) : G * result A :=
  match r with
  | (g, Some e) => (g, Raise e)
  | (g, None) => k g
  end.

Definition checkout_b (b : string) : list str :=
  [lit "git"; lit "checkout"; lit "-b"; lit b].
Definition checkout (b : string) : list str :=
  [lit "git"; lit "checkout"; lit b].

(** Every command runs with [check=True], in the directory entered first. *)
Definition _create_branch_structure (g : G) (local_path project_type : str)
    (use_ibm_watsonx : bool) : G * result (list str) :=
  let branches := [lit "main"] in
  step (chdir g local_path) (fun g =>
  step (git g None (checkout_b "develop")) (fun g =>
  let branches := branches ++ [lit "develop"] in
  step (git g None (checkout_b "feature/initial-setup")) (fun g =>
  let branches := branches ++ [lit "feature/initial-setup"] in
  step (git g None (checkout "develop")) (fun g =>
  step (git g None (checkout_b "staging")) (fun g =>
  let branches := branches ++ [lit "staging"] in
  step (git g None (checkout "main")) (fun g =>
  step (git g None (checkout_b "hotfix/emergency-fixes")) (fun g =>
  let branches := branches ++ [lit "hotfix/emergency-fixes"] in
  if use_ibm_watsonx then
    step (git g None (checkout "develop")) (fun g =>
    step (git g None (checkout_b "feature/ibm-watsonx-integration")) (fun g =>
    (g, Ok (branches ++ [lit "feature/ibm-watsonx-integration"]))))
  else (g, Ok branches)))))))).

End Branches.

End GithubAutomation.

(** ** advanced_automation.py *)

Module AdvancedAutomation.

Section Plan.
Context `{U : Unicode}.

(** The [feature_branches] of the repository plan returned by
    [create_git_repository_for_task]. *)
Definition feature_branches (components labels : list str) : list str :=
  List.map (fun component => lit "feature/" ++ lower component) components
  ++ List.map (fun label => lit "feature/" ++ lower label)
       (List.filter
          (fun label =>
             negb (list_in (lower label)
                     [lit "bug"; lit "feature"; lit "enhancement"]))
          labels)
  ++ [lit "feature/implementation"; lit "feature/testing";
      lit "feature/documentation"].

End Plan.

End AdvancedAutomation.

(** ** slack_listener.py: project, repository trigger and project type

    The remaining choices of [create_jira_ticket_and_repository]. *)

Module SlackListenerTicket.

(** "Check if our project key exists": the key read from the Jira URL is
    kept when a project has it, otherwise the first project is used; with
    no project the function logs an error and returns [None]. *)
Definition available_project (projects : list str) (project_key : str)
    : option str :=
  if List.existsb (fun p => str_eqb p project_key) projects then
    Some project_key
  else
    match projects with
    | p :: _ => Some p
    | [] => None
    end.

Definition repo_trigger_keywords : list str :=
  [ lit "repository"; lit "repo"; lit "github"; lit "code"; lit "project";
    lit "app"; lit "application"; lit "website"; lit "api"; lit "service";
    lit "feature"; lit "new"; lit "create"; lit "build"; lit "develop";
    lit "dashboard"; lit "system"; lit "platform"; lit "tool"; lit "module";
    lit "component" ].

Section Choices.
Context `{U : Unicode}.

(** [should_create_repo] *)
Definition should_create_repo (message_text : str) : bool :=
  let text_lower := lower message_text in
  List.existsb (fun word => str_in word text_lower) repo_trigger_keywords.

(** "Determine project type based on keywords" *)
Definition project_type (message_text : str) : str :=
  let text_lower := lower message_text in
  if List.existsb (fun word => str_in word text_lower)
       [lit "api"; lit "service"; lit "backend"] then lit "api-service"
  else if List.existsb (fun word => str_in word text_lower)
            [lit "mobile"; lit "app"; lit "ios"; lit "android"]
  then lit "mobile-app"
  else if List.existsb (fun word => str_in word text_lower)
            [lit "data"; lit "ml"; lit "ai"; lit "machine learning"]
  then lit "data-science"
  else lit "web-application".

End Choices.

End SlackListenerTicket.

(** ** slack_event_handler.py *)

Module SlackEventHandler.

(** The keys of [event_data] that [SlackEvent] declares.  A missing key is
    [None]; a key that is present holds a string. *)
Record event_fields := {
  f_type : option str;
  f_channel : option str;
  f_user : option str;
  f_text : option str;
  f_ts : option str;
  f_thread_ts : option str
}.

(** A validated [SlackEvent]. *)
Record SlackEvent := {
  type : str;
  channel : str;
  user : str;
  text : str;
  ts : str;
  thread_ts : option str
}.

(** The result model, also named [SlackEventHandler] in the source. *)
Record handler_result := {
  success : bool;
  action_taken : str;
  agent_response : option str
}.

(** The [SlackEvent] built from [event_data]: the five required fields must
    be there. *)
Definition validate (event_data : event_fields) : option SlackEvent :=
  match f_type event_data, f_channel event_data, f_user event_data,
        f_text event_data, f_ts event_data with
  | Some t, Some c, Some u, Some x, Some s =>
      Some {| type := t; channel := c; user := u; text := x; ts := s;
              thread_ts := f_thread_ts event_data |}
  | _, _, _, _, _ => None
  end.

Definition trigger_keywords : list str :=
  [ lit "bug"; lit "issue"; lit "problem"; lit "error"; lit "broken";
    lit "fix"; lit "feature"; lit "request"; lit "task"; lit "todo";
    lit "action"; lit "ticket"; lit "jira" ].

Section Tool.
Context `{U : Unicode}.

(** The text of the validation error raised for an event, as [str(e)]. *)
Variable validation_error : event_fields -> str.

Definition process_slack_event (event_data : event_fields) : handler_result :=
  match validate event_data with
  | None =>
      {| success := false;
         action_taken := lit "Error processing event: "
                         ++ validation_error event_data;
         agent_response := None |}
  | Some event =>
      if negb (str_eqb (type event) (lit "message"))
         || negb (truthy (Some (text event))) then
        {| success := false;
           action_taken := lit "Ignored non-message event";
           agent_response := None |}
      else if startswith (user event) (lit "B") then
        {| success := false;
           action_taken := lit "Ignored bot message";
           agent_response := None |}
      else
        let message_lower := lower (text event) in
        let has_trigger :=
          List.existsb (fun keyword => str_in keyword message_lower)
            trigger_keywords in
        if negb has_trigger then
          {| success := false;
             action_taken := lit "No action items detected in message";
             agent_response := None |}
        else
          {| success := true;
             action_taken := lit "Processed message from " ++ user event
                             ++ lit " in " ++ channel event;
             agent_response :=
               Some (lit "Agent would analyze and create Jira ticket here") |}
  end.

End Tool.

End SlackEventHandler.

(** ** More Python string operations *)

(** [s.endswith(suffix)] *)
Definition endswith (s suffix : str) : bool :=
  startswith (rev s) (rev suffix).

(** [s.replace(old, new)] for a non-empty [old]: the occurrences of [old]
    are replaced from left to right, without overlap.  [skip] counts the
    characters of an occurrence still to be passed over. *)
Fixpoint replace_from (skip : nat) (old new : str) (s : str) : str :=
  match s with
  | [] => []
  | c :: s' =>
      match skip with
      | S k => replace_from k old new s'
      | O =>
          if startswith s old then
            new ++ replace_from (length old - 1) old new s'
          else c :: replace_from 0 old new s'
      end
  end.

(** [s.replace(old, new)]; an empty [old] matches before every character
    and at the end. *)
Definition replace (old new : str) (s : str) : str :=
  match old with
  | [] => new ++ List.concat (List.map (fun c => c :: new) s)
  | _ :: _ => replace_from 0 old new s
  end.

(** ** assign_team_member.py: update_ticket_assignee *)

Module UpdateTicketAssignee.

(** The call made on the client: [jira.assign_issue(issue, account_id=...)]
    or [jira.assign_issue(issue, ...)]. *)
Inductive assign_call :=
| ByAccountId (account_id : str)
| ByName (username : str).

(** The calls made on the Jira client: [jira.issue] and
    [jira.assign_issue], each with the exception it raises, if any. *)
Record Jira := {
  issue : str -> option exn;
  assign_issue : str -> assign_call -> option exn
}.

Record environment := {
  credentials_set : bool;
  connect : result Jira
}.

(** "Handle both regular usernames and Account IDs" *)
Definition call_for (assignee_username : str) : assign_call :=
  if str_in (lit ":") assignee_username then ByAccountId assignee_username
  else ByName assignee_username.

Definition update_body (env : environment)
    (ticket_key assignee_username : str) : result bool :=
  if negb (credentials_set env) then
    Raise {| exn_class := "ValueError";
             exn_message := lit "Jira credentials not properly configured" |}
  else
    match connect env with
    | Raise e => Raise e
    | Ok jira =>
        match issue jira ticket_key with
        | Some e => Raise e
        | None =>
            match assign_issue jira ticket_key
                    (call_for assignee_username) with
            | Some e => Raise e
            | None => Ok true
            end
        end
    end.

Definition update_ticket_assignee (env : environment)
    (ticket_key assignee_username : str) : result bool :=
  match update_body env ticket_key assignee_username with
  | Ok b => Ok b
  | Raise e =>
      Raise {| exn_class := "Exception";
               exn_message := lit "Failed to update ticket assignee: "
                              ++ exn_message e |}
  end.

End UpdateTicketAssignee.

(** ** create_jira_ticket.py *)

Module CreateJiraTicket.

(** The quotation mark. *)
Definition quote : str := [34].

(** "Clean up summary - remove quotes and improve formatting" *)
Definition clean_summary (summary : str) : str :=
  let clean_summary := summary in
  let clean_summary :=
    if startswith clean_summary quote && endswith clean_summary quote
    then removelast (tl clean_summary)
    else clean_summary in
  if startswith clean_summary (lit "Action Item: ")
  then replace (lit "Action Item: ") [] clean_summary
  else clean_summary.

(** The [assignee] entry of [issue_dict]. *)
Inductive assignee_entry :=
| accountId (id : str)
| name (username : str).

Section Assignee.
Context `{U : Unicode}.

(** "Check if it's a 24-character hex string ... or contains colon" *)
Definition is_account_id (assignee : str) : bool :=
  str_in (lit ":") assignee
  || ((length assignee =? 24)%nat
      && List.forallb (fun c => str_in [c] (lit "0123456789abcdef"))
           (lower assignee)).

Definition entry_for (assignee : str) : assignee_entry :=
  if is_account_id assignee then accountId assignee else name assignee.

(** The call [assign_team_member(...)] inside [create_jira_ticket].  The
    name comes from a local import and is bound to the object that the
    [@tool] decorator of the library returned; what a call of that object
    does is the library's.  A [tool_call] gives the [username] attribute of
    what the call returns, or the exception raised by the import, by the
    call or by the attribute. *)
Definition tool_call : Type :=
  str -> str -> list str -> list str -> str -> result str.

(** The assignee put on the ticket: a given assignee when [jira.user] knows
    it, the member that the call of the tool returns when none is given,
    and none when either fails.  [issue_type] and [priority] are the
    strings passed on, [str(issue_type)] and [str(priority)]. *)
Definition assignee_for (assign_team_member : tool_call)
    (jira : AssignTeamMember.Jira) (assignee : option str)
    (issue_type priority project_key : str) : option assignee_entry :=
  if truthy assignee then
    let assignee := default [] assignee in
    if AssignTeamMember.user jira assignee then Some (entry_for assignee)
    else None
  else
    match assign_team_member issue_type priority [] [] project_key with
    | Ok username => Some (entry_for username)
    | Raise _ => None
    end.

End Assignee.

End CreateJiraTicket.

(** ** Whitespace

    [str.split()] and [str.strip()] without argument use the table of
    whitespace characters that the class [\s] uses. *)

Section Whitespace.
Context `{U : Unicode}.

(** [len(s.split())]: the number of runs of characters other than
    whitespace. *)
Fixpoint count_words (in_word : bool) (s : str) : nat :=
  match s with
  | [] => 0
  | c :: s' =>
      if isspace c then count_words false s'
      else (if in_word then 0 else 1) + count_words true s'
  end.

(** [s.strip()] *)
Fixpoint lstrip_space (s : str) : str :=
  match s with
  | c :: s' => if isspace c then lstrip_space s' else s
  | [] => []
  end.

Fixpoint rstrip_space (s : str) : str :=
  match s with
  | [] => []
  | c :: s' =>
      match rstrip_space s' with
      | [] => if isspace c then [] else [c]
      | t => c :: t
      end
  end.

Definition strip_space (s : str) : str := rstrip_space (lstrip_space s).

End Whitespace.

(** ** advanced_automation.py: the repository plan and the subtasks *)

Module AdvancedAutomationPlan.

(** [re.sub(r'[^a-z0-9-]', '-', _)] on one character. *)
Definition plan_char (c : N) : N :=
  if is_ascii_lower c || is_ascii_digit c || (c =? hyphen) then c
  else hyphen.

(** [re.sub(r'-+', '-', _)]: [in_run] tells that the previous character
    was a hyphen of the run being replaced. *)
Fixpoint sub_hyphens (in_run : bool) (s : str) : str :=
  match s with
  | [] => []
  | c :: s' =>
      if c =? hyphen then
        if in_run then sub_hyphens true s' else hyphen :: sub_hyphens true s'
      else c :: sub_hyphens false s'
  end.

Record SubtaskInfo := {
  summary : str;
  description : str;
  issue_type : str;
  priority : str;
  estimated_time : str
}.

Section Plan.
Context `{U : Unicode}.

(** "Clean up ticket key for repository name" *)
Definition repo_name (ticket_key ticket_summary : str) : str :=
  let repo_name :=
    lower ticket_key ++ lit "-" ++ firstn 30 (lower ticket_summary) in
  let repo_name := List.map plan_char repo_name in
  strip_hyphen (sub_hyphens false repo_name).

(** "Determine main branch based on project type" *)
Definition main_branch (components : list str) : str :=
  if List.existsb
       (fun comp => list_in (lower comp) [lit "legacy"; lit "old"])
       components
  then lit "master" else lit "main".

(** The body of the loop "Categorize and prioritize subtasks" of
    [analyze_conversation_for_subtasks], for one action found in the
    conversation. *)
Definition subtask_for (parent_ticket_key action : str) : SubtaskInfo :=
  let has_any (words : list str) :=
    List.existsb (fun word => str_in word (lower action)) words in
  let priority := lit "Medium" in
  let priority :=
    if has_any [lit "urgent"; lit "critical"; lit "blocking"; lit "immediate"]
    then lit "High"
    else if has_any [lit "nice to have"; lit "future"; lit "later"]
    then lit "Low"
    else priority in
  let issue_type := lit "Sub-task" in
  let issue_type :=
    if has_any [lit "test"; lit "verify"; lit "check"] then lit "Sub-task"
    else if has_any [lit "design"; lit "plan"; lit "research"]
    then lit "Sub-task"
    else issue_type in
  let estimated_time := lit "2h" in
  let estimated_time :=
    if (10 <? count_words false action)%nat then lit "4h"
    else estimated_time in
  let estimated_time :=
    if has_any [lit "simple"; lit "quick"; lit "minor"] then lit "1h"
    else estimated_time in
  {| summary := lit "Subtask: " ++ strip_space action;
     description :=
       lit "Auto-generated subtask from conversation analysis."
       ++ [10; 10] ++ lit "**Context:** " ++ action
       ++ [10] ++ lit "**Parent Ticket:** " ++ parent_ticket_key;
     issue_type := issue_type;
     priority := priority;
     estimated_time := estimated_time |}.

End Plan.

End AdvancedAutomationPlan.

(** ** github_automation.py: the repository name and the recommendations *)

(** [c.isalnum()], beside the Unicode tables above. *)
Class UnicodeAlnum := {
  isalnum : N -> bool;
  isalnum_ascii :
    forall c, c < 128 -> isalnum c = is_ascii_letter c || is_ascii_digit c
}.

Module GithubAutomationNames.

(** [s.split('-')] *)
Fixpoint split_hyphen (s : str) : list str :=
  match s with
  | [] => [[]]
  | c :: s' =>
      if c =? hyphen then [] :: split_hyphen s'
      else
        match split_hyphen s' with
        | seg :: segs => (c :: seg) :: segs
        | [] => [[c]]
        end
  end.

(** ['-'.join(segs)] *)
Fixpoint join_hyphen (segs : list str) : str :=
  match segs with
  | [] => []
  | seg :: rest =>
      match rest with
      | [] => seg
      | _ :: _ => seg ++ hyphen :: join_hyphen rest
      end
  end.

(** [filter(None, segs)]: the segments that are not empty. *)
Definition nonempty (segs : list str) : list str :=
  List.filter (fun seg => negb (Nat.eqb (length seg) 0)) segs.

Section Names.
Context `{U : Unicode} `{A : UnicodeAlnum}.

Definition _generate_repo_name (task_title : str) : str :=
  let clean_name :=
    List.concat
      (List.map (fun c => if isalnum c then lower [c] else [hyphen])
         task_title) in
  let clean_name := join_hyphen (nonempty (split_hyphen clean_name)) in
  firstn 50 clean_name.

Definition _get_recommended_branches (project_type : str) : list str :=
  let base_branches := [lit "main"; lit "develop"; lit "staging"] in
  if str_in (lit "web") (lower project_type) then
    base_branches
    ++ [lit "feature/frontend"; lit "feature/backend"; lit "feature/ui-ux"]
  else if str_in (lit "api") (lower project_type) then
    base_branches
    ++ [lit "feature/api"; lit "feature/database"; lit "feature/testing"]
  else if str_in (lit "mobile") (lower project_type) then
    base_branches
    ++ [lit "feature/mobile"; lit "feature/ios"; lit "feature/android"]
  else base_branches ++ [lit "feature/development"].

Definition _get_dependencies (project_type : str) : list str :=
  if str_in (lit "web") (lower project_type) then
    [lit "fastapi"; lit "react"; lit "typescript";
     lit "ibm-watsonx-orchestrate-adk"]
  else if str_in (lit "api") (lower project_type) then
    [lit "fastapi"; lit "sqlalchemy"; lit "pydantic";
     lit "ibm-watsonx-orchestrate-adk"]
  else [lit "python"; lit "ibm-watsonx-orchestrate-adk"].

Definition _get_deployment_strategy (project_type : str) : str :=
  if str_in (lit "web") (lower project_type) then
    lit "Container-based deployment with IBM Cloud"
  else if str_in (lit "api") (lower project_type) then
    lit "Serverless deployment with IBM Cloud Functions"
  else lit "Traditional deployment with IBM Cloud".

End Names.

End GithubAutomationNames.

(** ** slack_listener.py: handling a request

    [handle_socket_mode_request], [process_message_sync] and
    [call_orchestrate_agent].  What the listener does to the outside is
    recorded as a trace of actions; the outcome of an action is given by
    the services, and may depend on everything done before. *)

(** [sep.join(parts)] *)
Fixpoint join (sep : str) (parts : list str) : str :=
  match parts with
  | [] => []
  | part :: rest =>
      match rest with
      | [] => part
      | _ :: _ => part ++ sep ++ join sep rest
      end
  end.

Module SlackListenerFlow.

Import SlackListener.

(** The [repo_info] and the result of [create_jira_ticket_and_repository]. *)
Record repository_info := {
  ri_name : str;
  ri_url : str;
  ri_branches : list str
}.

Record ticket_info := {
  ti_key : str;
  ti_url : str;
  ti_summary : str;
  ti_repository : option repository_info
}.

(** [subprocess.CompletedProcess] *)
Record completed := {
  returncode : Z;
  stdout : str;
  stderr : str
}.

(** The request handed to the listener.  The record [slack_event] holds
    the fields of the event that the triage reads; [req_channel] is
    [req.payload.get("event", {}).get("channel")]. *)
Record request := {
  req_type : str;
  req_payload : event_payload;
  req_channel : option str;
  envelope_id : str
}.

Inductive action :=
| PostMessage (channel : option str) (text : str) (thread_ts : option str)
| Run (args : list str)
| CreateTicket (message_text user : option str)
| Respond (envelope_id : str).

Definition trace := list action.

(** The outcome of the action that a trace ends with: an exception or not
    for a message posted and a response sent, a completed process or an
    exception for a command, the dict or [None] that
    [create_jira_ticket_and_repository] returns (it catches every
    exception). *)
Record services := {
  posted : trace -> option exn;
  ran : trace -> result completed;
  created : trace -> option ticket_info;
  responded : trace -> option exn
}.

Definition processing_text : str :=
  [129302]
  ++ lit " Processing your message and creating a Jira ticket and GitHub repository...".

Definition error_text : str :=
  [10060]
  ++ lit " Sorry, there was an error processing your message. Please try again.".

Definition no_ticket_text : str :=
  [10060]
  ++ lit " Sorry, I couldn't create a Jira ticket at the moment. Please try again later.".

Definition nl : str := [10].

(** The first f-string, after [.strip()]: the line break in front and the
    line break and the indentation at the end are removed. *)
Definition ticket_text (ticket_info : ticket_info) : str :=
  [9989] ++ lit " **Jira Ticket Created!**" ++ nl
  ++ nl
  ++ [128203] ++ lit " **Ticket:** " ++ ti_key ticket_info ++ nl
  ++ [128279] ++ lit " **Link:** " ++ ti_url ticket_info ++ nl
  ++ [128221] ++ lit " **Summary:** " ++ ti_summary ticket_info ++ nl
  ++ nl
  ++ lit "Your action item has been automatically created in Jira!".

(** The second f-string, which is not stripped. *)
Definition repository_text (repo : repository_info) : str :=
  nl
  ++ nl
  ++ [128279] ++ lit " **GitHub Repository Created!**" ++ nl
  ++ nl
  ++ [128230] ++ lit " **Repository:** " ++ ri_name repo ++ nl
  ++ [128279] ++ lit " **URL:** " ++ ri_url repo ++ nl
  ++ [127807] ++ lit " **Branches:** "
  ++ join (lit ", ") (ri_branches repo) ++ nl
  ++ nl
  ++ lit "Your GitHub repository is ready for development with IBM Watsonx integration!"
  ++ nl
  ++ lit "                    ".

Section Flow.
Context `{U : Unicode}.
Variable sv : services.

Definition chat_postMessage (t : trace) (channel : option str) (text : str)
    (thread_ts : option str) : trace * option exn :=
  let t := t ++ [PostMessage channel text thread_ts] in (t, posted sv t).

Definition run (t : trace) (args : list str) : trace * result completed :=
  let t := t ++ [Run args] in (t, ran sv t).

Definition create_jira_ticket_and_repository (t : trace)
    (message_text user : option str) : trace * option ticket_info :=
  let t := t ++ [CreateTicket message_text user] in (t, created sv t).

Definition send_socket_mode_response (t : trace) (envelope_id : str)
    : trace * option exn :=
  let t := t ++ [Respond envelope_id] in (t, responded sv t).

(** [call_orchestrate_agent]: every exception is caught and gives [None].
    The result of the first command is not looked at.  A [message_text]
    that is [None] makes the second call raise before a process starts. *)
Definition call_orchestrate_agent (t : trace) (message_text : option str)
    : trace * option str :=
  match run t [lit "orchestrate"; lit "env"; lit "activate"; lit "local"] with
  | (t, Raise _) => (t, None)
  | (t, Ok _) =>
      match message_text with
      | None => (t, None)
      | Some message_text =>
          match run t [lit "orchestrate"; lit "chat";
                       lit "action_items_agent"; message_text] with
          | (t, Raise _) => (t, None)
          | (t, Ok result) =>
              if (returncode result =? 0)%Z
              then (t, Some (strip_space (stdout result)))
              else (t, None)
          end
      end
  end.

(** [process_message_sync]: the [except] block posts the error text and
    drops an exception of that post. *)
Definition process_message_sync (t : trace) (event_data : event_payload)
    (channel : option str) : trace :=
  let event := default empty_event (ed_event event_data) in
  let user := ev_user event in
  let text := ev_text event in
  let ts := ev_ts event in
  let handler (t : trace) : trace :=
    (chat_postMessage t channel error_text ts).1 in
  match chat_postMessage t channel processing_text ts with
  | (t, Some _) => handler t
  | (t, None) =>
      let '(t, agent_response) := call_orchestrate_agent t text in
      let '(t, response_text) :=
        if truthy agent_response then
          (t, [9989] ++ lit " " ++ default [] agent_response)
        else
          let '(t, ticket_info) :=
            create_jira_ticket_and_repository t text user in
          match ticket_info with
          | Some ticket_info =>
              let response_text := ticket_text ticket_info in
              match ti_repository ticket_info with
              | Some repo => (t, response_text ++ repository_text repo)
              | None => (t, response_text)
              end
          | None => (t, no_ticket_text)
          end in
      match chat_postMessage t channel response_text ts with
      | (t, Some _) => handler t
      | (t, None) => t
      end
  end.

(** [handle_socket_mode_request]: the set of processed messages and the
    trace after the call, and the exception that leaves it, if any (that
    of the response sent in the [except] block). *)
Definition handle_socket_mode_request
    (processed_messages : gset (option str)) (t : trace) (req : request)
    : gset (option str) * trace * option exn :=
  let '(processed_messages, t) :=
    if str_eqb (req_type req) (lit "events_api") then
      let event_data := req_payload req in
      let '(accepted, processed_messages) :=
        should_process_message event_data processed_messages in
      if accepted then
        (processed_messages,
         process_message_sync t event_data (req_channel req))
      else (processed_messages, t)
    else (processed_messages, t) in
  match send_socket_mode_response t (envelope_id req) with
  | (t, None) => (processed_messages, t, None)
  | (t, Some _) =>
      let '(t, e) := send_socket_mode_response t (envelope_id req) in
      (processed_messages, t, e)
  end.

(** The Socket Mode client hands the requests to the listener one after
    the other; an exception that leaves the listener does not stop it. *)
Fixpoint handle_requests (processed_messages : gset (option str))
    (t : trace) (reqs : list request) : gset (option str) * trace :=
  match reqs with
  | [] => (processed_messages, t)
  | req :: rest =>
      let '(processed_messages, t, _) :=
        handle_socket_mode_request processed_messages t req in
      handle_requests processed_messages t rest
  end.

End Flow.

End SlackListenerFlow.

(** ** github_automation_simple.py: create_github_repository_for_task

    The function and its helpers.  What is done to GitHub, to git and to
    the file system is recorded as a trace of actions; the outcome of an
    action is given by the world, and may depend on everything done
    before. *)

Module Provisioning.

(** The keys of [response.json()] that the function reads; a key that is
    present holds a string. *)
Record repo_data := {
  rd_clone_url : option str;
  rd_name : option str;
  rd_description : option str;
  rd_html_url : option str;
  rd_default_branch : option str
}.

(** The response of [requests.post]; [json] is the outcome of
    [response.json()]. *)
Record response := {
  status_code : Z;
  text : str;
  json : result repo_data
}.

Record GitHubRepo := {
  name : str;
  description : str;
  url : str;
  branches : list str;
  default_branch : str
}.

Inductive action :=
| PostRepo (token name description : str) (private : bool)
| Mkdtemp
| Git (cwd : option str) (args : list str)
| Chdir (path : str)
| WriteFile (path content : str)
| Rmtree (path : str).

Definition trace := list action.

(** The outcome of the action that a trace ends with, and the [stderr]
    attribute of an exception raised by a command. *)
Record world := {
  post_outcome : trace -> result response;
  mkdtemp_outcome : trace -> result str;
  git_outcome : trace -> option exn;
  chdir_outcome : trace -> option exn;
  write_outcome : trace -> option exn;
  stderr : exn -> str
}.

Record environment := {
  GITHUB_TOKEN : option str;
  GITHUB_USERNAME : option str
}.

(** A computation that extends the trace and returns or raises. *)
Definition M (A : Type) : Type := trace -> trace * result A.

Definition ret {A : Type} (a : A) : M A := fun t => (t, Ok a).

Definition raise {A : Type} (e : exn) : M A := fun t => (t, Raise e).

Definition bind {A B : Type} (m : M A) (k : A -> M B) : M B :=
  fun t =>
    match m t with
    | (t, Ok a) => k a t
    | (t, Raise e) => (t, Raise e)
    end.

(** [try: m except ... as e: h e] *)
Definition catch {A : Type} (m : M A) (h : exn -> M A) : M A :=
  fun t =>
    match m t with
    | (t, Ok a) => (t, Ok a)
    | (t, Raise e) => h e t
    end.

Definition Exception (message : str) : exn :=
  {| exn_class := "Exception"; exn_message := message |}.

(** [d[key]] *)
Definition item (key : string) (o : option str) : M str :=
  match o with
  | Some v => ret v
  | None =>
      raise {| exn_class := "KeyError";
               exn_message := lit "'" ++ lit key ++ lit "'" |}
  end.

(** [str(n)] for an [int]. *)
Definition decimal (n : Z) : str :=
  lit (DecimalString.NilZero.string_of_int (Z.to_int n)).

(** [os.path.join(a, b)] *)
Definition path_join (a b : str) : str :=
  if startswith b (lit "/") then b
  else if (Nat.eqb (length a) 0) || endswith a (lit "/") then a ++ b
  else a ++ lit "/" ++ b.

Definition nl : str := [10].
Definition dq : str := [34].

Definition readme_content (task_title task_description : str) : str :=
  lit "# " ++ task_title ++ nl
  ++ nl
  ++ task_description ++ nl
  ++ nl
  ++ lit "## IBM Watsonx Integration" ++ nl
  ++ nl
  ++ lit "This project is set up with IBM Watsonx integration capabilities." ++ nl
  ++ nl
  ++ lit "### Features" ++ nl
  ++ lit "- AI-powered code generation" ++ nl
  ++ lit "- Intelligent project structure" ++ nl
  ++ lit "- Automated testing with AI assistance" ++ nl
  ++ lit "- Smart documentation generation" ++ nl
  ++ nl
  ++ lit "### Getting Started" ++ nl
  ++ lit "1. Install dependencies: `pip install -r requirements.txt`" ++ nl
  ++ lit "2. Set up IBM Watsonx credentials" ++ nl
  ++ lit "3. Run the application: `python main.py`" ++ nl
  ++ nl
  ++ lit "### IBM Watsonx Configuration" ++ nl
  ++ lit "Add your IBM Watsonx credentials to `.env`:" ++ nl
  ++ lit "```" ++ nl
  ++ lit "WATSONX_API_KEY=your_api_key" ++ nl
  ++ lit "WATSONX_PROJECT_ID=your_project_id" ++ nl
  ++ lit "```" ++ nl.

Definition requirements_content : str :=
  lit "# Core dependencies" ++ nl
  ++ lit "python-dotenv==1.0.0" ++ nl
  ++ lit "requests==2.31.0" ++ nl
  ++ lit "pydantic==2.5.0" ++ nl
  ++ nl
  ++ lit "# IBM Watsonx Integration" ++ nl
  ++ lit "ibm-watsonx-orchestrate" ++ nl
  ++ nl
  ++ lit "# Development" ++ nl
  ++ lit "pytest==7.4.3" ++ nl
  ++ lit "black==23.0.0" ++ nl
  ++ lit "flake8==6.0.0" ++ nl.

Definition main_content (task_title task_description : str) : str :=
  lit "#!/usr/bin/env python3" ++ nl
  ++ dq ++ dq ++ dq ++ nl
  ++ task_title ++ nl
  ++ nl
  ++ task_description ++ nl
  ++ dq ++ dq ++ dq ++ nl
  ++ nl
  ++ lit "import os" ++ nl
  ++ lit "from dotenv import load_dotenv" ++ nl
  ++ nl
  ++ lit "def main():" ++ nl
  ++ lit "    " ++ dq ++ dq ++ dq ++ lit "Main application entry point" ++ dq ++ dq ++ dq ++ nl
  ++ lit "    load_dotenv()" ++ nl
  ++ lit "    print(" ++ dq ++ lit "Application started successfully!" ++ dq ++ lit ")" ++ nl
  ++ lit "    print(" ++ dq ++ lit "IBM Watsonx integration ready." ++ dq ++ lit ")" ++ nl
  ++ nl
  ++ lit "if __name__ == " ++ dq ++ lit "__main__" ++ dq ++ lit ":" ++ nl
  ++ lit "    main()" ++ nl.

Definition env_content : str :=
  lit "# IBM Watsonx Configuration" ++ nl
  ++ lit "WATSONX_API_KEY=your_api_key_here" ++ nl
  ++ lit "WATSONX_PROJECT_ID=your_project_id_here" ++ nl
  ++ nl
  ++ lit "# Application Configuration" ++ nl
  ++ lit "DEBUG=True" ++ nl
  ++ lit "LOG_LEVEL=INFO" ++ nl.

Section Provision.
Context `{U : Unicode}.
Variable w : world.

Local Notation "'dolet' x ':=' m 'in' k" := (bind m (fun x => k))
  (at level 10, x name, m at level 100, k at level 200).
Local Notation "'doseq' m 'in' k" := (bind m (fun _ => k))
  (at level 10, m at level 100, k at level 200).

(** [subprocess.run] of a git command and [os.chdir], on traces. *)
Definition trace_host : Host trace :=
  {| git := fun t cwd args =>
       let t := t ++ [Git cwd args] in (t, git_outcome w t);
     chdir := fun t path =>
       let t := t ++ [Chdir path] in (t, chdir_outcome w t) |}.

(** [subprocess.run(args, cwd=cwd, check=True, ...)] *)
Definition run (cwd : option str) (args : list str) : M unit :=
  fun t =>
    match @git trace trace_host t cwd args with
    | (t, None) => (t, Ok tt)
    | (t, Some e) => (t, Raise e)
    end.

(** [with open(path, "w") as f: f.write(content)] *)
Definition write (path content : str) : M unit :=
  fun t =>
    let t := t ++ [WriteFile path content] in
    match write_outcome w t with
    | None => (t, Ok tt)
    | Some e => (t, Raise e)
    end.

Definition mkdtemp : M str :=
  fun t => let t := t ++ [Mkdtemp] in (t, mkdtemp_outcome w t).

(** [shutil.rmtree(path, ignore_errors=True)] *)
Definition rmtree (path : str) : trace -> trace :=
  fun t => t ++ [Rmtree path].

(** [try: m finally: shutil.rmtree(temp_dir, ignore_errors=True)] *)
Definition finally_rmtree {A : Type} (m : M A) (temp_dir : str) : M A :=
  fun t => match m t with (t, r) => (rmtree temp_dir t, r) end.

(** The argument [owner] is not used. *)
Definition _create_github_repo (token : str) (owner : option str)
    (name description : str) (private : bool) : M repo_data :=
  fun t =>
    let t := t ++ [PostRepo token name description private] in
    match post_outcome w t with
    | Raise e => (t, Raise e)
    | Ok response =>
        if (status_code response =? 201)%Z then (t, json response)
        else
          (t, Raise (Exception
                       (lit "Failed to create GitHub repository: "
                        ++ decimal (status_code response) ++ lit " - "
                        ++ text response)))
    end.

Definition _clone_repository (clone_url local_path token : str) : M unit :=
  let auth_url :=
    replace (lit "https://") (lit "https://" ++ token ++ lit "@") clone_url in
  catch (run None [lit "git"; lit "clone"; auth_url; local_path])
    (fun e =>
       if is_CalledProcessError e then
         raise (Exception (lit "Failed to clone repository: " ++ stderr w e))
       else raise e).

Definition _create_branch_structure (local_path project_type : str)
    (use_ibm_watsonx : bool) : M (list str) :=
  fun t =>
    @GithubAutomationSimple._create_branch_structure trace trace_host t
      local_path project_type use_ibm_watsonx.

Definition _create_ibm_watsonx_integration
    (local_path task_title task_description : str) : M unit :=
  write (path_join local_path (lit "README.md"))
    (readme_content task_title task_description).

(** The argument [project_type] is not used. *)
Definition _create_project_files
    (local_path project_type task_title task_description : str) : M unit :=
  doseq write (path_join local_path (lit "requirements.txt"))
          requirements_content in
  doseq write (path_join local_path (lit "main.py"))
          (main_content task_title task_description) in
  write (path_join local_path (lit ".env.example")) env_content.

Definition _push_changes (local_path clone_url token : str) : M unit :=
  catch
    (doseq run (Some local_path)
             [lit "git"; lit "config"; lit "user.name"; lit "Action Agent"] in
     doseq run (Some local_path)
             [lit "git"; lit "config"; lit "user.email";
              lit "action-agent@example.com"] in
     doseq run (Some local_path) [lit "git"; lit "add"; lit "."] in
     doseq run (Some local_path)
             [lit "git"; lit "commit"; lit "-m";
              lit "Initial setup with IBM Watsonx integration"] in
     let auth_url :=
       replace (lit "https://") (lit "https://" ++ token ++ lit "@")
         clone_url in
     run (Some local_path) [lit "git"; lit "push"; lit "--all"; auth_url])
    (fun e =>
       if is_CalledProcessError e then
         raise (Exception (lit "Failed to push changes: " ++ stderr w e))
       else raise e).

(** The body of the outer [try] block.  The arguments [team_members] and
    [organization] and the variable [owner] have no effect. *)
Definition provision (env : environment)
    (task_title task_description project_type : str)
    (team_members : list str) (use_ibm_watsonx : bool)
    (organization : option str) : M GitHubRepo :=
  let github_token := GITHUB_TOKEN env in
  let github_username := GITHUB_USERNAME env in
  if negb (truthy github_token) then
    raise {| exn_class := "ValueError";
             exn_message :=
               lit "GitHub token not configured. Please set GITHUB_TOKEN environment variable." |}
  else
    let github_token := default [] github_token in
    let repo_name := GithubAutomationSimple._generate_repo_name task_title in
    let owner := if truthy organization then organization
                 else github_username in
    dolet repo_data :=
      _create_github_repo github_token owner repo_name task_description
        true in
    dolet temp_dir := mkdtemp in
    dolet branches :=
      finally_rmtree
        (dolet clone_url := item "clone_url" (rd_clone_url repo_data) in
         doseq _clone_repository clone_url temp_dir github_token in
         dolet branches :=
           _create_branch_structure temp_dir project_type use_ibm_watsonx in
         doseq (if use_ibm_watsonx
                then _create_ibm_watsonx_integration temp_dir task_title
                       task_description
                else ret tt) in
         doseq _create_project_files temp_dir project_type task_title
                 task_description in
         dolet clone_url := item "clone_url" (rd_clone_url repo_data) in
         doseq _push_changes temp_dir clone_url github_token in
         ret branches)
        temp_dir in
    dolet name := item "name" (rd_name repo_data) in
    dolet description := item "description" (rd_description repo_data) in
    dolet url := item "html_url" (rd_html_url repo_data) in
    dolet default_branch :=
      item "default_branch" (rd_default_branch repo_data) in
    ret {| name := name; description := description; url := url;
           branches := branches; default_branch := default_branch |}.

Definition create_github_repository_for_task (env : environment)
    (task_title task_description project_type : str)
    (team_members : list str) (use_ibm_watsonx : bool)
    (organization : option str) : M GitHubRepo :=
  catch
    (provision env task_title task_description project_type team_members
       use_ibm_watsonx organization)
    (fun e =>
       raise (Exception
                (lit "Failed to create GitHub repository: "
                 ++ exn_message e))).

End Provision.

End Provisioning.

(** ** advanced_automation.py: create_subtasks_automatically *)

(** [int(s)]: the number or the [ValueError].  A string of ASCII digits
    that is not empty is a number. *)
Class PyInt := {
  int : str -> result Z;
  int_digits :
    forall s, s <> [] -> List.forallb is_ascii_digit s = true ->
      exists n, int s = Ok n
}.

Module CreateSubtasks.

Import AdvancedAutomationPlan.

(** The [issue_dict] given to [jira.create_issue]; [timetracking] holds
    the original and the remaining estimate. *)
Record issue_fields := {
  project : str;
  issue_summary : str;
  issue_description : str;
  issuetype : str;
  issue_priority : str;
  parent : str;
  status : str;
  timetracking : option (str * str)
}.

(** The requests to create an issue made so far. *)
Definition trace := list issue_fields.

(** The client: the outcome of the request that a trace ends with, the
    key of the new issue or an exception. *)
Definition Jira := trace -> result str.

Record environment := {
  credentials_set : bool;
  connect : result Jira
}.

Section Create.
Context `{I : PyInt}.

(** The body of the loop, up to the request: the fields, or the exception
    of the conversion of the estimate. *)
Definition fields_for (parent_ticket_key project_key : str)
    (subtask : SubtaskInfo) : result issue_fields :=
  let issue_dict timetracking :=
    {| project := project_key;
       issue_summary := summary subtask;
       issue_description := description subtask;
       issuetype := issue_type subtask;
       issue_priority := priority subtask;
       parent := parent_ticket_key;
       status := lit "To Do";
       timetracking := timetracking |} in
  if truthy (Some (estimated_time subtask)) then
    match int (replace (lit "h") [] (estimated_time subtask)) with
    | Raise e => Raise e
    | Ok time_seconds =>
        Ok (issue_dict
              (Some (estimated_time subtask, estimated_time subtask)))
    end
  else Ok (issue_dict None).

(** The loop over the subtasks, from the trace [t] and the keys
    [created_keys] on. *)
Fixpoint create_loop (jira : Jira) (parent_ticket_key project_key : str)
    (subtasks : list SubtaskInfo) (t : trace) (created_keys : list str)
    : trace * result (list str) :=
  match subtasks with
  | [] => (t, Ok created_keys)
  | subtask :: rest =>
      match fields_for parent_ticket_key project_key subtask with
      | Raise e => (t, Raise e)
      | Ok issue_dict =>
          let t := t ++ [issue_dict] in
          match jira t with
          | Raise e => (t, Raise e)
          | Ok key =>
              create_loop jira parent_ticket_key project_key rest t
                (created_keys ++ [key])
          end
      end
  end.

Definition create_body (env : environment) (parent_ticket_key : str)
    (subtasks : list SubtaskInfo) (project_key : str)
    : trace * result (list str) :=
  if negb (credentials_set env) then
    ([], Raise {| exn_class := "ValueError";
                  exn_message :=
                    lit "Jira credentials not properly configured" |})
  else
    match connect env with
    | Raise e => ([], Raise e)
    | Ok jira =>
        create_loop jira parent_ticket_key project_key subtasks [] []
    end.

(** The requests made and the result. *)
Definition create_subtasks_automatically (env : environment)
    (parent_ticket_key : str) (subtasks : list SubtaskInfo)
    (project_key : str) : trace * result (list str) :=
  match create_body env parent_ticket_key subtasks project_key with
  | (t, Ok created_keys) => (t, Ok created_keys)
  | (t, Raise e) =>
      (t, Raise {| exn_class := "Exception";
                   exn_message := lit "Failed to create subtasks: "
                                  ++ exn_message e |})
  end.

End Create.

End CreateSubtasks.

(** ** An instance of the Unicode interface

    The tables restricted to ASCII: every code point from 128 on is left
    unchanged by [lower] and is neither a letter nor whitespace. *)
Definition ascii_tables : Unicode.
Proof.
  refine {| lower := List.map ascii_lower;
            isalpha := is_ascii_letter;
            isspace := is_ascii_space |}.
  - reflexivity.
  - intros s c Hin _. apply in_map_iff in Hin as (x & <- & Hx).
    unfold ascii_lower. destruct (is_ascii_upper x) eqn:Hup.
    + left. unfold is_ascii_upper, is_ascii_lower in *.
      apply andb_true_iff in Hup as [H1 H2].
      apply N.leb_le in H1, H2.
      apply andb_true_iff; split; apply N.leb_le; lia.
    + right. now split.
  - reflexivity.
  - reflexivity.
Defined.

(** A host on which every command succeeds; the state counts the commands
    run. *)
Definition host_always_ok : Host nat :=
  {| git := fun n _ _ => (S n, None);
     chdir := fun n _ => (S n, None) |}.

(** ** Vocabulary of the statements

    What the theorems below speak of: the tests of the triage as one
    predicate, the score as a formula, the members the scoring loop scans,
    the character class of a repository name, and the inputs of the
    examples. *)

Section Vocabulary.
Context `{U : Unicode}.
Import SlackListener AssignTeamMember GithubAutomationSimple.

(** The event read by the function: [event_data.get("event", {})]. *)
Definition event_of (event_data : event_payload) : slack_event :=
  default empty_event (ed_event event_data).

(** The sender tests of the two "bot" blocks. *)
Definition from_bot (event : slack_event) : bool :=
  truthy (ev_bot_id event)
  || startswith (get_or_empty (ev_user event)) (lit "B")
  || opt_eqb (ev_user event) bot_user_id.

(** All five tests pass. *)
Definition accepts (event_data : event_payload)
    (processed_messages : gset (option str)) : bool :=
  let event := event_of event_data in
  opt_eqb (ev_type event) (lit "message")
  && negb (from_bot event)
  && negb (bool_decide (message_id event ∈ processed_messages))
  && has_mention (get_or_empty (ev_text event))
  && has_trigger (get_or_empty (ev_text event)).

(** The message ids for which the listener starts processing, in order:
    one per call that returns [True]. *)
Fixpoint accepted_ids (events : list event_payload)
    (processed_messages : gset (option str)) : list (option str) :=
  match events with
  | [] => []
  | e :: rest =>
      let r := should_process_message e processed_messages in
      if r.1 then message_id (event_of e) :: accepted_ids rest r.2
      else accepted_ids rest r.2
  end.

(** The role bonus as the sum of the rows of the table that apply. *)
Definition roleBonus (priority issue_type role : str) : Z :=
  let high := list_in priority [lit "Highest"; lit "High"] in
  ((if high && str_in (lit "Senior") role then 5 else 0)
   + (if high && str_in (lit "QA") role && str_eqb issue_type (lit "Bug")
      then 3 else 0)
   + (if str_eqb issue_type (lit "Bug") && str_in (lit "QA") role
      then 4 else 0)
   + (if str_eqb issue_type (lit "Story") && str_in (lit "Developer") role
      then 3 else 0)
   + (if str_eqb issue_type (lit "Epic") && str_in (lit "Senior") role
      then 8 else 0)
   + (if str_eqb issue_type (lit "Task") && str_in (lit "Developer") role
      then 3 else 0))%Z.

Definition availabilityBonus (availability : str) : Z :=
  if str_eqb availability (lit "Available") then 2%Z else 0%Z.

(** The score as the formula words it. *)
Definition score_formula (member : member_info) (issue_type priority : str)
    (components labels : list str) : Z :=
  ((10 - Z.min (current_workload member) 10) * 3
   + 2 * (count_matches member components + count_matches member labels)
   + roleBonus priority issue_type (role member)
   + availabilityBonus (availability member))%Z.

(** The members scored by the loop: the first entry of each display name,
    in the order of the dictionary. *)
Fixpoint candidates_from (seen : list str) (team_members : roster)
    : list member_info :=
  match team_members with
  | [] => []
  | (_, member) :: rest =>
      if list_in (name member) seen then candidates_from seen rest
      else member :: candidates_from (seen ++ [name member]) rest
  end.

Definition candidates (team_members : roster) : list member_info :=
  candidates_from [] team_members.

(** The account ids filed under a display name, in dictionary order. *)
Definition usernames_of (member_name : str) (team_members : roster)
    : list str :=
  List.map fst
    (List.filter (fun e => str_eqb (name e.2) member_name) team_members).

(** Keys and member data of [unique_members], without the id lists. *)
Definition entries (unique : list (str * member_group))
    : list (str * member_info) :=
  List.map (fun e => (e.1, info e.2)) unique.

(** One round of the grouping loop. *)
Definition group_step (unique : list (str * member_group))
    (e : str * member_info) : list (str * member_group) :=
  let '(username, member) := e in
  group_add (name member) username member unique.

(** The first entry of the dictionary under a display name. *)
Definition first_named (member_name : str) (team_members : roster)
    : option (str * member_info) :=
  List.find (fun e => str_eqb (name e.2) member_name) team_members.

(** One round of the scoring loop, on a key and the member data. *)
Definition scan_step (sc : member_info -> Z) (best : option str * Z)
    (e : str * member_info) : option str * Z :=
  if (sc e.2 >? best.2)%Z then (Some e.1, sc e.2) else best.

(** The name before the test on its first character. *)
Definition core (task_title : str) : str :=
  let name := strip_hyphen (sub_spaces false
                              (List.filter kept (lower task_title))) in
  if (50 <? length name)%nat then rstrip_hyphen (firstn 50 name) else name.

End Vocabulary.

(** The characters of a slug: [a-z], [0-9] and the hyphen. *)
Definition slug_char (c : N) : bool :=
  is_ascii_lower c || is_ascii_digit c || (c =? hyphen).

(** Two hyphens in a row somewhere in the string. *)
Fixpoint double_hyphen (s : str) : bool :=
  match s with
  | c1 :: (c2 :: _) as s' =>
      ((c1 =? hyphen) && (c2 =? hyphen)) || double_hyphen s'
  | _ => false
  end.

(** Two deliveries of one accepted message, and a message without mention. *)
Definition bug_report : SlackListener.event_payload :=
  {| SlackListener.ed_event := Some
       {| SlackListener.ev_type := Some (lit "message");
          SlackListener.ev_bot_id := None;
          SlackListener.ev_user := Some (lit "U123");
          SlackListener.ev_client_msg_id := Some (lit "m-1");
          SlackListener.ev_ts := Some (lit "1700000000.000100");
          SlackListener.ev_text :=
            Some (lit "<@U09ADLT6360> we have a critical bug in login, please fix") |} |}.

Definition chatter : SlackListener.event_payload :=
  {| SlackListener.ed_event := Some
       {| SlackListener.ev_type := Some (lit "message");
          SlackListener.ev_bot_id := None;
          SlackListener.ev_user := Some (lit "U123");
          SlackListener.ev_client_msg_id := None;
          SlackListener.ev_ts := Some (lit "1700000000.000200");
          SlackListener.ev_text := Some (lit "there is a bug in login") |} |}.

(** Two Jira servers that find no open issue: one knows every account, the
    other only the account of the default member. *)
Definition jira_all_known : AssignTeamMember.Jira :=
  {| AssignTeamMember.search_issues := fun _ _ => Some 0%nat;
     AssignTeamMember.user := fun _ => true |}.

Definition jira_default_only : AssignTeamMember.Jira :=
  {| AssignTeamMember.search_issues := fun _ _ => Some 0%nat;
     AssignTeamMember.user :=
       fun username => str_eqb username AssignTeamMember.fallback_username |}.

Definition configured (jira : AssignTeamMember.Jira)
    : AssignTeamMember.environment :=
  {| AssignTeamMember.credentials_set := true;
     AssignTeamMember.connect := Ok jira |}.

(** A roster with an entry whose display name is empty. *)
Definition roster_with_nameless : AssignTeamMember.roster :=
  [ (lit "id-1",
     AssignTeamMember.set_workload
       (AssignTeamMember.mk_member "Ada" "Developer" [lit "frontend"]) 5);
    (lit "id-2", AssignTeamMember.mk_member "" "Developer" [lit "frontend"]) ].

(** The two-member roster of C10. *)
Definition generalist : AssignTeamMember.member_info :=
  AssignTeamMember.mk_member "Ada" "Developer" [lit "frontend"].
Definition specialist : AssignTeamMember.member_info :=
  AssignTeamMember.mk_member "Bea" "Developer" [lit "backend"].

(** The event of the listener as the tool of [slack_event_handler.py] reads
    it, for a channel. *)
Definition tool_view (event : SlackListener.slack_event)
    (channel : option str) : SlackEventHandler.event_fields :=
  {| SlackEventHandler.f_type := SlackListener.ev_type event;
     SlackEventHandler.f_channel := channel;
     SlackEventHandler.f_user := SlackListener.ev_user event;
     SlackEventHandler.f_text := SlackListener.ev_text event;
     SlackEventHandler.f_ts := SlackListener.ev_ts event;
     SlackEventHandler.f_thread_ts := None |}.

(** A message with every field the tool needs, from a person. *)
Definition tool_message : SlackEventHandler.event_fields :=
  {| SlackEventHandler.f_type := Some (lit "message");
     SlackEventHandler.f_channel := Some (lit "C042");
     SlackEventHandler.f_user := Some (lit "U123");
     SlackEventHandler.f_text := Some (lit "The login page is broken");
     SlackEventHandler.f_ts := Some (lit "1700000000.000300");
     SlackEventHandler.f_thread_ts := None |}.

(** [isalnum] restricted to ASCII. *)
Definition ascii_alnum : UnicodeAlnum :=
  {| isalnum := fun c => is_ascii_letter c || is_ascii_digit c;
     isalnum_ascii := fun c _ => eq_refl |}.

(** Counting the actions of one kind in a trace. *)
Definition is_post (a : SlackListenerFlow.action) : bool :=
  match a with SlackListenerFlow.PostMessage _ _ _ => true | _ => false end.
Definition is_run (a : SlackListenerFlow.action) : bool :=
  match a with SlackListenerFlow.Run _ => true | _ => false end.
Definition is_ticket (a : SlackListenerFlow.action) : bool :=
  match a with SlackListenerFlow.CreateTicket _ _ => true | _ => false end.
Definition is_response (a : SlackListenerFlow.action) : bool :=
  match a with SlackListenerFlow.Respond _ => true | _ => false end.

Definition count (kind : SlackListenerFlow.action -> bool)
    (t : SlackListenerFlow.trace) : nat :=
  length (List.filter kind t).

(** Services on which every call succeeds, the agent prints nothing and a
    ticket without repository is created. *)
Definition quiet_services : SlackListenerFlow.services :=
  {| SlackListenerFlow.posted := fun _ => None;
     SlackListenerFlow.ran := fun _ =>
       Ok {| SlackListenerFlow.returncode := 0%Z;
             SlackListenerFlow.stdout := lit "  ";
             SlackListenerFlow.stderr := [] |};
     SlackListenerFlow.created := fun _ =>
       Some {| SlackListenerFlow.ti_key := lit "SMS-1";
               SlackListenerFlow.ti_url :=
                 lit "https://palcube.atlassian.net/browse/SMS-1";
               SlackListenerFlow.ti_summary := lit "Action Item: bug...";
               SlackListenerFlow.ti_repository := None |};
     SlackListenerFlow.responded := fun _ => None |}.

(** The same, with an agent that answers. *)
Definition answering_services : SlackListenerFlow.services :=
  {| SlackListenerFlow.posted := fun _ => None;
     SlackListenerFlow.ran := fun _ =>
       Ok {| SlackListenerFlow.returncode := 0%Z;
             SlackListenerFlow.stdout := lit " Ticket SMS-2 created ";
             SlackListenerFlow.stderr := [] |};
     SlackListenerFlow.created := SlackListenerFlow.created quiet_services;
     SlackListenerFlow.responded := fun _ => None |}.

Definition bug_request : SlackListenerFlow.request :=
  {| SlackListenerFlow.req_type := lit "events_api";
     SlackListenerFlow.req_payload := bug_report;
     SlackListenerFlow.req_channel := Some (lit "C042");
     SlackListenerFlow.envelope_id := lit "env-1" |}.

(** [req.type == "events_api"] *)
Definition is_events_api (req : SlackListenerFlow.request) : bool :=
  str_eqb (SlackListenerFlow.req_type req) (lit "events_api").

(** An action of the provisioning that stays inside the directory [d]: a
    git command run in [d], the clone into [d], or one of the four files
    written in [d], whose path is [d] followed by the name of the file,
    with a slash between them unless [d] is empty or ends with one. *)
Definition inside (d : str) (a : Provisioning.action) : Prop :=
  match a with
  | Provisioning.Git (Some cwd) _ => cwd = d
  | Provisioning.Git None args =>
      exists url, args = [lit "git"; lit "clone"; url; d]
  | Provisioning.WriteFile path _ =>
      exists name,
        In name [lit "README.md"; lit "requirements.txt"; lit "main.py";
                 lit ".env.example"]
        /\ (path = d ++ lit "/" ++ name
            \/ (path = d ++ name /\ (d = [] \/ exists d', d = d' ++ lit "/")))
  | _ => False
  end.

(** A computation that only adds actions inside [d] to the trace. *)
Definition within (d : str) {A : Type} (m : Provisioning.M A) : Prop :=
  forall t, exists work,
    (m t).1 = t ++ work /\ List.Forall (inside d) work.

(** A world in which everything succeeds. *)
Definition created_repo : Provisioning.repo_data :=
  {| Provisioning.rd_clone_url :=
       Some (lit "https://github.com/palcube/fix-login-bug.git");
     Provisioning.rd_name := Some (lit "fix-login-bug");
     Provisioning.rd_description := Some (lit "Login fails");
     Provisioning.rd_html_url :=
       Some (lit "https://github.com/palcube/fix-login-bug");
     Provisioning.rd_default_branch := Some (lit "main") |}.

Definition world_all_ok : Provisioning.world :=
  {| Provisioning.post_outcome := fun _ =>
       Ok {| Provisioning.status_code := 201%Z;
             Provisioning.text := [];
             Provisioning.json := Ok created_repo |};
     Provisioning.mkdtemp_outcome := fun _ => Ok (lit "/tmp/tmpab12");
     Provisioning.git_outcome := fun _ => None;
     Provisioning.chdir_outcome := fun _ => None;
     Provisioning.write_outcome := fun _ => None;
     Provisioning.stderr := fun _ => [] |}.

(** A world in which GitHub refuses the repository. *)
Definition world_name_taken : Provisioning.world :=
  {| Provisioning.post_outcome := fun _ =>
       Ok {| Provisioning.status_code := 422%Z;
             Provisioning.text := lit "name already exists on this account";
             Provisioning.json := Ok created_repo |};
     Provisioning.mkdtemp_outcome := fun _ => Ok (lit "/tmp/tmpab12");
     Provisioning.git_outcome := fun _ => None;
     Provisioning.chdir_outcome := fun _ => None;
     Provisioning.write_outcome := fun _ => None;
     Provisioning.stderr := fun _ => [] |}.

Definition github_env : Provisioning.environment :=
  {| Provisioning.GITHUB_TOKEN := Some (lit "ghp_token");
     Provisioning.GITHUB_USERNAME := Some (lit "palcube") |}.

(** The files written along a trace, with their contents, in order. *)
Definition files_written (t : Provisioning.trace) : list (str * str) :=
  List.flat_map
    (fun a =>
       match a with
       | Provisioning.WriteFile path content => [(path, content)]
       | _ => []
       end) t.

(** The URL given to git: the token is put in front of the host. *)
Definition auth_url (token clone_url : str) : str :=
  replace (lit "https://") (lit "https://" ++ token ++ lit "@") clone_url.

(** [int] restricted to strings of ASCII digits. *)
Fixpoint digits_value (acc : Z) (s : str) : Z :=
  match s with
  | [] => acc
  | c :: s' => digits_value (10 * acc + Z.of_N (c - 48)) s'
  end.

Definition ascii_int_of (s : str) : result Z :=
  match s with
  | [] =>
      Raise {| exn_class := "ValueError";
               exn_message := lit "invalid literal for int() with base 10" |}
  | _ :: _ =>
      if List.forallb is_ascii_digit s then Ok (digits_value 0 s)
      else
        Raise {| exn_class := "ValueError";
                 exn_message :=
                   lit "invalid literal for int() with base 10" |}
  end.

Definition ascii_int : PyInt.
Proof.
  refine {| int := ascii_int_of |}.
  intros s Hne Hd. destruct s as [|c s]; [easy|].
  unfold ascii_int_of. rewrite Hd. now eexists.
Defined.

(** A client that creates every issue, numbering the keys. *)
Definition jira_numbering : CreateSubtasks.Jira :=
  fun t => Ok (lit "SMS-" ++ List.repeat 49 (length t)).

Definition subtasks_env : CreateSubtasks.environment :=
  {| CreateSubtasks.credentials_set := true;
     CreateSubtasks.connect := Ok jira_numbering |}.

(** ** The slug, step by step

    The derivation of a repository name in the words of the claim as
    amended, one definition per step, to be compared with
    [_generate_repo_name] of [github_automation_simple.py]. *)

Module SlugSteps.

(** Hyphens in front are dropped. *)
Fixpoint drop_hyphens (s : str) : str :=
  match s with
  | c :: s' => if c =? hyphen then drop_hyphens s' else s
  | [] => []
  end.

(** "strips leading and trailing '-'": the hyphens in front are dropped,
    and those in front of the reversed string. *)
Definition trim_hyphens (s : str) : str :=
  rev (drop_hyphens (rev (drop_hyphens s))).

(** "cuts a result longer than 50 characters to its first 50 and drops the
    hyphens the cut leaves at the end" *)
Definition cut_at_50 (s : str) : str :=
  if (50 <? length s)%nat then rev (drop_hyphens (rev (firstn 50 s)))
  else s.

(** "if the result does not start with a letter, prefixes repo-; an empty
    result becomes new-project" *)
Definition start_with_letter (s : str) : str :=
  match s with
  | [] => lit "new-project"
  | c :: _ => if is_ascii_lower c then s else lit "repo-" ++ s
  end.

Section Steps.
Context `{U : Unicode}.

(** "strips characters other than ASCII letters, digits, whitespace and
    '-'" *)
Definition strip_others (s : str) : str :=
  List.filter
    (fun c =>
       is_ascii_letter c || is_ascii_digit c || isspace c || (c =? hyphen))
    s.

(** "replaces each run of whitespace by a single '-'": a whitespace
    character that is followed by whitespace is dropped, the last one of a
    run becomes the hyphen. *)
Fixpoint runs_to_hyphens (s : str) : str :=
  match s with
  | [] => []
  | c :: s' =>
      if isspace c then
        match s' with
        | c' :: _ =>
            if isspace c' then runs_to_hyphens s'
            else hyphen :: runs_to_hyphens s'
        | [] => [hyphen]
        end
      else c :: runs_to_hyphens s'
  end.

Definition slug (title : str) : str :=
  start_with_letter
    (cut_at_50
       (trim_hyphens (runs_to_hyphens (strip_others (lower title))))).

End Steps.

End SlugSteps.

(** The branch that a command creates when it succeeds:
    [git checkout -b name]. *)
Definition branch_of (a : Provisioning.action) : option str :=
  match a with
  | Provisioning.Git _ [g; c; b; name] =>
      if str_eqb g (lit "git") && str_eqb c (lit "checkout")
         && str_eqb b (lit "-b")
      then Some name else None
  | _ => None
  end.

(** The branches created by the actions [added], done after the trace [t]
    in the world [w]: those of the commands that succeeded, in order. *)
Fixpoint branches_created (w : Provisioning.world)
    (t added : Provisioning.trace) : list str :=
  match added with
  | [] => []
  | a :: rest =>
      let t := t ++ [a] in
      match branch_of a, Provisioning.git_outcome w t with
      | Some name, None => name :: branches_created w t rest
      | _, _ => branches_created w t rest
      end
  end.

(** A world in which [git checkout -b develop] fails and everything else
    succeeds. *)
Definition world_develop_exists : Provisioning.world :=
  {| Provisioning.post_outcome := Provisioning.post_outcome world_all_ok;
     Provisioning.mkdtemp_outcome := Provisioning.mkdtemp_outcome world_all_ok;
     Provisioning.git_outcome := fun t =>
       match List.last t Provisioning.Mkdtemp with
       | Provisioning.Git _ [_; _; _; name] =>
           if str_eqb name (lit "develop") then
             Some {| exn_class := "CalledProcessError";
                     exn_message :=
                       lit "Command returned non-zero exit status 128." |}
           else None
       | _ => None
       end;
     Provisioning.chdir_outcome := fun _ => None;
     Provisioning.write_outcome := fun _ => None;
     Provisioning.stderr := fun _ =>
       lit "fatal: a branch named 'develop' already exists" |}.

(** A tool object whose call runs the decorated function. *)
Definition tool_runs_function `{U : Unicode}
    (env : AssignTeamMember.environment) : CreateJiraTicket.tool_call :=
  fun issue_type priority components labels project_key =>
    match AssignTeamMember.assign_team_member env issue_type priority
            components labels project_key with
    | Ok team_member => Ok (AssignTeamMember.tm_username team_member)
    | Raise e => Raise e
    end.

(** ** Facts about the string operations *)

Lemma str_eqb_eq (a b : str) : str_eqb a b = true <-> a = b.
Proof.
  revert b. induction a as [|x a IH]; intros [|y b]; simpl; try easy.
  rewrite andb_true_iff, N.eqb_eq, IH. split.
  - now intros [-> ->].
  - intros [= -> ->]. easy.
Qed.

Lemma str_eqb_refl (a : str) : str_eqb a a = true.
Proof. now apply str_eqb_eq. Qed.

Lemma str_eqb_neq (a b : str) : str_eqb a b = false <-> a <> b.
Proof.
  rewrite <- str_eqb_eq. destruct (str_eqb a b); split; congruence.
Qed.

Lemma opt_eqb_eq (o : option str) (s : str) :
  opt_eqb o s = true <-> o = Some s.
Proof.
  destruct o as [x|]; simpl; [|easy].
  rewrite str_eqb_eq. split; congruence.
Qed.

(** ** Substrings *)

Lemma startswith_iff (s prefix : str) :
  startswith s prefix = true <-> exists t, s = prefix ++ t.
Proof.
  revert s. induction prefix as [|x prefix IH]; intros s.
  - split; [intros _; now exists s|intros _; now destruct s].
  - destruct s as [|c s]; cbn [startswith].
    + split; [discriminate|]. intros [t Ht]. discriminate.
    + rewrite andb_true_iff, N.eqb_eq, IH. split.
      * intros [-> [t ->]]. now exists t.
      * intros [t [= -> ->]]. split; [reflexivity|now exists t].
Qed.

Lemma str_in_iff (needle hay : str) :
  str_in needle hay = true <-> exists p s, hay = p ++ needle ++ s.
Proof.
  induction hay as [|c hay IH]; cbn [str_in].
  - rewrite orb_false_r, startswith_iff. split.
    + intros [t Ht]. now exists [], t.
    + intros (p & s & H). destruct p; [|discriminate]. now exists s.
  - rewrite orb_true_iff, startswith_iff, IH. split.
    + intros [[t Ht]|(p & s & ->)].
      * now exists [], t.
      * now exists (c :: p), s.
    + intros ([|x p] & s & H).
      * left. now exists s.
      * right. injection H as -> ->. now exists p, s.
Qed.

Lemma str_in_trans (a b c : str) :
  str_in a b = true -> str_in b c = true -> str_in a c = true.
Proof.
  rewrite !str_in_iff. intros (p & s & ->) (p' & s' & ->).
  exists (p' ++ p), (s ++ s'). now rewrite <- !app_assoc.
Qed.

(** [lower] on a string of ASCII characters, with the side condition as a
    computation. *)
Lemma lower_all_ascii `{U : Unicode} (s : str) :
  List.forallb (fun c => c <? 128) s = true ->
  lower s = List.map ascii_lower s.
Proof.
  intros H. apply lower_ascii, List.Forall_forall. intros c Hc.
  rewrite forallb_forall in H. apply N.ltb_lt. now apply H.
Qed.

(** ** Message triage: what [should_process_message] decides *)

Section TriageFacts.
Context `{U : Unicode}.
Import SlackListener.

Lemma should_process_message_accepts event_data processed :
  should_process_message event_data processed =
  if accepts event_data processed then
    (true, {[ message_id (event_of event_data) ]} ∪ processed)
  else (false, processed).
Proof.
  unfold should_process_message, accepts, from_bot, event_of.
  destruct (opt_eqb _ (lit "message")); simpl; [|reflexivity].
  destruct (truthy _); simpl; [reflexivity|].
  destruct (startswith _ _); simpl; [reflexivity|].
  destruct (opt_eqb _ bot_user_id); simpl; [reflexivity|].
  destruct (bool_decide _); simpl; [reflexivity|].
  destruct (has_mention _); simpl; [|reflexivity].
  destruct (has_trigger _); reflexivity.
Qed.

Lemma should_process_message_grows event_data processed :
  processed ⊆ (should_process_message event_data processed).2.
Proof.
  rewrite should_process_message_accepts.
  destruct (accepts _ _); simpl; set_solver.
Qed.

Lemma should_process_message_records event_data processed :
  (should_process_message event_data processed).1 = true ->
  message_id (event_of event_data)
    ∈ (should_process_message event_data processed).2.
Proof.
  rewrite should_process_message_accepts.
  destruct (accepts _ _); simpl; [set_solver|discriminate].
Qed.

Lemma should_process_message_duplicate event_data processed :
  message_id (event_of event_data) ∈ processed ->
  should_process_message event_data processed = (false, processed).
Proof.
  intros Hin. rewrite should_process_message_accepts.
  unfold accepts. rewrite (bool_decide_eq_true_2 _ Hin). simpl.
  now rewrite !andb_false_r.
Qed.

Lemma should_process_message_rejects event_data processed :
  (should_process_message event_data processed).1 = false ->
  (should_process_message event_data processed).2 = processed.
Proof.
  rewrite should_process_message_accepts.
  destruct (accepts _ _); simpl; [discriminate|reflexivity].
Qed.

Lemma handle_events_cons e rest processed :
  handle_events (e :: rest) processed =
  ((should_process_message e processed).1
     :: (handle_events rest (should_process_message e processed).2).1,
   (handle_events rest (should_process_message e processed).2).2).
Proof.
  simpl. destruct (should_process_message e processed) as [b s1].
  simpl. destruct (handle_events rest s1). reflexivity.
Qed.

(** Once an id is in the set, every later event with that id is refused. *)
Lemma handle_events_known events :
  forall processed j ej,
    events !! j = Some ej ->
    message_id (event_of ej) ∈ processed ->
    (handle_events events processed).1 !! j = Some false.
Proof.
  induction events as [|e rest IH]; intros processed j ej Hj Hin.
  - discriminate.
  - rewrite handle_events_cons. destruct j as [|j]; simpl in *.
    + injection Hj as ->.
      now rewrite (should_process_message_duplicate _ _ Hin).
    + apply (IH _ _ ej Hj).
      now apply should_process_message_grows.
Qed.

End TriageFacts.

Section TriageClaims.
Context `{U : Unicode}.
Import SlackListener.

(** C1 (at-most-once triggering).  Over any sequence of events handled in
    order on the shared set, and from any initial set: if the call for the
    event at position [i] returns [True], the call for every later event
    carrying the same message id returns [False].  A message id is therefore
    accepted at most once. *)
Theorem C1_at_most_once (events : list event_payload)
    (processed : gset (option str)) (i j : nat) (ei ej : event_payload) :
  events !! i = Some ei ->
  events !! j = Some ej ->
  (i < j)%nat ->
  message_id (event_of ei) = message_id (event_of ej) ->
  (handle_events events processed).1 !! i = Some true ->
  (handle_events events processed).1 !! j = Some false.
Proof.
  revert processed i j.
  induction events as [|e rest IH]; intros processed i j Hi Hj Hlt Hid Hacc.
  - discriminate.
  - rewrite handle_events_cons in Hacc |- *.
    destruct j as [|j]; [lia|]. destruct i as [|i]; simpl in *.
    + injection Hi as ->. injection Hacc as Hacc.
      apply (handle_events_known _ _ _ ej Hj).
      rewrite <- Hid. now apply should_process_message_records.
    + apply (IH _ i j Hi Hj); [lia|assumption|assumption].
Qed.

(** No id that is already in the set is accepted again. *)
Lemma accepted_ids_fresh (events : list event_payload) :
  forall processed id,
    id ∈ processed -> ~ In id (accepted_ids events processed).
Proof.
  induction events as [|e rest IH]; intros processed id Hin; [easy|].
  cbn [accepted_ids].
  pose proof (should_process_message_grows e processed) as Hgrow.
  destruct (should_process_message e processed).1 eqn:Hacc.
  - intros [Heq|Hrest].
    + subst id.
      rewrite (should_process_message_duplicate _ _ Hin) in Hacc.
      discriminate Hacc.
    + apply (IH _ id (Hgrow _ Hin)). exact Hrest.
  - apply IH. now apply Hgrow.
Qed.

(** Ticket creation is started at most once per message id. *)
Lemma accepted_ids_NoDup (events : list event_payload) :
  forall processed, NoDup (accepted_ids events processed).
Proof.
  induction events as [|e rest IH]; intros processed; [constructor|].
  cbn [accepted_ids].
  destruct (should_process_message e processed).1 eqn:Hacc; [|apply IH].
  constructor; [|apply IH].
  rewrite list_elem_of_In. apply accepted_ids_fresh.
  now apply should_process_message_records.
Qed.

(** The same message submitted twice in a row: when the first call returns
    [True], the second returns [False] and adds nothing. *)
Lemma same_message_twice (event_data : event_payload)
    (processed : gset (option str)) :
  (should_process_message event_data processed).1 = true ->
  should_process_message event_data
    (should_process_message event_data processed).2
  = (false, (should_process_message event_data processed).2).
Proof.
  intros Hacc. apply should_process_message_duplicate.
  now apply should_process_message_records.
Qed.

(** C2 (the triage rule).  [should_process_message] returns [True] exactly
    when the event has type "message", the sender is no bot (no [bot_id], a
    user id that neither starts with 'B' nor is the bot's own id
    U09ADLT6360), the message id is not in the processed set, the text
    contains a mention of the agent, and the lower-cased text contains one
    of the 28 trigger keywords.  A mention is one of three strings found
    anywhere in the text: the display name "@Action Agent", the platform
    form "<@U09ADLT6360>", or the id "U09ADLT6360" by itself.  A string is
    contained when it occurs as a run of consecutive characters.  The set
    after the call is the set before it plus the message id when the result
    is [True], and the set before it otherwise.  Every test is total, so
    the order of the tests does not show in the result. *)
Theorem C2_triage_rule (event_data : event_payload)
    (processed : gset (option str)) :
  let event := event_of event_data in
  let text := get_or_empty (ev_text event) in
  let result := should_process_message event_data processed in
  let contains (needle hay : str) := exists p s, hay = p ++ needle ++ s in
  let mention :=
    contains (lit "@Action Agent") text
    \/ contains (lit "<@U09ADLT6360>") text
    \/ contains (lit "U09ADLT6360") text in
  let keywords :=
    [ lit "bug"; lit "issue"; lit "problem"; lit "error"; lit "broken";
      lit "fix"; lit "feature"; lit "request"; lit "task"; lit "todo";
      lit "action"; lit "ticket"; lit "jira"; lit "urgent"; lit "critical";
      lit "blocker"; lit "help"; lit "support"; lit "review"; lit "pr";
      lit "pull request"; lit "create"; lit "new"; lit "build";
      lit "develop"; lit "implement"; lit "add"; lit "update" ] in
  (result.1 = true <->
     ev_type event = Some (lit "message")
     /\ (truthy (ev_bot_id event) = false
         /\ startswith (get_or_empty (ev_user event)) (lit "B") = false
         /\ ev_user event <> Some (lit "U09ADLT6360"))
     /\ (message_id event ∉ processed)
     /\ mention
     /\ (exists keyword,
           In keyword keywords /\ contains keyword (lower text)))
  /\ result.2 =
       (if result.1 then {[ message_id event ]} ∪ processed else processed).
Proof.
  intros event text result contains mention keywords.
  subst result mention keywords contains. cbv beta.
  rewrite should_process_message_accepts.
  split; [|destruct (accepts _ _); reflexivity].
  assert (Hr : (if accepts event_data processed
                then (true, {[ message_id (event_of event_data) ]} ∪ processed)
                else (false, processed)).1 = accepts event_data processed)
    by (destruct (accepts _ _); reflexivity).
  rewrite Hr. unfold accepts, from_bot. fold event. fold text.
  rewrite !andb_true_iff, !negb_true_iff, !orb_false_iff.
  rewrite opt_eqb_eq, bool_decide_eq_false. unfold has_trigger.
  rewrite existsb_exists.
  assert (Hb : opt_eqb (ev_user event) bot_user_id = false
               <-> ev_user event <> Some (lit "U09ADLT6360")).
  { change (lit "U09ADLT6360") with bot_user_id. rewrite <- opt_eqb_eq.
    destruct (opt_eqb _ _); split; congruence. }
  rewrite Hb.
  assert (Hm : has_mention text = true
               <-> (exists p s, text = p ++ lit "@Action Agent" ++ s)
                   \/ (exists p s, text = p ++ lit "<@U09ADLT6360>" ++ s)
                   \/ (exists p s, text = p ++ lit "U09ADLT6360" ++ s)).
  { unfold has_mention. rewrite !orb_true_iff, !str_in_iff. tauto. }
  rewrite Hm.
  assert (Hk : (exists x, In x trigger_keywords
                          /\ str_in x (lower text) = true)
               <-> exists keyword,
                     In keyword trigger_keywords
                     /\ exists p s, lower text = p ++ keyword ++ s).
  { split; intros (k & Hin & Hc); exists k; (split; [exact Hin|]);
      now apply str_in_iff. }
  rewrite Hk. unfold trigger_keywords. tauto.
Qed.

(** C6 (rejections leave the processed set alone).  A message whose text
    has no agent mention is refused and the processed set after the call is
    the set before it; more generally, whenever the call returns [False] the
    set is unchanged. *)
Theorem C6_no_mention_no_effect (event_data : event_payload)
    (processed : gset (option str)) :
  (has_mention (get_or_empty (ev_text (event_of event_data))) = false ->
   should_process_message event_data processed = (false, processed))
  /\ ((should_process_message event_data processed).1 = false ->
      (should_process_message event_data processed).2 = processed).
Proof.
  split; [|apply should_process_message_rejects].
  intros Hm. rewrite should_process_message_accepts.
  unfold accepts. rewrite Hm. simpl. now rewrite andb_false_r.
Qed.

End TriageClaims.

Lemma C1_at_most_once_witness :
  (@SlackListener.handle_events ascii_tables [bug_report; chatter; bug_report] ∅).1
    !! 2%nat = Some false.
Proof.
  apply (@C1_at_most_once ascii_tables [bug_report; chatter; bug_report] ∅
           0%nat 2%nat bug_report bug_report).
  - reflexivity.
  - reflexivity.
  - lia.
  - reflexivity.
  - vm_compute. reflexivity.
Defined.

Lemma C6_no_mention_no_effect_witness :
  @SlackListener.should_process_message ascii_tables chatter ∅ = (false, ∅).
Proof.
  apply (proj1 (@C6_no_mention_no_effect ascii_tables chatter ∅)).
  vm_compute. reflexivity.
Defined.

(** ** Ticket fields *)

Section TicketClaims.
Context `{U : Unicode}.
Import SlackListener.

Lemma available_issue_type_offered (issue_types : list str) (issue_type : str) :
  In issue_type issue_types ->
  available_issue_type issue_types issue_type = Some issue_type.
Proof.
  intros Hin. unfold available_issue_type.
  replace (List.existsb _ issue_types) with true; [reflexivity|].
  symmetry. apply existsb_exists. exists issue_type.
  split; [assumption|apply str_eqb_refl].
Qed.

(** C5, as amended (issue type of the ticket).  For the issue fields that
    ticket creation builds: a type is derived from the lower-cased message
    text, "Bug" if it contains one of "bug", "error", "broken", "fix",
    failing that "Story" if it contains one of "feature", "request",
    "enhancement", and otherwise "Task", where a word is contained when it
    occurs as a run of consecutive characters.  The ticket gets the derived
    type when the project offers an issue type of that name, and the first
    issue type of the project otherwise. *)
Theorem C5_issue_type_buckets (issue_types : list str) (message_text : str)
    (fields : issue_fields) :
  issue_dict issue_types message_text = Some fields ->
  let contains (needle hay : str) := exists p s, hay = p ++ needle ++ s in
  let has_any (words : list str) :=
    exists word, In word words /\ contains word (lower message_text) in
  let bug := has_any [lit "bug"; lit "error"; lit "broken"; lit "fix"] in
  let story := has_any [lit "feature"; lit "request"; lit "enhancement"] in
  exists derived,
    (bug -> derived = lit "Bug")
    /\ (~ bug -> story -> derived = lit "Story")
    /\ (~ bug -> ~ story -> derived = lit "Task")
    /\ (In derived issue_types -> issuetype fields = derived)
    /\ (~ In derived issue_types ->
        List.head issue_types = Some (issuetype fields)).
Proof.
  intros Hfields contains has_any bug story.
  subst bug story has_any contains. cbv beta.
  assert (Hany : forall words,
             (exists word,
                 In word words
                 /\ exists p s, lower message_text = p ++ word ++ s)
             <-> List.existsb (fun word => str_in word (lower message_text))
                   words = true).
  { intros words. rewrite existsb_exists.
    split; intros (word & Hin & Hc); exists word; (split; [exact Hin|]);
      now apply str_in_iff. }
  exists (derive_issue_type message_text). rewrite !Hany.
  assert (Hchoice :
            (In (derive_issue_type message_text) issue_types ->
             issuetype fields = derive_issue_type message_text)
            /\ (~ In (derive_issue_type message_text) issue_types ->
                List.head issue_types = Some (issuetype fields))).
  { revert Hfields. unfold issue_dict, available_issue_type.
    set (derived := derive_issue_type message_text).
    destruct (List.existsb (fun it => str_eqb it derived) issue_types)
      eqn:Hoffered.
    - intros [= <-]. cbn [issuetype]. split; [reflexivity|].
      intros Hno. exfalso. apply Hno.
      apply existsb_exists in Hoffered as (it & Hin & Heq).
      apply str_eqb_eq in Heq. now subst it.
    - assert (Hno : ~ In derived issue_types).
      { intros Hin.
        assert (Ht : List.existsb (fun it => str_eqb it derived) issue_types
                     = true).
        { apply existsb_exists. exists derived.
          split; [exact Hin|apply str_eqb_refl]. }
        rewrite Ht in Hoffered. discriminate Hoffered. }
      destruct issue_types as [|it rest]; [discriminate|].
      intros [= <-]. cbn [issuetype List.head].
      split; [intros Hin; now elim Hno|reflexivity]. }
  destruct Hchoice as [Hoffered Hfirst].
  clear Hany Hfields.
  split; [|split; [|split; [|split; [exact Hoffered|exact Hfirst]]]];
    clear Hoffered Hfirst; unfold derive_issue_type; cbv zeta;
    set (has_any := List.existsb
                      (fun word => str_in word (lower message_text)));
    destruct (has_any [lit "bug"; lit "error"; lit "broken"; lit "fix"]);
    destruct (has_any [lit "feature"; lit "request"; lit "enhancement"]);
    intuition congruence.
Qed.

(** The message of the end-to-end scenario is a "Bug". *)
Lemma scenario_issue_type :
  derive_issue_type
    (lit "<@U09ADLT6360> we have a critical bug in login, please fix")
  = lit "Bug".
Proof.
  unfold derive_issue_type. cbv zeta.
  rewrite lower_all_ascii by (vm_compute; reflexivity).
  vm_compute. reflexivity.
Qed.

(** The same message passes triage when its id is new. *)
Lemma scenario_accepted (processed : gset (option str)) :
  Some (lit "m-1") ∉ processed ->
  should_process_message bug_report processed
  = (true, {[ Some (lit "m-1") ]} ∪ processed).
Proof.
  intros Hnew. rewrite should_process_message_accepts.
  unfold accepts, has_trigger. simpl ed_event. cbv beta iota zeta.
  replace (message_id (event_of bug_report)) with (Some (lit "m-1"))
    by reflexivity.
  rewrite (bool_decide_eq_false_2 _ Hnew).
  replace (get_or_empty (ev_text (event_of bug_report)))
    with (lit "<@U09ADLT6360> we have a critical bug in login, please fix")
    by reflexivity.
  rewrite lower_all_ascii by (vm_compute; reflexivity).
  replace (opt_eqb _ _ && negb (from_bot _) && negb false && _ && _)
    with true by (vm_compute; reflexivity).
  reflexivity.
Qed.

(** C9, as amended (ticket summary).  The summary of every ticket is the
    label "Action Item: ", then the first 50 characters of the message
    text, then the fixed suffix "...".  For a text longer than 50
    characters the part between label and suffix is exactly the first 50
    characters of the text, and the summary has 66 characters; a text of at
    most 50 characters appears whole. *)
Theorem C9_summary_label_prefix_suffix (issue_types : list str)
    (message_text : str) (fields : issue_fields) :
  issue_dict issue_types message_text = Some fields ->
  summary fields
  = lit "Action Item: " ++ firstn 50 message_text ++ lit "..."
  /\ ((50 < length message_text)%nat ->
      firstn 50 (skipn 13 (summary fields)) = firstn 50 message_text
      /\ skipn 63 (summary fields) = lit "..."
      /\ length (summary fields) = 66%nat)
  /\ ((length message_text <= 50)%nat ->
      summary fields = lit "Action Item: " ++ message_text ++ lit "...").
Proof.
  unfold issue_dict.
  destruct (available_issue_type _ _) as [t|]; [|discriminate].
  intros [= <-]. cbn [summary]. unfold issue_summary.
  set (label := lit "Action Item: ").
  set (head := firstn 50 message_text).
  split; [reflexivity|]. split.
  - intros Hlen.
    assert (Hl : length head = 50%nat)
      by (subst head; rewrite length_firstn; lia).
    assert (Hdrop : forall x : str, skipn 13 (label ++ x) = x)
      by (intros x; exact (drop_app_length label x)).
    assert (Htake : forall x : str, firstn 50 (head ++ x) = head)
      by (intros x; rewrite <- Hl at 1; apply take_app_length).
    repeat split.
    + now rewrite Hdrop, Htake.
    + change 63%nat with (50 + 13)%nat. rewrite <- skipn_skipn, Hdrop.
      rewrite <- Hl. apply drop_app_length.
    + rewrite !length_app, Hl. reflexivity.
  - intros Hlen. subst head. now rewrite firstn_all2 by lia.
Qed.

End TicketClaims.

(** C5 as worded fails: in a project that offers the issue types "Task"
    and "Epic", a message with the word "bug" gives a ticket of type
    "Task". *)
Lemma C5_counterexample :
  (exists p s,
      @lower ascii_tables (lit "we found a bug") = p ++ lit "bug" ++ s)
  /\ @SlackListener.issue_dict ascii_tables [lit "Task"; lit "Epic"]
       (lit "we found a bug")
     = Some {| SlackListener.summary := lit "Action Item: we found a bug...";
               SlackListener.issuetype := lit "Task" |}
  /\ lit "Task" <> lit "Bug".
Proof.
  split; [exists (lit "we found a "), []; reflexivity|].
  split; [reflexivity|discriminate].
Qed.

Lemma C5_issue_type_buckets_witness :
  let contains (needle hay : str) := exists p s, hay = p ++ needle ++ s in
  let has_any (words : list str) :=
    exists word,
      In word words
      /\ contains word
           (@lower ascii_tables
              (lit "<@U09ADLT6360> we have a critical bug in login, please fix")) in
  let bug := has_any [lit "bug"; lit "error"; lit "broken"; lit "fix"] in
  let story := has_any [lit "feature"; lit "request"; lit "enhancement"] in
  exists derived,
    (bug -> derived = lit "Bug")
    /\ (~ bug -> story -> derived = lit "Story")
    /\ (~ bug -> ~ story -> derived = lit "Task")
    /\ (In derived [lit "Bug"; lit "Task"; lit "Story"] ->
        lit "Bug" = derived)
    /\ (~ In derived [lit "Bug"; lit "Task"; lit "Story"] ->
        List.head [lit "Bug"; lit "Task"; lit "Story"] = Some (lit "Bug")).
Proof.
  apply (@C5_issue_type_buckets ascii_tables
           [lit "Bug"; lit "Task"; lit "Story"]
           (lit "<@U09ADLT6360> we have a critical bug in login, please fix")
           {| SlackListener.summary :=
                lit "Action Item: <@U09ADLT6360> we have a critical bug in login, pl...";
              SlackListener.issuetype := lit "Bug" |}).
  reflexivity.
Defined.

(** C9 as worded fails: no label makes the summary equal to the label
    followed by the first 50 characters of the text, for the summary always
    ends in "...". *)
Lemma C9_counterexample :
  SlackListener.issue_summary (lit "fix login")
    = lit "Action Item: fix login..."
  /\ ~ (exists label : str,
          SlackListener.issue_summary (lit "fix login")
          = label ++ firstn 50 (lit "fix login")).
Proof.
  split; [reflexivity|].
  intros [label Heq].
  apply (f_equal (@rev N)) in Heq. rewrite rev_app_distr in Heq.
  vm_compute in Heq. discriminate Heq.
Qed.

Lemma C9_summary_label_prefix_suffix_witness :
  let fields :=
    {| SlackListener.summary := lit "Action Item: fix login...";
       SlackListener.issuetype := lit "Bug" |} in
  SlackListener.summary fields
  = lit "Action Item: " ++ firstn 50 (lit "fix login") ++ lit "...".
Proof.
  intros fields.
  refine (proj1 (@C9_summary_label_prefix_suffix ascii_tables
                   [lit "Task"; lit "Bug"] (lit "fix login") fields _)).
  vm_compute. reflexivity.
Defined.

(** ** Team assignment: the score and the selection *)

Section ScoreFormula.
Context `{U : Unicode}.
Import AssignTeamMember.

Lemma count_matches_nonneg member items : (0 <= count_matches member items)%Z.
Proof. unfold count_matches. lia. Qed.

Lemma score_as_formula member issue_type priority components labels :
  score member issue_type priority components labels
  = score_formula member issue_type priority components labels.
Proof.
  unfold score, score_formula, roleBonus, availabilityBonus. cbv zeta.
  generalize (count_matches member components)
             (count_matches member labels).
  intros c1 c2.
  destruct (list_in priority _);
    destruct (str_in (lit "Senior") _);
    destruct (str_in (lit "QA") _);
    destruct (str_in (lit "Developer") _);
    destruct (str_eqb (availability member) _);
    (destruct (str_eqb issue_type (lit "Bug")) eqn:HB;
     [apply str_eqb_eq in HB; subst issue_type|]);
    (destruct (str_eqb _ (lit "Story")) eqn:HS;
     [try discriminate HS; apply str_eqb_eq in HS; subst issue_type|]);
    (destruct (str_eqb _ (lit "Epic")) eqn:HE;
     [try discriminate HE; apply str_eqb_eq in HE; subst issue_type|]);
    (destruct (str_eqb _ (lit "Task")) eqn:HT;
     [try discriminate HT|]);
    cbn [andb]; lia.
Qed.

Lemma score_nonneg member issue_type priority components labels :
  (0 <= score member issue_type priority components labels)%Z.
Proof.
  rewrite score_as_formula.
  unfold score_formula, roleBonus, availabilityBonus. cbv zeta.
  pose proof (count_matches_nonneg member components).
  pose proof (count_matches_nonneg member labels).
  repeat match goal with
         | |- context [if ?b then _ else _] => destruct b
         end; lia.
Qed.

End ScoreFormula.

Section Grouping.
Import AssignTeamMember.

Lemma str_eqb_sym (a b : str) : str_eqb a b = str_eqb b a.
Proof.
  destruct (str_eqb a b) eqn:Hab.
  - apply str_eqb_eq in Hab as ->. symmetry. apply str_eqb_refl.
  - symmetry. apply str_eqb_neq. apply str_eqb_neq in Hab. congruence.
Qed.

Lemma list_in_app (x : str) (l1 l2 : list str) :
  list_in x (l1 ++ l2) = list_in x l1 || list_in x l2.
Proof. apply existsb_app. Qed.

Lemma entries_keys (unique : list (str * member_group)) :
  List.map fst (entries unique) = List.map fst unique.
Proof.
  unfold entries. rewrite List.map_map. apply List.map_ext. now intros [n g].
Qed.

Lemma group_add_entries member_name username member unique :
  entries (group_add member_name username member unique)
  = if list_in member_name (List.map fst unique) then entries unique
    else entries unique ++ [(member_name, member)].
Proof.
  induction unique as [|[n g] rest IH]; [reflexivity|].
  cbn [group_add List.map fst list_in List.existsb].
  rewrite (str_eqb_sym member_name n).
  destruct (str_eqb n member_name); cbn [orb]; [reflexivity|].
  change (List.existsb (str_eqb member_name) (List.map fst rest))
    with (list_in member_name (List.map fst rest)).
  cbn [entries List.map]. fold (entries rest).
  fold (entries (group_add member_name username member rest)).
  rewrite IH. now destruct (list_in member_name _).
Qed.

Lemma unique_members_fold (team_members : roster) :
  unique_members team_members = fold_left group_step team_members [].
Proof. reflexivity. Qed.

Lemma fold_group_entries (team_members : roster) :
  forall unique,
    entries (fold_left group_step team_members unique)
    = entries unique
      ++ List.map (fun m => (name m, m))
           (candidates_from (List.map fst unique) team_members).
Proof.
  induction team_members as [|[u m] rest IH]; intros unique.
  - cbn. now rewrite app_nil_r.
  - cbn [fold_left group_step candidates_from]. rewrite IH.
    rewrite <- (entries_keys (group_add _ _ _ _)), group_add_entries.
    destruct (list_in (name m) (List.map fst unique)).
    + now rewrite entries_keys.
    + rewrite List.map_app, entries_keys. cbn [List.map fst].
      now rewrite <- app_assoc.
Qed.

Lemma unique_members_entries (team_members : roster) :
  entries (unique_members team_members)
  = List.map (fun m => (name m, m)) (candidates team_members).
Proof. rewrite unique_members_fold. apply fold_group_entries. Qed.

Lemma lookup_group_add key member_name username member unique :
  lookup_group key (group_add member_name username member unique)
  = if str_eqb member_name key then
      Some match lookup_group key unique with
           | Some g => {| usernames := usernames g ++ [username];
                          info := info g |}
           | None => {| usernames := [username]; info := member |}
           end
    else lookup_group key unique.
Proof.
  induction unique as [|[n g] rest IH].
  - cbn. now destruct (str_eqb member_name key).
  - cbn [group_add lookup_group].
    destruct (str_eqb n member_name) eqn:Hn.
    + apply str_eqb_eq in Hn as ->. cbn [lookup_group].
      now destruct (str_eqb member_name key).
    + cbn [lookup_group]. rewrite IH.
      destruct (str_eqb n key) eqn:Hk; [|reflexivity].
      apply str_eqb_eq in Hk as ->.
      rewrite str_eqb_sym, Hn. reflexivity.
Qed.

Lemma fold_group_lookup key (team_members : roster) :
  forall unique,
    lookup_group key (fold_left group_step team_members unique)
    = match lookup_group key unique with
      | Some g =>
          Some {| usernames := usernames g ++ usernames_of key team_members;
                  info := info g |}
      | None =>
          match first_named key team_members with
          | Some (_, member) =>
              Some {| usernames := usernames_of key team_members;
                      info := member |}
          | None => None
          end
      end.
Proof.
  induction team_members as [|[u m] rest IH]; intros unique.
  - cbn. destruct (lookup_group key unique) as [[us i]|]; [|reflexivity].
    cbn. now rewrite app_nil_r.
  - cbn [fold_left group_step]. rewrite IH, lookup_group_add.
    unfold usernames_of, first_named.
    cbn [List.filter List.find snd].
    destruct (str_eqb (name m) key).
    + destruct (lookup_group key unique) as [g|]; cbn;
        [now rewrite <- app_assoc | reflexivity].
    + reflexivity.
Qed.

Lemma unique_members_lookup key (team_members : roster) :
  lookup_group key (unique_members team_members)
  = match first_named key team_members with
    | Some (_, member) =>
        Some {| usernames := usernames_of key team_members; info := member |}
    | None => None
    end.
Proof. rewrite unique_members_fold, fold_group_lookup. reflexivity. Qed.

(** A scored member is the first entry of the dictionary under its display
    name, and its name was not seen before. *)
Lemma candidates_from_first (team_members : roster) :
  forall seen m,
    In m (candidates_from seen team_members) ->
    list_in (name m) seen = false
    /\ exists u, first_named (name m) team_members = Some (u, m).
Proof.
  induction team_members as [|[u0 m0] rest IH]; intros seen m Hin.
  - destruct Hin.
  - cbn [candidates_from] in Hin. unfold first_named. cbn [List.find snd].
    destruct (list_in (name m0) seen) eqn:Hseen.
    + destruct (IH _ _ Hin) as [Hs [u Hu]]. split; [assumption|].
      destruct (str_eqb (name m0) (name m)) eqn:Heq.
      * apply str_eqb_eq in Heq. congruence.
      * exists u. exact Hu.
    + destruct Hin as [->|Hin].
      * split; [assumption|]. exists u0. now rewrite str_eqb_refl.
      * destruct (IH _ _ Hin) as [Hs [u Hu]].
        rewrite list_in_app in Hs. apply orb_false_iff in Hs as [Hs Hne].
        split; [assumption|].
        cbn in Hne. rewrite orb_false_r, str_eqb_sym in Hne.
        rewrite Hne. exists u. exact Hu.
Qed.

(** The scored members carry pairwise different display names. *)
Lemma candidates_from_NoDup (team_members : roster) :
  forall seen, NoDup (List.map name (candidates_from seen team_members)).
Proof.
  induction team_members as [|[u0 m0] rest IH]; intros seen.
  - constructor.
  - cbn [candidates_from].
    destruct (list_in (name m0) seen); [apply IH|].
    cbn [List.map]. constructor; [|apply IH].
    intros Hin. apply list_elem_of_In, in_map_iff in Hin as (m & Hn & Hm).
    apply candidates_from_first in Hm as [Hs _].
    rewrite list_in_app, Hn in Hs. cbn in Hs.
    rewrite str_eqb_refl in Hs. cbn in Hs.
    now rewrite orb_true_r in Hs.
Qed.

End Grouping.

Section Selection.
Context `{U : Unicode}.
Import AssignTeamMember.

Lemma scan_entries issue_type priority components labels unique :
  forall best,
    scan issue_type priority components labels unique best
    = fold_left
        (scan_step
           (fun m => score m issue_type priority components labels))
        (entries unique) best.
Proof.
  unfold scan.
  induction unique as [|[n g] rest IH]; intros best; [reflexivity|].
  cbn [fold_left entries List.map]. rewrite IH. reflexivity.
Qed.

(** What the loop leaves in [(best_member_name, best_score)]: either
    nothing beat the initial score, or the first member of maximal score. *)
Lemma fold_scan_first_best (sc : member_info -> Z)
    (members : list member_info) :
  forall best,
    let r := fold_left (scan_step sc)
               (List.map (fun m => (name m, m)) members) best in
    (r = best /\ Forall (fun m => (sc m <= best.2)%Z) members)
    \/ (exists k m,
          members !! k = Some m
          /\ r = (Some (name m), sc m)
          /\ (best.2 < sc m)%Z
          /\ (forall k' m', members !! k' = Some m' -> (sc m' <= sc m)%Z)
          /\ (forall k' m', (k' < k)%nat -> members !! k' = Some m' ->
                            (sc m' < sc m)%Z)).
Proof.
  induction members as [|m0 rest IH]; intros best; cbn zeta.
  - left. split; [reflexivity|constructor].
  - cbn [List.map fold_left].
    change (scan_step sc best (name m0, m0))
      with (if (sc m0 >? best.2)%Z then (Some (name m0), sc m0) else best).
    destruct (sc m0 >? best.2)%Z eqn:Hgt.
    + apply Z.gtb_lt in Hgt.
      destruct (IH (Some (name m0), sc m0))
        as [[Hr Hall]|(k & m & Hk & Hr & Hlt & Hmax & Hstrict)];
        cbn [fst snd] in *.
      * right. exists 0%nat, m0.
        split; [reflexivity|]. split; [exact Hr|]. split; [exact Hgt|].
        split.
        -- intros [|k'] m' Hm'; cbn in Hm'.
           ++ injection Hm' as <-. lia.
           ++ rewrite Forall_lookup in Hall. exact (Hall _ _ Hm').
        -- intros k' m' Hk'. lia.
      * right. exists (S k), m.
        split; [exact Hk|]. split; [exact Hr|]. split; [lia|]. split.
        -- intros [|k'] m' Hm'; cbn in Hm'.
           ++ injection Hm' as <-. lia.
           ++ exact (Hmax _ _ Hm').
        -- intros [|k'] m' Hk' Hm'; cbn in Hm'.
           ++ injection Hm' as <-. lia.
           ++ apply (Hstrict k'); [lia|assumption].
    + assert (Hle : (sc m0 <= best.2)%Z).
      { destruct (Z.gtb_spec (sc m0) (best.2)); [discriminate|lia]. }
      destruct (IH best)
        as [[Hr Hall]|(k & m & Hk & Hr & Hlt & Hmax & Hstrict)].
      * left. split; [assumption|]. constructor; assumption.
      * right. exists (S k), m.
        split; [exact Hk|]. split; [exact Hr|]. split; [exact Hlt|]. split.
        -- intros [|k'] m' Hm'; cbn in Hm'.
           ++ injection Hm' as <-. lia.
           ++ exact (Hmax _ _ Hm').
        -- intros [|k'] m' Hk' Hm'; cbn in Hm'.
           ++ injection Hm' as <-. lia.
           ++ apply (Hstrict k'); [lia|assumption].
Qed.

Lemma refresh_workloads_names (jira : Jira) (project_key : str)
    (team_members : roster) :
  Forall (fun e => name e.2 <> []) team_members ->
  Forall (fun e => name e.2 <> [])
    (refresh_workloads jira project_key team_members).
Proof.
  unfold refresh_workloads. induction 1 as [|[u m] rest Hm _ IH].
  - constructor.
  - cbn [List.map]. constructor; [|exact IH].
    destruct (search_issues jira project_key u); exact Hm.
Qed.

Lemma first_named_In (key : str) (team_members : roster) u m :
  first_named key team_members = Some (u, m) -> In (u, m) team_members.
Proof. intros H. apply find_some in H. tauto. Qed.

(** The selection made by the loop on a dictionary with at least one entry
    and no empty display name. *)
Lemma best_member_name_first_best (live : roster)
    (issue_type priority : str) (components labels : list str) :
  live <> [] ->
  Forall (fun e => name e.2 <> []) live ->
  let sc m := score m issue_type priority components labels in
  exists k m,
    candidates live !! k = Some m
    /\ (forall k' m', candidates live !! k' = Some m' -> (sc m' <= sc m)%Z)
    /\ (forall k' m', (k' < k)%nat -> candidates live !! k' = Some m' ->
                      (sc m' < sc m)%Z)
    /\ best_member_name issue_type priority components labels
         (unique_members live) = Ok (name m)
    /\ lookup_group (name m) (unique_members live)
       = Some {| usernames := usernames_of (name m) live; info := m |}.
Proof.
  intros Hne Hnames sc.
  unfold best_member_name.
  rewrite scan_entries, unique_members_entries. fold sc.
  destruct (fold_scan_first_best sc (candidates live) (None, (-1)%Z))
    as [[_ Hall]|(k & m & Hk & Hr & _ & Hmax & Hstrict)].
  - exfalso. destruct live as [|[u m] rest]; [congruence|].
    unfold candidates in Hall. cbn in Hall.
    apply Forall_cons in Hall as [Hm _]. cbn in Hm.
    pose proof (score_nonneg m issue_type priority components labels).
    unfold sc in Hm. lia.
  - exists k, m. rewrite Hr. cbn [fst].
    assert (Hin : In m (candidates_from [] live)).
    { apply list_elem_of_In. apply list_elem_of_lookup. now exists k. }
    apply candidates_from_first in Hin as [_ [u Hu]].
    assert (Hname : name m <> []).
    { apply first_named_In in Hu.
      rewrite List.Forall_forall in Hnames. exact (Hnames _ Hu). }
    split; [exact Hk|]. split; [exact Hmax|]. split; [exact Hstrict|].
    split.
    + destruct (name m) as [|c n] eqn:Hn; [congruence|]. reflexivity.
    + rewrite unique_members_lookup, Hu. reflexivity.
Qed.

End Selection.

Section AssignmentClaims.
Context `{U : Unicode}.
Import AssignTeamMember.

(** C3, as amended (selection by score).  For every non-empty roster whose
    display names are non-empty, with the workloads refreshed from Jira:
    among the members unique by display name (the first entry of each name,
    in roster order) the loop selects the one of maximal
    score = (10 - min(workload, 10)) * 3 + 2 * matches + roleBonus +
    availabilityBonus, and among several of maximal score the first
    scanned.  The call returns that member under the first of its account
    ids that Jira knows; when Jira knows none of them it returns the
    default account id with the name "Ntutu Peter" and the role "Senior
    Developer" in place of the selected member's. *)
Theorem C3_selects_first_best (team_members : roster) (env : environment)
    (jira : Jira) (issue_type priority : str) (components labels : list str)
    (project_key : str) :
  team_members <> [] ->
  Forall (fun e => name e.2 <> []) team_members ->
  credentials_set env = true ->
  connect env = Ok jira ->
  let live := refresh_workloads jira project_key team_members in
  let sc m := score_formula m issue_type priority components labels in
  NoDup (List.map name (candidates live))
  /\ exists k m,
    candidates live !! k = Some m
    /\ (forall k' m', candidates live !! k' = Some m' -> (sc m' <= sc m)%Z)
    /\ (forall k' m', (k' < k)%nat -> candidates live !! k' = Some m' ->
                      (sc m' < sc m)%Z)
    /\ best_member_name issue_type priority components labels
         (unique_members live) = Ok (name m)
    /\ assign_team_member_with team_members env issue_type priority
         components labels project_key
       = Ok match working_username jira (usernames_of (name m) live) with
            | Some username =>
                {| tm_username := username;
                   tm_name := name m;
                   tm_role := role m;
                   tm_current_workload := current_workload m;
                   tm_expertise := expertise m;
                   tm_availability := availability m |}
            | None =>
                {| tm_username := fallback_username;
                   tm_name := lit "Ntutu Peter";
                   tm_role := lit "Senior Developer";
                   tm_current_workload := current_workload m;
                   tm_expertise := expertise m;
                   tm_availability := availability m |}
            end.
Proof.
  intros Hne Hnames Hcred Hconn live sc.
  assert (Hlive : live <> []).
  { subst live. unfold refresh_workloads.
    destruct team_members; [congruence|discriminate]. }
  pose proof (refresh_workloads_names jira project_key _ Hnames) as Hln.
  fold live in Hln.
  destruct (best_member_name_first_best live issue_type priority
              components labels Hlive Hln)
    as (k & m & Hk & Hmax & Hstrict & Hbest & Hlook).
  split; [apply candidates_from_NoDup|].
  exists k, m. subst sc. cbv beta.
  split; [exact Hk|].
  split; [intros k' m' Hm'; rewrite <- !score_as_formula; eauto|].
  split; [intros k' m' Hlt Hm'; rewrite <- !score_as_formula; eauto|].
  split; [exact Hbest|].
  unfold assign_team_member_with, assign_body.
  rewrite Hcred, Hconn. cbn [negb]. fold live.
  rewrite Hbest, Hlook. cbn [usernames info].
  now destruct (working_username jira _).
Qed.

(** Missing credentials are reported by the tool's general exception. *)
Lemma credentials_missing_fails (team_members : roster) (env : environment)
    (issue_type priority : str) (components labels : list str)
    (project_key : str) :
  credentials_set env = false ->
  assign_team_member_with team_members env issue_type priority components
    labels project_key
  = Raise {| exn_class := "Exception";
             exn_message :=
               lit "Failed to assign team member: Jira credentials not properly configured" |}.
Proof.
  intros Hcred. unfold assign_team_member_with, assign_body.
  rewrite Hcred. reflexivity.
Qed.

Lemma count_matches_insert member (items1 items2 : list str) (item : str) :
  count_matches member (items1 ++ item :: items2)
  = (count_matches member (items1 ++ items2)
     + if expertise_match member item then 1 else 0)%Z.
Proof.
  unfold count_matches. rewrite !List.filter_app. cbn [List.filter].
  destruct (expertise_match member item);
    rewrite !length_app; cbn [length]; lia.
Qed.

(** C10 (the score is monotone).  With everything else fixed: one more
    component, or one more label, that matches an expertise tag of the
    member raises the member's score by exactly 2; a larger workload never
    raises the score.  Hence, of two members with distinct display names,
    both of workload 0 and equal in role and availability, one with no
    matching component or label and one with exactly one, the loop selects
    the one with the match, whose score is higher by 2, in either roster
    order. *)
Theorem C10_score_monotone :
  (forall member issue_type priority components1 component components2 labels,
      expertise_match member component = true ->
      score member issue_type priority
        (components1 ++ component :: components2) labels
      = (score member issue_type priority (components1 ++ components2) labels
         + 2)%Z)
  /\ (forall member issue_type priority components labels1 label labels2,
        expertise_match member label = true ->
        score member issue_type priority components
          (labels1 ++ label :: labels2)
        = (score member issue_type priority components (labels1 ++ labels2)
           + 2)%Z)
  /\ (forall member w w' issue_type priority components labels,
        (w <= w')%Z ->
        (score (set_workload member w') issue_type priority components labels
         <= score (set_workload member w) issue_type priority components
              labels)%Z)
  /\ (forall u1 u2 m1 m2 issue_type priority components labels,
        name m1 <> name m2 ->
        name m2 <> [] ->
        current_workload m1 = 0%Z ->
        current_workload m2 = 0%Z ->
        role m1 = role m2 ->
        availability m1 = availability m2 ->
        (count_matches m1 components + count_matches m1 labels = 0)%Z ->
        (count_matches m2 components + count_matches m2 labels = 1)%Z ->
        score m2 issue_type priority components labels
        = (score m1 issue_type priority components labels + 2)%Z
        /\ best_member_name issue_type priority components labels
             (unique_members [(u1, m1); (u2, m2)]) = Ok (name m2)
        /\ best_member_name issue_type priority components labels
             (unique_members [(u2, m2); (u1, m1)]) = Ok (name m2)).
Proof.
  split; [|split; [|split]].
  - intros member it pr cs1 c cs2 ls Hm.
    rewrite !score_as_formula. unfold score_formula.
    rewrite count_matches_insert, Hm. lia.
  - intros member it pr cs ls1 l ls2 Hm.
    rewrite !score_as_formula. unfold score_formula.
    rewrite count_matches_insert, Hm. lia.
  - intros member w w' it pr cs ls Hle.
    rewrite !score_as_formula. unfold score_formula.
    change (count_matches (set_workload member w') cs)
      with (count_matches member cs).
    change (count_matches (set_workload member w') ls)
      with (count_matches member ls).
    change (count_matches (set_workload member w) cs)
      with (count_matches member cs).
    change (count_matches (set_workload member w) ls)
      with (count_matches member ls).
    cbn [set_workload current_workload role availability]. lia.
  - intros u1 u2 m1 m2 it pr cs ls Hne Hn2 Hw1 Hw2 Hrole Hav Hc1 Hc2.
    assert (Hs : score m2 it pr cs ls = (score m1 it pr cs ls + 2)%Z).
    { rewrite !score_as_formula. unfold score_formula.
      rewrite Hw1, Hw2, Hrole, Hav. lia. }
    pose proof (score_nonneg m1 it pr cs ls) as Hpos.
    assert (Hneq : str_eqb (name m1) (name m2) = false)
      by now apply str_eqb_neq.
    assert (Hneq' : str_eqb (name m2) (name m1) = false)
      by now rewrite str_eqb_sym.
    split; [exact Hs|].
    unfold best_member_name, scan, unique_members.
    cbn [fold_left group_add]. rewrite Hneq, Hneq'.
    cbn [fold_left info fst snd].
    destruct (name m2) as [|c n2] eqn:Hname2; [congruence|].
    split.
    + replace (score m1 it pr cs ls >? -1)%Z with true
        by (symmetry; apply Z.gtb_lt; lia).
      cbn [snd].
      replace (score m2 it pr cs ls >? score m1 it pr cs ls)%Z with true
        by (symmetry; apply Z.gtb_lt; lia).
      reflexivity.
    + replace (score m2 it pr cs ls >? -1)%Z with true
        by (symmetry; apply Z.gtb_lt; lia).
      cbn [snd].
      replace (score m1 it pr cs ls >? score m2 it pr cs ls)%Z with false
        by (symmetry; rewrite Z.gtb_ltb; apply Z.ltb_ge; lia).
      reflexivity.
Qed.

End AssignmentClaims.

(** C3 as worded fails on the tool's own roster: for a "Bug" of priority
    "Low" with every workload 0, "Nancy Ntutu" has the highest score (36)
    and is selected, but when Jira does not know her account id the member
    returned is named "Ntutu Peter", whose score is 32. *)
Lemma C3_counterexample :
  let sc m :=
    @score_formula ascii_tables m (lit "Bug") (lit "Low") [] [] in
  let live :=
    AssignTeamMember.refresh_workloads jira_default_only (lit "SMS")
      AssignTeamMember.team_members in
  (exists peter nancy,
      candidates live !! 0%nat = Some peter
      /\ AssignTeamMember.name peter = lit "Ntutu Peter"
      /\ candidates live !! 6%nat = Some nancy
      /\ AssignTeamMember.name nancy = lit "Nancy Ntutu"
      /\ sc peter = 32%Z /\ sc nancy = 36%Z)
  /\ @AssignTeamMember.best_member_name ascii_tables (lit "Bug") (lit "Low")
       [] [] (AssignTeamMember.unique_members live)
     = Ok (lit "Nancy Ntutu")
  /\ exists returned,
      @AssignTeamMember.assign_team_member ascii_tables
        (configured jira_default_only) (lit "Bug") (lit "Low") [] [] (lit "SMS")
      = Ok returned
      /\ AssignTeamMember.tm_name returned = lit "Ntutu Peter".
Proof.
  cbv zeta. split; [|split].
  - eexists _, _. repeat split; vm_compute; reflexivity.
  - vm_compute. reflexivity.
  - eexists. split; vm_compute; reflexivity.
Qed.

(** Why display names must be non-empty: an empty name reads as "no member
    selected", and the first member of the roster is taken instead of the
    member of highest score. *)
Lemma empty_display_name_not_selected :
  @AssignTeamMember.score ascii_tables
    (AssignTeamMember.set_workload
       (AssignTeamMember.mk_member "Ada" "Developer" [lit "frontend"]) 5)
    (lit "Task") (lit "Low") [] [] = 20%Z
  /\ @AssignTeamMember.score ascii_tables
       (AssignTeamMember.mk_member "" "Developer" [lit "frontend"])
       (lit "Task") (lit "Low") [] [] = 35%Z
  /\ @AssignTeamMember.best_member_name ascii_tables (lit "Task") (lit "Low")
       [] [] (AssignTeamMember.unique_members roster_with_nameless)
     = Ok (lit "Ada").
Proof. repeat split; vm_compute; reflexivity. Qed.

Lemma C3_selects_first_best_witness :
  exists m,
    @AssignTeamMember.assign_team_member ascii_tables
      (configured jira_all_known) (lit "Bug") (lit "Low") [] [] (lit "SMS")
    = Ok m.
Proof.
  assert (H1 : AssignTeamMember.team_members <> []) by discriminate.
  assert (H2 : Forall (fun e => AssignTeamMember.name e.2 <> [])
                 AssignTeamMember.team_members)
    by (repeat (constructor; [vm_compute; discriminate|]); constructor).
  destruct (@C3_selects_first_best ascii_tables
              AssignTeamMember.team_members (configured jira_all_known)
              jira_all_known (lit "Bug") (lit "Low") [] [] (lit "SMS")
              H1 H2 eq_refl eq_refl)
    as (_ & k & m & _ & _ & _ & _ & Hres).
  eexists. exact Hres.
Defined.

Lemma C10_score_monotone_witness :
  @AssignTeamMember.best_member_name ascii_tables (lit "Task") (lit "Medium")
    [lit "Backend API"] []
    (AssignTeamMember.unique_members
       [(lit "id-1", generalist); (lit "id-2", specialist)])
  = Ok (lit "Bea").
Proof.
  refine (proj1 (proj2
    (proj2 (proj2 (proj2 (@C10_score_monotone ascii_tables)))
       (lit "id-1") (lit "id-2") generalist specialist
       (lit "Task") (lit "Medium") [lit "Backend API"] []
       _ _ _ _ _ _ _ _))).
  - vm_compute. discriminate.
  - vm_compute. discriminate.
  - reflexivity.
  - reflexivity.
  - reflexivity.
  - reflexivity.
  - vm_compute. reflexivity.
  - vm_compute. reflexivity.
Defined.

(** ** Repository provisioning: the branches *)

(** Case analysis on the outcome of every command of the goal; with
    hypotheses that the commands succeed, the failing cases are closed. *)
Ltac host_cases :=
  repeat match goal with
         | |- context [git ?s ?d ?c] =>
             destruct (git s d c) as [? [?|]]; cbn [snd GithubAutomation.step];
             try (let Hd := fresh in intros Hd; discriminate Hd)
         | |- context [chdir ?s ?p] =>
             destruct (chdir s p) as [? [?|]]; cbn [snd GithubAutomation.step];
             try (let Hd := fresh in intros Hd; discriminate Hd)
         | |- context [is_CalledProcessError ?e] =>
             destruct (is_CalledProcessError e)
         | |- context [if ?b then _ else _] => is_var b; destruct b
         end.

Ltac host_succeeds Hgit Hcd :=
  repeat match goal with
         | |- context [git ?s ?d ?c] =>
             let H := fresh in
             pose proof (Hgit s d c) as H;
             destruct (git s d c) as [? [?|]]; cbn [snd] in H;
             [discriminate H|clear H]; cbn [GithubAutomation.step]
         | |- context [chdir ?s ?p] =>
             let H := fresh in
             pose proof (Hcd s p) as H;
             destruct (chdir s p) as [? [?|]]; cbn [snd] in H;
             [discriminate H|clear H]; cbn [GithubAutomation.step]
         | |- context [if ?b then _ else _] => is_var b; destruct b
         end.

Section BranchClaims.
Context `{U : Unicode}.
Variable w : Provisioning.world.
Import Provisioning.

Lemma branch_of_checkout_b (cwd : option str) (name : str) :
  branch_of (Git cwd [lit "git"; lit "checkout"; lit "-b"; name]) = Some name.
Proof. reflexivity. Qed.

Lemma branch_of_checkout (cwd : option str) (name : str) :
  branch_of (Git cwd [lit "git"; lit "checkout"; name]) = None.
Proof. reflexivity. Qed.

(** Every outcome of the goal, one command after the other. *)
Ltac trace_cases :=
  repeat match goal with
         | |- context [git_outcome w ?x] =>
             let E := fresh "Hgit" in
             destruct (git_outcome w x) as [?|] eqn:E
         | |- context [chdir_outcome w ?x] =>
             let E := fresh "Hcd" in
             destruct (chdir_outcome w x) as [?|] eqn:E
         | |- context [is_CalledProcessError ?e] =>
             destruct (is_CalledProcessError e) eqn:?
         | _ => progress cbn [GithubAutomation.step fst snd]
         end.

(** The branches created along a list of commands that is written out. *)
Ltac created_branches :=
  cbn [branches_created];
  rewrite ?branch_of_checkout_b, ?branch_of_checkout;
  cbn [branch_of];
  repeat match goal with
         | H : git_outcome w ?x = _ |- context [git_outcome w ?x] =>
             rewrite H
         end.

(** C8, as amended (branches of a provisioned repository).  A branch is
    created by a command [git checkout -b] that succeeds.  The provisioner
    of [github_automation.py], when it returns, has created develop,
    feature/initial-setup, staging and hotfix/emergency-fixes, and
    feature/ibm-watsonx-integration when the flag is set, and no other
    branch; with main these are the branches it lists; it returns when
    every command succeeds.  The provisioner of
    [github_automation_simple.py] creates develop and then
    feature/initial-setup, or only develop, or none, and does not look at
    the flag; when it returns it lists main and develop, with
    feature/initial-setup exactly when both were created, so develop is
    listed also when its creation failed.  Neither takes components or
    labels.  Branches per component and label exist in the plan of
    [create_git_repository_for_task] only: feature/<component> for every
    component, then feature/<label> for every label other than "bug",
    "feature" and "enhancement", lower-cased, then feature/implementation,
    feature/testing and feature/documentation. *)
Theorem C8_branch_sets (t : trace) (local_path project_type : str)
    (use_ibm_watsonx : bool) :
  let template :=
    [lit "main"; lit "develop"; lit "feature/initial-setup"; lit "staging";
     lit "hotfix/emergency-fixes"] in
  let integration :=
    if use_ibm_watsonx then [lit "feature/ibm-watsonx-integration"]
    else [] in
  let full :=
    @GithubAutomation._create_branch_structure trace (trace_host w) t
      local_path project_type use_ibm_watsonx in
  let simple :=
    @GithubAutomationSimple._create_branch_structure trace (trace_host w) t
      local_path project_type use_ibm_watsonx in
  let all_succeed :=
    (forall t', git_outcome w t' = None)
    /\ (forall t', chdir_outcome w t' = None) in
  (forall branches,
      full.2 = Ok branches ->
      exists added,
        full.1 = t ++ added
        /\ lit "main" :: branches_created w t added = template ++ integration
        /\ branches = template ++ integration)
  /\ (all_succeed -> exists branches, full.2 = Ok branches)
  /\ (exists added,
        simple.1 = t ++ added
        /\ (branches_created w t added = []
            \/ branches_created w t added = [lit "develop"]
            \/ branches_created w t added
               = [lit "develop"; lit "feature/initial-setup"])
        /\ (forall branches,
              simple.2 = Ok branches ->
              (branches
               = [lit "main"; lit "develop"; lit "feature/initial-setup"]
               /\ branches_created w t added
                  = [lit "develop"; lit "feature/initial-setup"])
              \/ (branches = [lit "main"; lit "develop"]
                  /\ branches_created w t added
                     <> [lit "develop"; lit "feature/initial-setup"])))
  /\ (all_succeed ->
      simple.2
      = Ok [lit "main"; lit "develop"; lit "feature/initial-setup"])
  /\ simple
     = @GithubAutomationSimple._create_branch_structure trace (trace_host w)
         t local_path project_type (negb use_ibm_watsonx)
  /\ (forall components labels,
        AdvancedAutomation.feature_branches components labels
        = List.map (fun component => lit "feature/" ++ lower component)
            components
          ++ List.map (fun label => lit "feature/" ++ lower label)
               (List.filter
                  (fun label =>
                     negb (str_eqb (lower label) (lit "bug"))
                     && negb (str_eqb (lower label) (lit "feature"))
                     && negb (str_eqb (lower label) (lit "enhancement")))
                  labels)
          ++ [lit "feature/implementation"; lit "feature/testing";
              lit "feature/documentation"]).
Proof.
  cbv zeta.
  split; [|split; [|split; [|split; [|split]]]].
  - intros branches.
    unfold GithubAutomation._create_branch_structure,
      GithubAutomation.checkout_b, GithubAutomation.checkout.
    cbn [git chdir trace_host].
    destruct use_ibm_watsonx; trace_cases;
      try (intros Hd; discriminate Hd); intros [= <-];
      (eexists; split; [rewrite <- !app_assoc; cbn [app]; reflexivity|]);
      (split; [created_branches; reflexivity|reflexivity]).
  - intros [Hgit Hcd].
    unfold GithubAutomation._create_branch_structure.
    cbn [git chdir trace_host].
    rewrite ?Hcd. cbn [GithubAutomation.step].
    repeat (rewrite Hgit; cbn [GithubAutomation.step]).
    destruct use_ibm_watsonx;
      repeat (rewrite Hgit; cbn [GithubAutomation.step]);
      eexists; reflexivity.
  - unfold GithubAutomationSimple._create_branch_structure.
    cbn [git chdir trace_host].
    trace_cases;
      (eexists; split; [rewrite <- ?app_assoc; cbn [app]; reflexivity|]);
      created_branches;
      (split; [auto|]); intros branches Hb;
      try discriminate Hb; injection Hb as <-;
      first [ left; split; reflexivity
            | right; split; [reflexivity|discriminate] ].
  - intros [Hgit Hcd].
    unfold GithubAutomationSimple._create_branch_structure.
    cbn [git chdir trace_host]. now rewrite !Hgit.
  - reflexivity.
  - intros components labels.
    unfold AdvancedAutomation.feature_branches. do 2 f_equal.
    f_equal. apply List.filter_ext. intros label.
    unfold list_in. cbn [List.existsb].
    rewrite orb_false_r, !negb_orb. now rewrite andb_assoc.
Qed.

End BranchClaims.

(** C8 as worded fails on the provisioner the Slack listener calls: with
    every command succeeding and the flag set, it creates develop and
    feature/initial-setup and lists them with main; staging,
    hotfix/emergency-fixes and an integration branch are neither created
    nor listed. *)
Lemma C8_counterexample :
  let run :=
    @GithubAutomationSimple._create_branch_structure Provisioning.trace
      (Provisioning.trace_host world_all_ok) [] (lit "/tmp/repo")
      (lit "web-application") true in
  run.2 = Ok [lit "main"; lit "develop"; lit "feature/initial-setup"]
  /\ branches_created world_all_ok [] run.1
     = [lit "develop"; lit "feature/initial-setup"]
  /\ ~ In (lit "staging")
         [lit "main"; lit "develop"; lit "feature/initial-setup"]
  /\ ~ In (lit "hotfix/emergency-fixes")
         [lit "main"; lit "develop"; lit "feature/initial-setup"]
  /\ ~ In (lit "feature/ibm-watsonx-integration")
         [lit "main"; lit "develop"; lit "feature/initial-setup"].
Proof.
  cbv zeta. split; [reflexivity|]. split; [reflexivity|].
  repeat split; intros H; vm_compute in H; intuition discriminate.
Qed.

Lemma C8_branch_sets_witness :
  (@GithubAutomationSimple._create_branch_structure Provisioning.trace
     (Provisioning.trace_host world_all_ok) [] (lit "/tmp/repo")
     (lit "web-application") true).2
  = Ok [lit "main"; lit "develop"; lit "feature/initial-setup"].
Proof.
  apply (@C8_branch_sets ascii_tables world_all_ok [] (lit "/tmp/repo")
           (lit "web-application") true).
  split; intros; reflexivity.
Defined.

(** With every command succeeding, the other provisioner lists the five
    template branches and the integration branch. *)
Lemma full_provisioner_example :
  (@GithubAutomation._create_branch_structure nat host_always_ok
     0%nat (lit "/tmp/repo") (lit "web-application") true).2
  = Ok [lit "main"; lit "develop"; lit "feature/initial-setup";
        lit "staging"; lit "hotfix/emergency-fixes";
        lit "feature/ibm-watsonx-integration"].
Proof. reflexivity. Qed.

(** The simple provisioner lists develop also when the branch was not
    created: here [git checkout -b develop] fails, no branch is created,
    and the list is main, develop. *)
Lemma simple_provisioner_lists_develop_uncreated :
  let run :=
    @GithubAutomationSimple._create_branch_structure Provisioning.trace
      (Provisioning.trace_host world_develop_exists) [] (lit "/tmp/repo")
      (lit "web-application") true in
  run.2 = Ok [lit "main"; lit "develop"]
  /\ branches_created world_develop_exists [] run.1 = [].
Proof. cbv zeta. split; reflexivity. Qed.

(** ** Repository provisioning: the name *)

Section StripFacts.

Lemma lstrip_hyphen_In (s : str) (c : N) :
  In c (lstrip_hyphen s) -> In c s.
Proof.
  induction s as [|x s IH]; [easy|]. cbn [lstrip_hyphen].
  destruct (x =? hyphen); [right; auto|easy].
Qed.

Lemma lstrip_hyphen_head (s : str) (c : N) (t : str) :
  lstrip_hyphen s = c :: t -> c <> hyphen.
Proof.
  induction s as [|x s IH]; [discriminate|]. cbn [lstrip_hyphen].
  destruct (x =? hyphen) eqn:Hx; [exact IH|].
  intros [= -> _]. now apply N.eqb_neq.
Qed.

Lemma lstrip_hyphen_suffix (s : str) :
  exists p, s = p ++ lstrip_hyphen s.
Proof.
  induction s as [|x s [p IH]]; [now exists []|]. cbn [lstrip_hyphen].
  destruct (x =? hyphen).
  - exists (x :: p). cbn. now rewrite <- IH.
  - now exists [].
Qed.

Lemma rstrip_hyphen_prefix (s : str) :
  exists q, s = rstrip_hyphen s ++ q.
Proof.
  induction s as [|x s [q IH]]; [now exists []|]. cbn [rstrip_hyphen].
  destruct (rstrip_hyphen s) as [|y t].
  - destruct (x =? hyphen).
    + exists (x :: s). reflexivity.
    + exists q. cbn in *. now rewrite <- IH.
  - exists q. cbn in *. now rewrite <- IH.
Qed.

Lemma rstrip_hyphen_In (s : str) (c : N) :
  In c (rstrip_hyphen s) -> In c s.
Proof.
  destruct (rstrip_hyphen_prefix s) as [q Hq]. intros Hin.
  rewrite Hq. apply in_or_app. now left.
Qed.

Lemma rstrip_hyphen_length (s : str) :
  (length (rstrip_hyphen s) <= length s)%nat.
Proof.
  destruct (rstrip_hyphen_prefix s) as [q Hq].
  rewrite Hq at 2. rewrite length_app. lia.
Qed.

Lemma rstrip_hyphen_head (c : N) (t : str) :
  c <> hyphen -> exists t', rstrip_hyphen (c :: t) = c :: t'.
Proof.
  intros Hc. cbn [rstrip_hyphen].
  destruct (rstrip_hyphen t) as [|y t'].
  - apply N.eqb_neq in Hc. rewrite Hc. now exists [].
  - now exists (y :: t').
Qed.

Lemma rstrip_hyphen_last (s : str) (d : N) :
  rstrip_hyphen s = [] \/ List.last (rstrip_hyphen s) d <> hyphen.
Proof.
  induction s as [|x s IH]; [now left|]. cbn [rstrip_hyphen].
  destruct (rstrip_hyphen s) as [|y t].
  - destruct (x =? hyphen) eqn:Hx; [now left|].
    right. cbn. now apply N.eqb_neq.
  - right. destruct IH as [IH|IH]; [discriminate|]. exact IH.
Qed.

Lemma firstn_In (n : nat) (s : str) (c : N) : In c (firstn n s) -> In c s.
Proof.
  intros Hin. rewrite <- (firstn_skipn n s). apply in_or_app. now left.
Qed.

Lemma double_hyphen_cons (c1 c2 : N) (t : str) :
  double_hyphen (c1 :: c2 :: t)
  = ((c1 =? hyphen) && (c2 =? hyphen)) || double_hyphen (c2 :: t).
Proof. reflexivity. Qed.

Lemma double_hyphen_app (a b : str) :
  double_hyphen (a ++ b) = false ->
  double_hyphen a = false /\ double_hyphen b = false.
Proof.
  induction a as [|x a IH]; [now split|].
  destruct a as [|y a].
  - cbn [app double_hyphen]. destruct b as [|z b]; [now split|].
    intros H. apply orb_false_iff in H as [_ H]. now split.
  - cbn [app double_hyphen] in *. intros H.
    apply orb_false_iff in H as [H1 H2].
    destruct (IH H2) as [Ha Hb]. rewrite H1, Ha. now split.
Qed.

End StripFacts.

Section RepoNameFacts.
Context `{U : Unicode}.
Import GithubAutomationSimple.

Lemma generate_repo_name_core (task_title : str) :
  _generate_repo_name task_title
  = match core task_title with
    | [] => lit "new-project"
    | c :: t => if isalpha c then c :: t else lit "repo-" ++ c :: t
    end.
Proof.
  unfold _generate_repo_name. fold (core task_title).
  destruct (core task_title) as [|c t]; [reflexivity|].
  destruct (isalpha c); reflexivity.
Qed.

Lemma lower_no_upper (s : str) (c : N) :
  In c (lower s) -> is_ascii_upper c = false.
Proof.
  intros Hin. destruct (N.ltb_spec c 128) as [Hlt|Hge].
  - destruct (lower_ascii_out s c Hin Hlt) as [Hl|[_ Hu]]; [|exact Hu].
    unfold is_ascii_lower in Hl. unfold is_ascii_upper.
    apply andb_true_iff in Hl as [H1 _]. apply N.leb_le in H1.
    apply andb_false_iff. right. apply N.leb_gt. lia.
  - unfold is_ascii_upper. apply andb_false_iff. right.
    apply N.leb_gt. lia.
Qed.

Lemma lower_hyphen (s : str) : In hyphen (lower s) -> In hyphen s.
Proof.
  intros Hin.
  destruct (lower_ascii_out s hyphen Hin) as [Hl|[Hs _]];
    [reflexivity|discriminate Hl|exact Hs].
Qed.

Lemma kept_slug_char (c : N) :
  kept c = true -> isspace c = false -> is_ascii_upper c = false ->
  slug_char c = true.
Proof.
  unfold kept, slug_char, is_ascii_letter. intros Hk Hs Hu.
  rewrite Hs, Hu in Hk. cbn [orb] in Hk.
  now rewrite orb_false_r in Hk.
Qed.

Lemma sub_spaces_In (s : str) :
  forall in_run c,
    In c (sub_spaces in_run s) ->
    c = hyphen \/ (In c s /\ isspace c = false).
Proof.
  induction s as [|x s IH]; intros in_run c Hin; [destruct Hin|].
  cbn [sub_spaces] in Hin. destruct (isspace x) eqn:Hx.
  - destruct in_run.
    + destruct (IH _ _ Hin) as [->|[H1 H2]]; [now left|right].
      split; [now right|assumption].
    + destruct Hin as [<-|Hin]; [now left|].
      destruct (IH _ _ Hin) as [->|[H1 H2]]; [now left|right].
      split; [now right|assumption].
  - destruct Hin as [<-|Hin].
    + right. split; [now left|assumption].
    + destruct (IH _ _ Hin) as [->|[H1 H2]]; [now left|right].
      split; [now right|assumption].
Qed.

(** Without a hyphen in the input, the substitution leaves no two hyphens
    in a row, and after a run of whitespace the next character is none. *)
Lemma sub_spaces_single (s : str) :
  ~ In hyphen s ->
  forall in_run,
    double_hyphen (sub_spaces in_run s) = false
    /\ (in_run = true -> forall t, sub_spaces in_run s <> hyphen :: t).
Proof.
  induction s as [|x s IH]; intros Hno in_run.
  - split; [reflexivity|]. intros _ t. discriminate.
  - assert (Hx : x <> hyphen) by (intros ->; apply Hno; now left).
    assert (Hs : ~ In hyphen s) by (intros H; apply Hno; now right).
    cbn [sub_spaces]. destruct (isspace x).
    + destruct in_run.
      * apply (IH Hs true).
      * destruct (IH Hs true) as [Hd Hh]. split; [|discriminate].
        destruct (sub_spaces true s) as [|y t] eqn:Hsub; [reflexivity|].
        rewrite double_hyphen_cons, Hd, orb_false_r.
        destruct (y =? hyphen) eqn:Hy; [|now rewrite andb_false_r].
        apply N.eqb_eq in Hy as ->. now destruct (Hh eq_refl t).
    + destruct (IH Hs false) as [Hd _]. split.
      * destruct (sub_spaces false s) as [|y t] eqn:Hsub; [reflexivity|].
        rewrite double_hyphen_cons, Hd, orb_false_r.
        apply N.eqb_neq in Hx. now rewrite Hx.
      * intros _ t [= Hc _]. contradiction.
Qed.

Lemma core_In (task_title : str) (c : N) :
  In c (core task_title) ->
  In c (sub_spaces false (List.filter kept (lower task_title))).
Proof.
  unfold core, strip_hyphen. intros Hin.
  apply lstrip_hyphen_In, rstrip_hyphen_In.
  destruct (50 <? _)%nat; [|exact Hin].
  now apply rstrip_hyphen_In, firstn_In in Hin.
Qed.

Lemma core_slug_char (task_title : str) (c : N) :
  In c (core task_title) -> slug_char c = true.
Proof.
  intros Hin. apply core_In in Hin.
  destruct (sub_spaces_In _ _ _ Hin) as [->|[Hf Hs]]; [reflexivity|].
  apply filter_In in Hf as [Hl Hk].
  apply kept_slug_char; [assumption|assumption|].
  now apply (lower_no_upper task_title).
Qed.

Lemma core_head (task_title : str) (c : N) (t : str) :
  core task_title = c :: t -> c <> hyphen.
Proof.
  unfold core, strip_hyphen.
  destruct (lstrip_hyphen _) as [|x r] eqn:Hl.
  - cbn. discriminate.
  - pose proof (lstrip_hyphen_head _ _ _ Hl) as Hx.
    destruct (rstrip_hyphen_head x r Hx) as [r' Hr]. rewrite Hr.
    destruct (50 <? _)%nat.
    + change (firstn 50 (x :: r')) with (x :: firstn 49 r').
      destruct (rstrip_hyphen_head x (firstn 49 r') Hx) as [r'' Hr'].
      rewrite Hr'. now intros [= <- _].
    + now intros [= <- _].
Qed.

Lemma core_length (task_title : str) :
  (length (core task_title) <= 50)%nat.
Proof.
  unfold core. destruct (Nat.ltb_spec 50 (length (strip_hyphen
    (sub_spaces false (List.filter kept (lower task_title)))))) as [H|H].
  - etransitivity; [apply rstrip_hyphen_length|].
    rewrite length_firstn. lia.
  - exact H.
Qed.

Lemma core_last (task_title : str) (d : N) :
  core task_title = [] \/ List.last (core task_title) d <> hyphen.
Proof.
  unfold core, strip_hyphen.
  destruct (50 <? _)%nat; apply rstrip_hyphen_last.
Qed.

Lemma core_single_hyphens (task_title : str) :
  ~ In hyphen task_title -> double_hyphen (core task_title) = false.
Proof.
  intros Hno.
  assert (Hf : ~ In hyphen (List.filter kept (lower task_title))).
  { intros H. apply filter_In in H as [H _]. now apply Hno, lower_hyphen. }
  destruct (sub_spaces_single _ Hf false) as [Hd _].
  set (x := sub_spaces false _) in *.
  destruct (lstrip_hyphen_suffix x) as [p Hp].
  rewrite Hp in Hd. apply double_hyphen_app in Hd as [_ Hd].
  destruct (rstrip_hyphen_prefix (lstrip_hyphen x)) as [q Hq].
  rewrite Hq in Hd. apply double_hyphen_app in Hd as [Hd _].
  unfold core, strip_hyphen. fold x.
  destruct (50 <? _)%nat; [|exact Hd].
  rewrite <- (firstn_skipn 50 (rstrip_hyphen (lstrip_hyphen x))) in Hd.
  apply double_hyphen_app in Hd as [Hd _].
  destruct (rstrip_hyphen_prefix
              (firstn 50 (rstrip_hyphen (lstrip_hyphen x)))) as [q' Hq'].
  rewrite Hq' in Hd. now apply double_hyphen_app in Hd as [Hd _].
Qed.

End RepoNameFacts.

Section RepoNameAscii.
Context `{U : Unicode}.
Import GithubAutomationSimple.

Lemma slug_char_ascii (c : N) : slug_char c = true -> c < 128.
Proof.
  unfold slug_char, is_ascii_lower, is_ascii_digit, hyphen.
  rewrite !orb_true_iff, !andb_true_iff, !N.leb_le, N.eqb_eq. lia.
Qed.

Lemma ascii_lower_ascii (s : str) :
  Forall is_ascii s -> Forall is_ascii (List.map ascii_lower s).
Proof.
  induction 1 as [|c s Hc _ IH]; cbn [List.map]; constructor; [|exact IH].
  unfold ascii_lower, is_ascii_upper, is_ascii in *.
  destruct (_ && _) eqn:Hu; [|exact Hc].
  apply andb_true_iff in Hu as [_ Hu]. apply N.leb_le in Hu. lia.
Qed.

Lemma sub_spaces_agree (s : str) :
  Forall is_ascii s ->
  forall in_run,
    @sub_spaces U in_run s = @sub_spaces ascii_tables in_run s.
Proof.
  induction 1 as [|c s Hc _ IH]; intros in_run; [reflexivity|].
  cbn [sub_spaces]. rewrite (isspace_ascii c Hc), !IH. reflexivity.
Qed.

Lemma core_agree (task_title : str) :
  Forall is_ascii task_title ->
  @core U task_title = @core ascii_tables task_title.
Proof.
  intros Hascii. unfold core.
  rewrite (lower_ascii _ Hascii).
  change (@lower ascii_tables task_title)
    with (List.map ascii_lower task_title).
  pose proof (ascii_lower_ascii _ Hascii) as Hl.
  set (l := List.map ascii_lower task_title) in *.
  assert (Hf : List.filter (@kept U) l = List.filter (@kept ascii_tables) l).
  { apply List.filter_ext_in. intros c Hc.
    rewrite List.Forall_forall in Hl. unfold kept.
    now rewrite (isspace_ascii c (Hl c Hc)). }
  rewrite Hf.
  assert (Hfa : Forall is_ascii (List.filter (@kept ascii_tables) l)).
  { apply List.Forall_forall. intros c Hc. apply filter_In in Hc as [Hc _].
    rewrite List.Forall_forall in Hl. now apply Hl. }
  now rewrite (sub_spaces_agree _ Hfa).
Qed.

(** On a title of ASCII characters the name is the one computed with the
    ASCII tables. *)
Lemma generate_repo_name_ascii (task_title : str) :
  List.forallb (fun c => c <? 128) task_title = true ->
  @_generate_repo_name U task_title
  = @_generate_repo_name ascii_tables task_title.
Proof.
  intros H.
  assert (Hascii : Forall is_ascii task_title).
  { apply List.Forall_forall. intros c Hc. rewrite forallb_forall in H.
    apply N.ltb_lt. now apply H. }
  rewrite !generate_repo_name_core, (core_agree _ Hascii).
  destruct (@core ascii_tables task_title) as [|c t] eqn:Hc; [reflexivity|].
  assert (Hs : slug_char c = true).
  { apply (@core_slug_char ascii_tables task_title). rewrite Hc. now left. }
  now rewrite (isalpha_ascii c (slug_char_ascii c Hs)).
Qed.

(** The steps of the claim and the steps of the code. *)
Lemma sub_spaces_runs (s : str) :
  sub_spaces false s = SlugSteps.runs_to_hyphens s
  /\ (forall c, isspace c = true ->
        hyphen :: sub_spaces true s = SlugSteps.runs_to_hyphens (c :: s)).
Proof.
  induction s as [|x s [IH1 IH2]].
  - split; [reflexivity|]. intros c Hc. cbn. now rewrite Hc.
  - split.
    + cbn [sub_spaces]. destruct (isspace x) eqn:Hx.
      * now apply IH2.
      * cbn [SlugSteps.runs_to_hyphens]. now rewrite Hx, IH1.
    + intros c Hc. cbn [sub_spaces].
      change (SlugSteps.runs_to_hyphens (c :: x :: s))
        with (if isspace c then
                if isspace x then SlugSteps.runs_to_hyphens (x :: s)
                else hyphen :: SlugSteps.runs_to_hyphens (x :: s)
              else c :: SlugSteps.runs_to_hyphens (x :: s)).
      rewrite Hc. destruct (isspace x) eqn:Hx.
      * now apply IH2.
      * f_equal. cbn [SlugSteps.runs_to_hyphens]. now rewrite Hx, IH1.
Qed.

Lemma lstrip_hyphen_drop (s : str) :
  lstrip_hyphen s = SlugSteps.drop_hyphens s.
Proof.
  induction s as [|x s IH]; [reflexivity|].
  cbn [lstrip_hyphen SlugSteps.drop_hyphens]. now rewrite IH.
Qed.

Lemma rstrip_hyphen_snoc (s : str) (c : N) :
  rstrip_hyphen (s ++ [c])
  = if c =? hyphen then rstrip_hyphen s else s ++ [c].
Proof.
  induction s as [|x s IH]; [cbn; now destruct (c =? hyphen)|].
  change ((x :: s) ++ [c]) with (x :: (s ++ [c])).
  cbn [rstrip_hyphen]. rewrite IH. destruct (c =? hyphen); [reflexivity|].
  now destruct s.
Qed.

Lemma rstrip_hyphen_drop (s : str) :
  rstrip_hyphen s = rev (SlugSteps.drop_hyphens (rev s)).
Proof.
  induction s as [|c s IH] using rev_ind; [reflexivity|].
  rewrite rstrip_hyphen_snoc, rev_app_distr.
  cbn [rev app SlugSteps.drop_hyphens].
  destruct (c =? hyphen); [exact IH|].
  cbn [rev]. now rewrite rev_involutive.
Qed.

Lemma core_steps (task_title : str) :
  core task_title
  = SlugSteps.cut_at_50
      (SlugSteps.trim_hyphens
         (SlugSteps.runs_to_hyphens
            (SlugSteps.strip_others (lower task_title)))).
Proof.
  unfold core, SlugSteps.cut_at_50, SlugSteps.trim_hyphens, strip_hyphen,
    SlugSteps.strip_others.
  change (List.filter kept (lower task_title))
    with (List.filter
            (fun c =>
               is_ascii_letter c || is_ascii_digit c || isspace c
               || (c =? hyphen)) (lower task_title)).
  rewrite (proj1 (sub_spaces_runs _)), lstrip_hyphen_drop.
  now rewrite !rstrip_hyphen_drop.
Qed.

Lemma generate_repo_name_steps (task_title : str) :
  _generate_repo_name task_title = SlugSteps.slug task_title.
Proof.
  rewrite generate_repo_name_core. unfold SlugSteps.slug.
  rewrite <- core_steps.
  pose proof (core_slug_char task_title) as Hchars.
  pose proof (core_head task_title) as Hhead.
  destruct (core task_title) as [|c t]; [reflexivity|].
  cbn [SlugSteps.start_with_letter].
  assert (Hc : slug_char c = true) by (apply Hchars; now left).
  rewrite (isalpha_ascii c (slug_char_ascii c Hc)).
  assert (Hl : is_ascii_letter c = is_ascii_lower c).
  { unfold is_ascii_letter.
    replace (is_ascii_upper c) with false; [reflexivity|].
    symmetry. revert Hc.
    unfold slug_char, is_ascii_upper, is_ascii_lower, is_ascii_digit, hyphen.
    rewrite !orb_true_iff, !andb_true_iff, !N.leb_le, N.eqb_eq.
    intros Hc. apply andb_false_iff. rewrite !N.leb_gt. lia. }
  now rewrite Hl.
Qed.

(** C4, as amended (repository slug).  For every title the derived name
    is the one the steps give: the title is lower-cased, characters other
    than ASCII letters, digits, whitespace and the hyphen are removed, every
    run of whitespace is replaced by one hyphen, hyphens in front and at the
    end are removed, a result longer than 50 characters is cut to its first
    50 and loses the hyphens the cut leaves at the end, "repo-" is put in
    front of a result that does not start with a letter, and an empty
    result becomes "new-project".  The name consists of characters of
    [a-z0-9-] only, starts with a letter and does not end in a hyphen.
    Hyphens of the title itself are kept as they are: only when the title
    has none is the name free of repeated hyphens.  "Fix Login Bug!!" gives
    "fix-login-bug", "123 Urgent" gives "repo-123-urgent" and "a - b" gives
    "a---b". *)
Theorem C4_repo_name (task_title : str) :
  let slug := _generate_repo_name task_title in
  slug = SlugSteps.slug task_title
  /\ (forall c, In c slug -> slug_char c = true)
  /\ (exists c rest, slug = c :: rest /\ is_ascii_lower c = true)
  /\ (slug = lit "new-project"
      \/ exists prefix body,
           slug = prefix ++ body
           /\ (prefix = [] \/ prefix = lit "repo-")
           /\ (length body <= 50)%nat)
  /\ List.last slug hyphen <> hyphen
  /\ (~ In hyphen task_title -> double_hyphen slug = false)
  /\ _generate_repo_name (lit "Fix Login Bug!!") = lit "fix-login-bug"
  /\ _generate_repo_name (lit "123 Urgent") = lit "repo-123-urgent"
  /\ _generate_repo_name (lit "a - b") = lit "a---b".
Proof.
  cbv zeta.
  assert (Hex : _generate_repo_name (lit "Fix Login Bug!!")
                = lit "fix-login-bug"
                /\ _generate_repo_name (lit "123 Urgent")
                   = lit "repo-123-urgent"
                /\ _generate_repo_name (lit "a - b") = lit "a---b").
  { repeat split;
      rewrite generate_repo_name_ascii by (vm_compute; reflexivity);
      vm_compute; reflexivity. }
  split; [apply generate_repo_name_steps|].
  rewrite generate_repo_name_core.
  pose proof (core_slug_char task_title) as Hchars.
  pose proof (core_head task_title) as Hhead.
  pose proof (core_length task_title) as Hlen.
  pose proof (core_last task_title hyphen) as Hlast.
  pose proof (core_single_hyphens task_title) as Hsingle.
  destruct (core task_title) as [|c t].
  - split; [|split; [|split; [|split; [|split]]]].
    + intros c Hin. vm_compute in Hin.
      repeat (destruct Hin as [<-|Hin]; [reflexivity|]). destruct Hin.
    + eexists _, _. split; reflexivity.
    + now left.
    + vm_compute. discriminate.
    + intros _. reflexivity.
    + exact Hex.
  - assert (Hc : slug_char c = true) by (apply Hchars; now left).
    assert (Hne : c <> hyphen) by (apply (Hhead c t); reflexivity).
    rewrite (isalpha_ascii c (slug_char_ascii c Hc)).
    destruct Hlast as [Hlast|Hlast]; [discriminate|].
    destruct (is_ascii_lower c) eqn:Hlow.
    + assert (Hl : is_ascii_letter c = true)
        by (unfold is_ascii_letter; rewrite Hlow; apply orb_true_r).
      rewrite Hl.
      split; [exact Hchars|]. split; [now exists c, t|].
      split; [right; exists [], (c :: t); auto|].
      split; [exact Hlast|]. split; [exact Hsingle|exact Hex].
    + assert (Hl : is_ascii_letter c = false).
      { unfold slug_char in Hc. rewrite Hlow in Hc. cbn [orb] in Hc.
        apply N.eqb_neq in Hne. rewrite Hne, orb_false_r in Hc.
        unfold is_ascii_letter. rewrite Hlow, orb_false_r.
        unfold is_ascii_digit in Hc. unfold is_ascii_upper.
        apply andb_true_iff in Hc as [_ Hc]. apply N.leb_le in Hc.
        apply andb_false_iff. left. apply N.leb_gt. lia. }
      rewrite Hl.
      change (lit "repo-" ++ c :: t) with (114 :: 101 :: 112 :: 111 :: 45 :: c :: t).
      split; [|split; [|split; [|split; [|split]]]].
      * intros x Hin.
        repeat (destruct Hin as [<-|Hin]; [reflexivity|]).
        apply Hchars. exact Hin.
      * eexists _, _. split; reflexivity.
      * right. exists (lit "repo-"), (c :: t). auto.
      * exact Hlast.
      * intros Hno. rewrite !double_hyphen_cons. rewrite (Hsingle Hno).
        apply N.eqb_neq in Hne. rewrite Hne. reflexivity.
      * exact Hex.
Qed.

End RepoNameAscii.

(** C4 as worded fails: repeated separators are not collapsed when the
    title itself has hyphens. *)
Lemma C4_counterexample :
  @GithubAutomationSimple._generate_repo_name ascii_tables (lit "a - b")
  = lit "a---b"
  /\ double_hyphen
       (@GithubAutomationSimple._generate_repo_name ascii_tables
          (lit "a - b")) = true
  /\ @GithubAutomationSimple._generate_repo_name ascii_tables
       (lit "Login--Page") = lit "login--page".
Proof. repeat split; vm_compute; reflexivity. Qed.

Lemma C4_repo_name_witness :
  double_hyphen
    (@GithubAutomationSimple._generate_repo_name ascii_tables
       (lit "Fix Login Bug!!")) = false.
Proof.
  apply (@C4_repo_name ascii_tables (lit "Fix Login Bug!!")).
  intros H. vm_compute in H.
  repeat (destruct H as [H|H]; [discriminate H|]). exact H.
Defined.

(** * Further properties of the code *)

(** ** The listener: what the processed set holds *)

Section ListenerInvariants.
Context `{U : Unicode}.
Import SlackListener.

(** X1.  After any sequence of events the processed set is the initial set
    together with the ids of the accepted events, and the calls that
    returned [True] are as many as the ids accepted. *)
Theorem processed_set_is_initial_plus_accepted
    (events : list event_payload) (processed : gset (option str)) :
  (handle_events events processed).2
  = processed ∪ list_to_set (accepted_ids events processed)
  /\ length (List.filter (fun b : bool => b) (handle_events events processed).1)
     = length (accepted_ids events processed).
Proof.
  revert processed. induction events as [|e rest IH]; intros processed.
  - cbn [handle_events accepted_ids fst snd list_to_set].
    split; [|reflexivity]. symmetry. apply (right_id_L ∅ (∪)).
  - rewrite handle_events_cons. cbn [accepted_ids fst snd List.filter].
    destruct (IH (should_process_message e processed).2) as [IH1 IH2].
    rewrite IH1. rewrite should_process_message_accepts in *.
    destruct (accepts e processed); cbn [fst snd] in *.
    + split; [|cbn [length]; now rewrite IH2].
      cbn [list_to_set].
      rewrite (assoc_L (∪)), (comm_L (∪) processed). reflexivity.
    + split; [reflexivity|exact IH2].
Qed.

(** X2.  Over any sequence of events no message id is accepted twice, and
    no id that was in the set at the start is accepted at all. *)
Theorem accepted_once_and_fresh
    (events : list event_payload) (processed : gset (option str)) :
  NoDup (accepted_ids events processed)
  /\ forall id, id ∈ processed -> ~ In id (accepted_ids events processed).
Proof.
  split; [apply accepted_ids_NoDup|].
  intros id Hin. now apply accepted_ids_fresh.
Qed.

(** X3.  Keywords are matched as substrings: a text triggers as soon as its
    lower-cased form contains any string that contains a trigger keyword,
    so a keyword inside a longer word counts. *)
Theorem trigger_inside_longer_word (text keyword word : str) :
  In keyword trigger_keywords ->
  str_in keyword word = true ->
  str_in word (lower text) = true ->
  has_trigger text = true.
Proof.
  intros Hk Hw Ht. unfold has_trigger. apply existsb_exists.
  exists keyword. split; [exact Hk|]. exact (str_in_trans _ _ _ Hw Ht).
Qed.

End ListenerInvariants.

Lemma trigger_inside_longer_word_witness :
  @SlackListener.has_trigger ascii_tables
    (lit "<@U09ADLT6360> can we improve this") = true.
Proof.
  apply (@trigger_inside_longer_word ascii_tables
           (lit "<@U09ADLT6360> can we improve this") (lit "pr")
           (lit "improve")).
  - vm_compute. tauto.
  - vm_compute. reflexivity.
  - vm_compute. reflexivity.
Defined.

(** ** The listener: project, issue type and project type of a ticket *)

Section TicketChoices.
Context `{U : Unicode}.
Import SlackListener SlackListenerTicket.

Lemma existsb_str_eqb_In (xs : list str) (x : str) :
  List.existsb (fun y => str_eqb y x) xs = true <-> In x xs.
Proof.
  rewrite existsb_exists. split.
  - intros (y & Hy & Heq). apply str_eqb_eq in Heq. now subst.
  - intros Hin. exists x. split; [exact Hin|apply str_eqb_refl].
Qed.

(** X4.  The choice of the project key and of the issue type in
    [create_jira_ticket_and_repository]: each choice is one of those Jira
    offers, the wanted one when Jira offers it and the first one offered
    otherwise; the choice gives nothing exactly when nothing is offered.
    The issue type of the fields built is one of those offered. *)
Theorem ticket_project_and_type_exist (offered : list str) (wanted : str) :
  (available_project offered wanted = None <-> offered = [])
  /\ (available_issue_type offered wanted = None <-> offered = [])
  /\ (forall chosen,
        available_project offered wanted = Some chosen ->
        In chosen offered
        /\ (In wanted offered -> chosen = wanted)
        /\ (~ In wanted offered -> List.head offered = Some chosen))
  /\ (forall chosen,
        available_issue_type offered wanted = Some chosen ->
        In chosen offered
        /\ (In wanted offered -> chosen = wanted)
        /\ (~ In wanted offered -> List.head offered = Some chosen))
  /\ (forall message_text fields,
        issue_dict offered message_text = Some fields ->
        In (issuetype fields) offered).
Proof.
  assert (Hgen : forall w,
    (available_issue_type offered w = None <-> offered = [])
    /\ forall chosen,
        available_issue_type offered w = Some chosen ->
        In chosen offered
        /\ (In w offered -> chosen = w)
        /\ (~ In w offered -> List.head offered = Some chosen)).
  { intros w. unfold available_issue_type.
    destruct (List.existsb _ offered) eqn:He.
    - apply existsb_str_eqb_In in He. split.
      + split; [discriminate|]. intros ->. destruct He.
      + intros chosen [= <-]. repeat split; tauto.
    - assert (Hn : ~ In w offered).
      { intros H. apply existsb_str_eqb_In in H. congruence. }
      destruct offered as [|x rest].
      + split; [tauto|discriminate].
      + split; [split; discriminate|].
        intros chosen [= <-]. repeat split; [now left|tauto]. }
  split; [apply (Hgen wanted)|]. split; [apply (Hgen wanted)|].
  split; [apply (Hgen wanted)|]. split; [apply (Hgen wanted)|].
  intros message_text fields. unfold issue_dict.
  destruct (available_issue_type offered _) as [t|] eqn:Ht; [|discriminate].
  intros [= <-]. cbn [issuetype]. now apply (Hgen _) in Ht.
Qed.

(** X5.  The project type follows the first bucket with a word in the
    lower-cased text, and words are matched as substrings: a text that
    mentions an "application" contains "app", so its project type is
    "api-service" or "mobile-app", never the default "web-application"
    (nor "data-science"), and it passes the keyword test that decides
    whether the creation of a repository is attempted. *)
Theorem project_type_of_application (message_text : str) :
  str_in (lit "application") (lower message_text) = true ->
  (project_type message_text = lit "api-service"
   \/ project_type message_text = lit "mobile-app")
  /\ (List.existsb (fun word => str_in word (lower message_text))
        [lit "api"; lit "service"; lit "backend"] = false ->
      project_type message_text = lit "mobile-app")
  /\ should_create_repo message_text = true.
Proof.
  intros Happ.
  assert (Ha : str_in (lit "app") (lower message_text) = true).
  { apply (str_in_trans _ (lit "application")); [reflexivity|exact Happ]. }
  unfold project_type, should_create_repo. cbv zeta.
  assert (Hm : List.existsb (fun word => str_in word (lower message_text))
                 [lit "mobile"; lit "app"; lit "ios"; lit "android"] = true).
  { apply existsb_exists. exists (lit "app"). split; [|exact Ha].
    right. now left. }
  rewrite Hm. split; [|split].
  - destruct (List.existsb _ [lit "api"; _; _]); [now left|now right].
  - now intros ->.
  - apply existsb_exists. exists (lit "app"). split; [|exact Ha].
    unfold repo_trigger_keywords. cbn. tauto.
Qed.

End TicketChoices.

Lemma project_type_of_application_witness :
  @SlackListenerTicket.project_type ascii_tables
    (lit "Please build a web application for invoices") = lit "mobile-app".
Proof.
  apply (@project_type_of_application ascii_tables
           (lit "Please build a web application for invoices")).
  - vm_compute. reflexivity.
  - vm_compute. reflexivity.
Defined.

(** ** The event tool of slack_event_handler.py *)

Section EventTool.
Context `{U : Unicode}.
Variable validation_error : SlackEventHandler.event_fields -> str.
Import SlackEventHandler.

Lemma process_slack_event_success (event_data : event_fields) :
  success (process_slack_event validation_error event_data) = true <->
  exists event,
    validate event_data = Some event
    /\ type event = lit "message"
    /\ text event <> []
    /\ startswith (user event) (lit "B") = false
    /\ exists keyword,
         In keyword trigger_keywords
         /\ str_in keyword (lower (text event)) = true.
Proof.
  unfold process_slack_event.
  destruct (validate event_data) as [event|].
  - destruct (str_eqb (type event) (lit "message")) eqn:Ht; cbn [negb orb].
    + apply str_eqb_eq in Ht.
      destruct (text event) as [|c x] eqn:Hx; cbn [truthy negb].
      * cbn [success]. split; [discriminate|].
        intros (ev & [= <-] & _ & Hne & _). congruence.
      * destruct (startswith (user event) (lit "B")) eqn:Hb.
        -- cbn [success]. split; [discriminate|].
           intros (ev & [= <-] & _ & _ & Hb' & _). congruence.
        -- cbv zeta.
           destruct (List.existsb _ trigger_keywords) eqn:He;
             cbn [negb success].
           ++ split; [intros _|reflexivity]. exists event.
              rewrite Hx. repeat split; try assumption; try discriminate.
              apply existsb_exists in He. exact He.
           ++ split; [discriminate|].
              intros (ev & [= <-] & _ & _ & _ & Hk).
              apply existsb_exists in Hk. rewrite Hx in Hk. congruence.
    + cbn [success]. split; [discriminate|].
      intros (ev & [= <-] & Ht' & _). apply str_eqb_neq in Ht. contradiction.
  - cbn [success]. split; [discriminate|].
    intros (ev & Hv & _). discriminate.
Qed.

(** X6.  The tool reports success exactly for an event that has its five
    required fields, is of type "message", has a non-empty text, comes from
    a user whose id does not start with 'B', and whose lower-cased text
    contains one of the tool's thirteen keywords.  An event that lacks a
    required field (the user, for one) is reported as an error, whatever
    its other fields. *)
Theorem event_tool_accepts_iff (event_data : event_fields) :
  let result := process_slack_event validation_error event_data in
  (success result = true <->
   exists event,
     validate event_data = Some event
     /\ type event = lit "message"
     /\ text event <> []
     /\ startswith (user event) (lit "B") = false
     /\ exists keyword,
          In keyword trigger_keywords
          /\ str_in keyword (lower (text event)) = true)
  /\ (success result = true <-> agent_response result <> None)
  /\ ((f_type event_data = None \/ f_channel event_data = None
       \/ f_user event_data = None \/ f_text event_data = None
       \/ f_ts event_data = None) ->
      result
      = {| success := false;
           action_taken := lit "Error processing event: "
                           ++ validation_error event_data;
           agent_response := None |}).
Proof.
  cbv zeta. split; [apply process_slack_event_success|]. split.
  - unfold process_slack_event.
    destruct (validate event_data) as [event|]; [|easy].
    destruct (_ || _); [easy|].
    destruct (startswith _ _); [easy|]. cbv zeta.
    destruct (negb _); easy.
  - intros H. unfold process_slack_event.
    replace (validate event_data) with (@None SlackEvent); [reflexivity|].
    unfold validate.
    destruct (f_type event_data), (f_channel event_data),
      (f_user event_data), (f_text event_data), (f_ts event_data);
      try reflexivity.
    destruct H as [H|[H|[H|[H|H]]]]; discriminate H.
Qed.

(** X7.  The listener's keyword list contains the tool's.  So an event the
    tool accepts is accepted by the listener as well, provided it has what
    the listener asks for besides: no [bot_id], a sender other than the bot
    itself, a mention of the agent, and a message id not yet processed. *)
Theorem tool_accepted_then_listener_accepts
    (event : SlackListener.slack_event) (channel : option str)
    (processed : gset (option str)) :
  success (process_slack_event validation_error (tool_view event channel))
  = true ->
  truthy (SlackListener.ev_bot_id event) = false ->
  SlackListener.ev_user event <> Some SlackListener.bot_user_id ->
  SlackListener.has_mention
    (SlackListener.get_or_empty (SlackListener.ev_text event)) = true ->
  SlackListener.message_id event ∉ processed ->
  (forall keyword,
      In keyword trigger_keywords ->
      In keyword SlackListener.trigger_keywords)
  /\ SlackListener.should_process_message
       {| SlackListener.ed_event := Some event |} processed
     = (true, {[ SlackListener.message_id event ]} ∪ processed).
Proof.
  intros Hs Hbot Huser Hmention Hfresh.
  assert (Hincl : forall keyword,
             In keyword trigger_keywords ->
             In keyword SlackListener.trigger_keywords).
  { intros keyword Hk. unfold trigger_keywords in Hk.
    unfold SlackListener.trigger_keywords.
    repeat (destruct Hk as [<-|Hk]; [cbn; tauto|]). destruct Hk. }
  split; [exact Hincl|].
  apply process_slack_event_success in Hs
    as (ev & Hv & Ht & Hx & Hb & kw & Hk & Hin).
  unfold validate, tool_view in Hv. cbn in Hv.
  destruct (SlackListener.ev_type event) as [t|] eqn:Et; [|discriminate].
  destruct channel as [c|]; [|discriminate].
  destruct (SlackListener.ev_user event) as [u|] eqn:Eu; [|discriminate].
  destruct (SlackListener.ev_text event) as [x|] eqn:Ex; [|discriminate].
  destruct (SlackListener.ev_ts event) as [s|] eqn:Es; [|discriminate].
  injection Hv as <-. cbn [type text user] in *. subst t.
  rewrite should_process_message_accepts.
  unfold accepts, from_bot, event_of.
  cbn [SlackListener.ed_event default from_option id].
  rewrite Et, Eu, Ex, Hbot.
  unfold SlackListener.get_or_empty in *. cbn [default from_option id] in *.
  rewrite Hb, Hmention.
  replace (opt_eqb (Some (lit "message")) (lit "message")) with true
    by reflexivity.
  replace (opt_eqb (Some u) SlackListener.bot_user_id) with false.
  2:{ symmetry. cbn [opt_eqb]. apply str_eqb_neq. congruence. }
  rewrite (bool_decide_eq_false_2 _ Hfresh).
  replace (SlackListener.has_trigger x) with true; [reflexivity|].
  symmetry. unfold SlackListener.has_trigger. apply existsb_exists.
  exists kw. split; [now apply Hincl|exact Hin].
Qed.

End EventTool.

Lemma tool_accepted_then_listener_accepts_witness :
  @SlackListener.should_process_message ascii_tables bug_report ∅
  = (true, {[ Some (lit "m-1") ]} ∪ ∅).
Proof.
  apply (@tool_accepted_then_listener_accepts ascii_tables (fun _ => [])
           {| SlackListener.ev_type := Some (lit "message");
              SlackListener.ev_bot_id := None;
              SlackListener.ev_user := Some (lit "U123");
              SlackListener.ev_client_msg_id := Some (lit "m-1");
              SlackListener.ev_ts := Some (lit "1700000000.000100");
              SlackListener.ev_text :=
                Some (lit "<@U09ADLT6360> we have a critical bug in login, please fix") |}
           (Some (lit "C042")) ∅).
  - vm_compute. reflexivity.
  - reflexivity.
  - discriminate.
  - vm_compute. reflexivity.
  - apply not_elem_of_empty.
Defined.

(** ** Team assignment: when the call succeeds, and with which account *)

Section AssignmentOutcome.
Context `{U : Unicode}.
Import AssignTeamMember.

Lemma lookup_group_key (unique : list (str * member_group)) (key : str) :
  In key (List.map fst unique) -> exists g, lookup_group key unique = Some g.
Proof.
  induction unique as [|[n g] rest IH]; [intros []|].
  cbn [List.map fst lookup_group]. intros [<-|Hin].
  - rewrite str_eqb_refl. now exists g.
  - destruct (str_eqb n key); [now exists g|now apply IH].
Qed.

Lemma fold_scan_name (sc : member_info -> Z) (l : list (str * member_info)) :
  forall best,
    (fold_left (scan_step sc) l best).1 = best.1
    \/ exists key,
         In key (List.map fst l)
         /\ (fold_left (scan_step sc) l best).1 = Some key.
Proof.
  induction l as [|e rest IH]; intros best; [now left|].
  cbn [fold_left List.map]. unfold scan_step at 2 4.
  destruct (sc e.2 >? best.2)%Z.
  - right. destruct (IH (Some e.1, sc e.2)) as [H|(key & Hk & H)].
    + exists e.1. split; [now left|exact H].
    + exists key. split; [now right|exact H].
  - destruct (IH best) as [H|(key & Hk & H)]; [now left|].
    right. exists key. split; [now right|exact H].
Qed.

Lemma best_member_name_in_keys (issue_type priority : str)
    (components labels : list str) (unique : list (str * member_group)) :
  unique <> [] ->
  exists key,
    best_member_name issue_type priority components labels unique = Ok key
    /\ In key (List.map fst unique).
Proof.
  intros Hne. unfold best_member_name. rewrite scan_entries.
  destruct (fold_scan_name
              (fun m => score m issue_type priority components labels)
              (entries unique) (None, (-1)%Z)) as [H|(key & Hk & H)];
    rewrite H; cbn [fst truthy].
  - destruct unique as [|[n g] rest]; [congruence|].
    exists n. split; [reflexivity|now left].
  - rewrite entries_keys in Hk. destruct key as [|c key]; cbn [truthy].
    + destruct unique as [|[n g] rest]; [congruence|].
      exists n. split; [reflexivity|now left].
    + exists (c :: key). split; [reflexivity|exact Hk].
Qed.

Lemma refresh_workloads_ids (jira : Jira) (project_key : str)
    (team_members : roster) :
  List.map fst (refresh_workloads jira project_key team_members)
  = List.map fst team_members.
Proof.
  unfold refresh_workloads. rewrite List.map_map. apply List.map_ext.
  intros [u m]. now destruct (search_issues jira project_key u).
Qed.

Lemma unique_members_nonempty (team_members : roster) :
  team_members <> [] -> unique_members team_members <> [].
Proof.
  intros Hne Hu.
  pose proof (unique_members_entries team_members) as He.
  rewrite Hu in He. destruct team_members as [|[u m] rest]; [congruence|].
  discriminate He.
Qed.

(** The roster of the code is a literal of nine account ids: the members
    scanned are never none, whatever the workloads Jira reports. *)
Lemma roster_never_empty (jira : Jira) (project_key : str) :
  length team_members = 9%nat
  /\ unique_members (refresh_workloads jira project_key team_members) <> [].
Proof.
  split; [reflexivity|]. apply unique_members_nonempty.
  intros He. apply (f_equal (List.map fst)) in He.
  rewrite refresh_workloads_ids in He. discriminate He.
Qed.

Lemma usernames_of_incl (key : str) (team_members : roster) (u : str) :
  In u (usernames_of key team_members) -> In u (List.map fst team_members).
Proof.
  unfold usernames_of. rewrite !in_map_iff.
  intros (e & <- & He). apply filter_In in He as [He _]. now exists e.
Qed.

(** What a successful call returns: an account id of the dictionary that
    Jira knows, or the default account id. *)
Lemma assign_body_outcome (team_members : roster) (jira : Jira)
    (env : environment) (issue_type priority : str)
    (components labels : list str) (project_key : str) :
  credentials_set env = true ->
  connect env = Ok jira ->
  team_members <> [] ->
  exists m,
    assign_body team_members env issue_type priority components labels
      project_key = Ok m
    /\ ((In (tm_username m) (List.map fst team_members)
         /\ user jira (tm_username m) = true)
        \/ tm_username m = fallback_username).
Proof.
  intros Hcred Hconn Hne. unfold assign_body. rewrite Hcred, Hconn.
  cbn [negb].
  set (live := refresh_workloads jira project_key team_members).
  assert (Hlive : live <> []).
  { subst live. unfold refresh_workloads.
    destruct team_members; [congruence|discriminate]. }
  destruct (best_member_name_in_keys issue_type priority components labels
              _ (unique_members_nonempty _ Hlive)) as (key & Hb & Hkey).
  rewrite Hb.
  destruct (lookup_group_key _ _ Hkey) as [g Hg]. rewrite Hg.
  rewrite unique_members_lookup in Hg.
  destruct (first_named key live) as [[u0 m0]|]; [|discriminate].
  injection Hg as <-. cbn [usernames info].
  unfold working_username.
  destruct (List.find (user jira) (usernames_of key live)) as [u|] eqn:Hf.
  - eexists. split; [reflexivity|]. left. cbn [tm_username].
    apply find_some in Hf as [Hin Hu]. split; [|exact Hu].
    apply usernames_of_incl in Hin. subst live.
    now rewrite refresh_workloads_ids in Hin.
  - eexists. split; [reflexivity|]. now right.
Qed.

(** X8.  The call succeeds exactly when the credentials are set, the client
    connects and the roster is not empty: a failed workload query or an
    account unknown to Jira never makes it fail.  Every failure is an
    [Exception] whose text starts with "Failed to assign team member: ". *)
Theorem assign_succeeds_iff (team_members : roster) (env : environment)
    (issue_type priority : str) (components labels : list str)
    (project_key : str) :
  let outcome :=
    assign_team_member_with team_members env issue_type priority components
      labels project_key in
  ((exists m, outcome = Ok m) <->
   credentials_set env = true
   /\ (exists jira, connect env = Ok jira)
   /\ team_members <> [])
  /\ (forall e,
        outcome = Raise e ->
        exn_class e = "Exception"%string
        /\ startswith (exn_message e) (lit "Failed to assign team member: ")
           = true).
Proof.
  cbv zeta. split.
  - split.
    + intros [m Hm]. unfold assign_team_member_with, assign_body in Hm.
      destruct (credentials_set env); [|discriminate].
      destruct (connect env) as [jira|e]; [|discriminate].
      split; [reflexivity|]. split; [now exists jira|].
      intros ->. discriminate Hm.
    + intros (Hcred & [jira Hconn] & Hne).
      destruct (assign_body_outcome team_members jira env issue_type
                  priority components labels project_key Hcred Hconn Hne)
        as (m & Hm & _).
      exists m. unfold assign_team_member_with. now rewrite Hm.
  - intros e. unfold assign_team_member_with.
    destruct (assign_body _ _ _ _ _ _ _) as [m|e0]; [discriminate|].
    intros [= <-]. cbn [exn_class exn_message]. split; [reflexivity|].
    apply startswith_iff. now exists (exn_message e0).
Qed.

(** Every account id of the tool's roster is one that [create_jira_ticket]
    sends as [accountId]. *)
Lemma roster_ids_are_account_ids (u : str) :
  In u (List.map fst team_members) ->
  CreateJiraTicket.is_account_id u = true.
Proof.
  intros Hin. unfold CreateJiraTicket.is_account_id.
  cbn [team_members List.map fst] in Hin.
  repeat (destruct Hin as [<-|Hin];
          [first [ reflexivity
                 | rewrite lower_all_ascii by (vm_compute; reflexivity);
                   vm_compute; reflexivity ]|]).
  destruct Hin.
Qed.

(** X9.  [create_jira_ticket] called without an assignee.  When the call
    of the [assign_team_member] tool fails in any way, the ticket gets no
    assignee.  When the tool object runs the decorated function, then on
    the tool's own roster, with credentials set and the client connected,
    the function returns a member whose account id is one of the roster
    and is known to Jira, or is the default one, and that id is put on the
    ticket as an [accountId]. *)
Theorem auto_assignment_gives_account_id (env : environment) (jira : Jira)
    (tool : CreateJiraTicket.tool_call)
    (issue_type priority : str) (project_key : str) :
  credentials_set env = true ->
  connect env = Ok jira ->
  ((exists e, tool issue_type priority [] [] project_key = Raise e) ->
   CreateJiraTicket.assignee_for tool jira None issue_type priority
     project_key = None)
  /\ (tool issue_type priority [] [] project_key
      = tool_runs_function env issue_type priority [] [] project_key ->
      exists m,
        assign_team_member env issue_type priority [] [] project_key = Ok m
        /\ In (tm_username m) (List.map fst team_members)
        /\ (user jira (tm_username m) = true
            \/ tm_username m = fallback_username)
        /\ CreateJiraTicket.assignee_for tool jira None issue_type priority
             project_key
           = Some (CreateJiraTicket.accountId (tm_username m))).
Proof.
  intros Hcred Hconn. split.
  - intros [e He]. unfold CreateJiraTicket.assignee_for. cbn [truthy].
    now rewrite He.
  - intros Htool.
    assert (Hne : team_members <> []) by discriminate.
    destruct (assign_body_outcome team_members jira env issue_type priority
                [] [] project_key Hcred Hconn Hne) as (m & Hm & Hu).
    assert (Hin : In (tm_username m) (List.map fst team_members)).
    { destruct Hu as [[Hu _]| ->]; [exact Hu|]. now left. }
    assert (Hres : assign_team_member env issue_type priority [] []
                     project_key = Ok m).
    { unfold assign_team_member, assign_team_member_with. now rewrite Hm. }
    exists m. split; [exact Hres|]. split; [exact Hin|]. split; [tauto|].
    unfold CreateJiraTicket.assignee_for. cbn [truthy].
    rewrite Htool. unfold tool_runs_function. rewrite Hres.
    unfold CreateJiraTicket.entry_for.
    now rewrite (roster_ids_are_account_ids _ Hin).
Qed.

(** X10.  For a member with no negative workload the score lies between 0
    and 45 plus twice the number of components and labels, and from ten
    open items on the workload makes no difference any more. *)
Theorem score_range_and_saturation (member : member_info)
    (issue_type priority : str) (components labels : list str) :
  (0 <= current_workload member)%Z ->
  (0 <= score member issue_type priority components labels
   <= 45 + 2 * Z.of_nat (length components + length labels))%Z
  /\ forall w,
       (10 <= w)%Z ->
       score (set_workload member w) issue_type priority components labels
       = score (set_workload member 10) issue_type priority components
           labels.
Proof.
  intros Hw. split.
  - split; [apply score_nonneg|].
    rewrite score_as_formula.
    unfold score_formula, roleBonus, availabilityBonus. cbv zeta.
    assert (H1 : (count_matches member components
                  <= Z.of_nat (length components))%Z).
    { unfold count_matches. pose proof (List.filter_length_le
        (expertise_match member) components). lia. }
    assert (H2 : (count_matches member labels
                  <= Z.of_nat (length labels))%Z).
    { unfold count_matches. pose proof (List.filter_length_le
        (expertise_match member) labels). lia. }
    revert H1 H2.
    generalize (count_matches member components)
               (count_matches member labels).
    intros c1 c2 H1 H2.
    destruct (list_in priority _);
      destruct (str_in (lit "Senior") _);
      destruct (str_in (lit "QA") _);
      destruct (str_in (lit "Developer") _);
      destruct (str_eqb (availability member) _);
      (destruct (str_eqb issue_type (lit "Bug")) eqn:HB;
       [apply str_eqb_eq in HB; subst issue_type|]);
      (destruct (str_eqb _ (lit "Story")) eqn:HS;
       [try discriminate HS; apply str_eqb_eq in HS; subst issue_type|]);
      (destruct (str_eqb _ (lit "Epic")) eqn:HE;
       [try discriminate HE; apply str_eqb_eq in HE; subst issue_type|]);
      (destruct (str_eqb _ (lit "Task")) eqn:HT;
       [try discriminate HT|]);
      cbn [andb]; lia.
  - intros w Hge. rewrite !score_as_formula. unfold score_formula.
    change (count_matches (set_workload member w) components)
      with (count_matches member components).
    change (count_matches (set_workload member w) labels)
      with (count_matches member labels).
    change (count_matches (set_workload member 10) components)
      with (count_matches member components).
    change (count_matches (set_workload member 10) labels)
      with (count_matches member labels).
    cbn [set_workload current_workload role availability]. lia.
Qed.

(** X11.  Grouping by display name loses no account id: every entry of the
    dictionary is filed under its display name, the ids filed under a name
    are the ids of the entries with that name, in order, and the data kept
    for the name are those of its first entry. *)
Theorem grouping_keeps_every_account (team_members : roster) :
  NoDup (List.map fst (unique_members team_members))
  /\ (forall username member,
        In (username, member) team_members ->
        exists g,
          lookup_group (name member) (unique_members team_members) = Some g
          /\ In username (usernames g))
  /\ (forall key g,
        lookup_group key (unique_members team_members) = Some g ->
        usernames g = usernames_of key team_members
        /\ exists username,
             first_named key team_members = Some (username, info g)).
Proof.
  split; [|split].
  - rewrite <- entries_keys, unique_members_entries, List.map_map.
    cbn [fst]. apply candidates_from_NoDup.
  - intros username member Hin. rewrite unique_members_lookup.
    destruct (first_named (name member) team_members) as [[u0 m0]|] eqn:Hf.
    + eexists. split; [reflexivity|]. cbn [usernames].
      unfold usernames_of. apply in_map_iff. exists (username, member).
      split; [reflexivity|]. apply filter_In. split; [exact Hin|].
      apply str_eqb_refl.
    + exfalso. unfold first_named in Hf.
      apply (find_none _ _ Hf) in Hin. cbn [snd] in Hin.
      now rewrite str_eqb_refl in Hin.
  - intros key g. rewrite unique_members_lookup.
    destruct (first_named key team_members) as [[u0 m0]|]; [|discriminate].
    intros [= <-]. cbn [usernames info]. split; [reflexivity|now exists u0].
Qed.

End AssignmentOutcome.

Lemma auto_assignment_gives_account_id_witness :
  let env := configured jira_default_only in
  let tool := @tool_runs_function ascii_tables env in
  ((exists e, tool (lit "Bug") (lit "Low") [] [] (lit "SMS") = Raise e) ->
   @CreateJiraTicket.assignee_for ascii_tables tool jira_default_only None
     (lit "Bug") (lit "Low") (lit "SMS") = None)
  /\ (tool (lit "Bug") (lit "Low") [] [] (lit "SMS")
      = @tool_runs_function ascii_tables env (lit "Bug") (lit "Low") [] []
          (lit "SMS") ->
      exists m,
        @AssignTeamMember.assign_team_member ascii_tables env (lit "Bug")
          (lit "Low") [] [] (lit "SMS") = Ok m
        /\ In (AssignTeamMember.tm_username m)
             (List.map fst AssignTeamMember.team_members)
        /\ (AssignTeamMember.user jira_default_only
              (AssignTeamMember.tm_username m) = true
            \/ AssignTeamMember.tm_username m
               = AssignTeamMember.fallback_username)
        /\ @CreateJiraTicket.assignee_for ascii_tables tool
             jira_default_only None (lit "Bug") (lit "Low") (lit "SMS")
           = Some (CreateJiraTicket.accountId
                     (AssignTeamMember.tm_username m))).
Proof.
  apply (@auto_assignment_gives_account_id ascii_tables
           (configured jira_default_only) jira_default_only
           (@tool_runs_function ascii_tables (configured jira_default_only))
           (lit "Bug") (lit "Low") (lit "SMS")).
  - reflexivity.
  - reflexivity.
Defined.

Lemma score_range_and_saturation_witness :
  (0 <= @AssignTeamMember.score ascii_tables specialist (lit "Task")
          (lit "Medium") [lit "Backend API"] []
   <= 45 + 2 * Z.of_nat (length [lit "Backend API"] + length (@nil str)))%Z.
Proof.
  apply (@score_range_and_saturation ascii_tables specialist (lit "Task")
           (lit "Medium") [lit "Backend API"] []).
  vm_compute. discriminate.
Defined.

(** ** Ticket summaries and assignees in create_jira_ticket.py *)

Section ReplaceFacts.

Lemma replace_from_skip (old new : str) (p rest : str) :
  replace_from (length p) old new (p ++ rest) = replace_from 0 old new rest.
Proof.
  induction p as [|c p IH]; [reflexivity|]. cbn [length app replace_from].
  exact IH.
Qed.

Lemma replace_from_prefix (old new : str) (rest : str) :
  old <> [] ->
  replace_from 0 old new (old ++ rest) = new ++ replace_from 0 old new rest.
Proof.
  destruct old as [|c o] eqn:Ho; [congruence|]. intros _.
  cbn [app replace_from].
  replace (startswith (c :: o ++ rest) (c :: o)) with true.
  2:{ symmetry. apply startswith_iff. now exists rest. }
  cbn [length]. rewrite Nat.sub_succ, Nat.sub_0_r.
  now rewrite replace_from_skip.
Qed.

Lemma replace_from_absent (old new : str) (s : str) :
  str_in old s = false -> replace_from 0 old new s = s.
Proof.
  induction s as [|c s IH]; [reflexivity|].
  cbn [str_in]. intros H. apply orb_false_iff in H as [H1 H2].
  cbn [replace_from]. rewrite H1. now rewrite (IH H2).
Qed.

Lemma replace_from_length (old : str) (s : str) :
  forall skip, (length (replace_from skip old [] s) <= length s)%nat.
Proof.
  induction s as [|c s IH]; intros skip; [reflexivity|].
  cbn [replace_from]. destruct skip as [|k].
  - destruct (startswith (c :: s) old); cbn [app length].
    + specialize (IH (length old - 1)%nat). lia.
    + specialize (IH 0%nat). lia.
  - cbn [length]. specialize (IH k). lia.
Qed.

Lemma removelast_length (s : str) :
  (length (removelast s) <= length s)%nat.
Proof.
  induction s as [|c s IH]; [reflexivity|].
  cbn [removelast]. destruct s; cbn [length] in *; lia.
Qed.

End ReplaceFacts.

Section CreateTicket.
Context `{U : Unicode}.
Import CreateJiraTicket.

(** X12.  Cleaning a summary never makes it longer, and leaves alone a
    summary that neither starts with a quotation mark nor with "Action
    Item: ".  Applied to the summary the Slack listener builds, it gives
    back the first 50 characters of the message followed by "...", unless
    these contain "Action Item: " themselves. *)
Theorem clean_summary_of_listener_summary (summary message_text : str) :
  (length (clean_summary summary) <= length summary)%nat
  /\ (startswith summary quote = false ->
      startswith summary (lit "Action Item: ") = false ->
      clean_summary summary = summary)
  /\ (str_in (lit "Action Item: ") (firstn 50 message_text ++ lit "...")
      = false ->
      clean_summary (SlackListener.issue_summary message_text)
      = firstn 50 message_text ++ lit "...").
Proof.
  split; [|split].
  - unfold clean_summary. cbv zeta.
    assert (Hq : (length (if startswith summary quote && endswith summary quote
                          then removelast (tl summary) else summary)
                  <= length summary)%nat).
    { destruct (_ && _); [|reflexivity].
      etransitivity; [apply removelast_length|].
      destruct summary; cbn [tl length]; lia. }
    destruct (startswith _ (lit "Action Item: ")); [|exact Hq].
    etransitivity; [|exact Hq].
    apply (replace_from_length (lit "Action Item: ")).
  - intros Hq Hl. unfold clean_summary. cbv zeta.
    rewrite Hq. cbn [andb]. now rewrite Hl.
  - intros Habsent. unfold clean_summary, SlackListener.issue_summary.
    cbv zeta.
    set (rest := firstn 50 message_text ++ lit "...") in *.
    replace (startswith (lit "Action Item: " ++ rest) quote) with false
      by reflexivity.
    cbn [andb].
    replace (startswith (lit "Action Item: " ++ rest) (lit "Action Item: "))
      with true.
    2:{ symmetry. apply startswith_iff. now exists rest. }
    change (replace (lit "Action Item: ") [] (lit "Action Item: " ++ rest))
      with (replace_from 0 (lit "Action Item: ") []
              (lit "Action Item: " ++ rest)).
    rewrite replace_from_prefix by discriminate.
    now apply replace_from_absent.
Qed.

(** X13.  The two rules for telling an account id from a user name differ:
    [update_ticket_assignee] looks for a colon only, [create_jira_ticket]
    also takes 24 hexadecimal characters for an account id.  Whatever the
    first rule sends as an account id the second does too, and they part
    only on names of exactly 24 characters.  On the roster they part on
    one member: the id "63e1fbc8c3eb74ad8e9908f6" is an account id for
    [create_jira_ticket] and a user name for [update_ticket_assignee]. *)
Theorem assignee_rules_differ (assignee : str) :
  (UpdateTicketAssignee.call_for assignee
   = UpdateTicketAssignee.ByAccountId assignee ->
   entry_for assignee = accountId assignee)
  /\ (entry_for assignee = accountId assignee ->
      UpdateTicketAssignee.call_for assignee
      = UpdateTicketAssignee.ByName assignee ->
      length assignee = 24%nat /\ str_in (lit ":") assignee = false)
  /\ (In assignee (List.map fst AssignTeamMember.team_members) ->
      entry_for assignee = accountId assignee
      /\ (UpdateTicketAssignee.call_for assignee
          = UpdateTicketAssignee.ByName assignee
          <-> assignee = lit "63e1fbc8c3eb74ad8e9908f6")).
Proof.
  split; [|split].
  - unfold UpdateTicketAssignee.call_for, entry_for, is_account_id.
    destruct (str_in (lit ":") assignee); [reflexivity|discriminate].
  - unfold UpdateTicketAssignee.call_for, entry_for, is_account_id.
    destruct (str_in (lit ":") assignee); [discriminate|].
    cbn [orb]. destruct (length assignee =? 24)%nat eqn:Hl.
    + apply Nat.eqb_eq in Hl. now intros _ _.
    + cbn [andb]. discriminate.
  - intros Hin. split.
    + unfold entry_for. now rewrite (roster_ids_are_account_ids _ Hin).
    + unfold UpdateTicketAssignee.call_for.
      cbn [AssignTeamMember.team_members List.map fst] in Hin.
      repeat (destruct Hin as [<-|Hin];
              [first [ split; [discriminate|];
                       intros He; vm_compute in He; discriminate He
                     | split; reflexivity ]|]).
      destruct Hin.
Qed.

End CreateTicket.

Lemma clean_summary_of_listener_summary_witness :
  CreateJiraTicket.clean_summary (SlackListener.issue_summary (lit "fix login"))
  = firstn 50 (lit "fix login") ++ lit "...".
Proof.
  apply (clean_summary_of_listener_summary [] (lit "fix login")).
  vm_compute. reflexivity.
Defined.

Lemma assignee_rules_differ_witness :
  @CreateJiraTicket.entry_for ascii_tables (lit "63e1fbc8c3eb74ad8e9908f6")
  = CreateJiraTicket.accountId (lit "63e1fbc8c3eb74ad8e9908f6").
Proof.
  apply (@assignee_rules_differ ascii_tables (lit "63e1fbc8c3eb74ad8e9908f6")).
  vm_compute. tauto.
Defined.

(** ** The repository plan of advanced_automation.py *)

Section PlanName.
Context `{U : Unicode}.
Import AdvancedAutomationPlan.

Lemma sub_hyphens_In (in_run : bool) (s : str) (c : N) :
  In c (sub_hyphens in_run s) -> In c s.
Proof.
  revert in_run. induction s as [|x s IH]; intros in_run; [easy|].
  cbn [sub_hyphens]. destruct (x =? hyphen) eqn:Hx.
  - apply N.eqb_eq in Hx. destruct in_run.
    + intros Hin. right. eapply IH, Hin.
    + intros [<-|Hin]; [now left|]. right. eapply IH, Hin.
  - intros [->|Hin]; [now left|]. right. eapply IH, Hin.
Qed.

Lemma sub_hyphens_length (in_run : bool) (s : str) :
  (length (sub_hyphens in_run s) <= length s)%nat.
Proof.
  revert in_run. induction s as [|x s IH]; intros in_run; [easy|].
  cbn [sub_hyphens]. destruct (x =? hyphen).
  - destruct in_run; cbn [length].
    + specialize (IH true). lia.
    + specialize (IH true). lia.
  - cbn [length]. specialize (IH false). lia.
Qed.

Lemma sub_hyphens_head (s : str) (c : N) (t : str) :
  sub_hyphens true s = c :: t -> c <> hyphen.
Proof.
  induction s as [|x s IH]; [discriminate|]. cbn [sub_hyphens].
  destruct (x =? hyphen) eqn:Hx; [exact IH|].
  intros [= -> _]. now apply N.eqb_neq.
Qed.

Lemma sub_hyphens_double (in_run : bool) (s : str) :
  double_hyphen (sub_hyphens in_run s) = false.
Proof.
  revert in_run. induction s as [|x s IH]; intros in_run; [easy|].
  cbn [sub_hyphens]. destruct (x =? hyphen) eqn:Hx.
  - destruct in_run; [apply IH|].
    specialize (IH true).
    destruct (sub_hyphens true s) as [|y t] eqn:Hs; [reflexivity|].
    rewrite double_hyphen_cons, IH.
    apply sub_hyphens_head in Hs. apply N.eqb_neq in Hs.
    now rewrite Hs, andb_false_r.
  - specialize (IH false).
    destruct (sub_hyphens false s) as [|y t] eqn:Hs; [reflexivity|].
    rewrite double_hyphen_cons, IH. now rewrite Hx.
Qed.

Lemma sub_hyphens_all_hyphens (in_run : bool) (s : str) :
  List.Forall (fun c => c = hyphen) (sub_hyphens in_run s)
  <-> List.Forall (fun c => c = hyphen) s.
Proof.
  revert in_run. induction s as [|x s IH]; intros in_run; [easy|].
  cbn [sub_hyphens]. destruct (x =? hyphen) eqn:Hx.
  - apply N.eqb_eq in Hx. subst x. destruct in_run.
    + rewrite IH. split; [now constructor|now inversion 1].
    + split; inversion 1 as [|? ? _ Hall]; constructor; try reflexivity;
        now apply (IH true).
  - apply N.eqb_neq in Hx. split; inversion 1; easy.
Qed.

Lemma lstrip_hyphen_length (s : str) :
  (length (lstrip_hyphen s) <= length s)%nat.
Proof.
  destruct (lstrip_hyphen_suffix s) as [p Hp].
  rewrite Hp at 2. rewrite length_app. lia.
Qed.

Lemma strip_hyphen_empty (s : str) :
  strip_hyphen s = [] <-> List.Forall (fun c => c = hyphen) s.
Proof.
  unfold strip_hyphen. split.
  - intros Hs. induction s as [|x s IH]; [constructor|].
    cbn [lstrip_hyphen] in Hs. destruct (x =? hyphen) eqn:Hx.
    + apply N.eqb_eq in Hx. constructor; auto.
    + apply N.eqb_neq in Hx.
      destruct (rstrip_hyphen_head x s Hx) as [t Ht].
      rewrite Ht in Hs. discriminate Hs.
  - induction 1 as [|x s -> _ IH]; [reflexivity|].
    cbn [lstrip_hyphen]. now rewrite N.eqb_refl.
Qed.

Lemma plan_char_slug (c : N) : slug_char (plan_char c) = true.
Proof.
  unfold plan_char, slug_char.
  destruct (is_ascii_lower c || is_ascii_digit c || (c =? hyphen)) eqn:Hc;
    [exact Hc|reflexivity].
Qed.

Lemma plan_char_hyphen (c : N) :
  plan_char c = hyphen <-> is_ascii_lower c || is_ascii_digit c = false.
Proof.
  unfold plan_char, is_ascii_lower, is_ascii_digit, hyphen.
  destruct (97 <=? c) eqn:H1, (c <=? 122) eqn:H2, (48 <=? c) eqn:H3,
    (c <=? 57) eqn:H4, (c =? 45) eqn:H5; cbn;
    repeat match goal with
           | H : (_ <=? _) = true |- _ => apply N.leb_le in H
           | H : (_ <=? _) = false |- _ => apply N.leb_gt in H
           | H : (_ =? _) = true |- _ => apply N.eqb_eq in H
           | H : (_ =? _) = false |- _ => apply N.eqb_neq in H
           end;
    split; intros; try reflexivity; try discriminate; try lia.
Qed.

(** X14 (name of the repository plan).  The name composed by
    [create_git_repository_for_task] from the ticket key and the first 30
    characters of the lower-cased summary holds only the characters a-z,
    0-9 and the hyphen, never two hyphens in a row, and neither starts nor
    ends with a hyphen; it is at most 31 characters longer than the
    lower-cased key.  It is empty exactly when no character of the
    lower-cased key and of the 30 characters of the summary is in a-z or
    0-9: the function has no default name. *)
Theorem plan_repo_name_is_slug (ticket_key ticket_summary : str) :
  let name := repo_name ticket_key ticket_summary in
  List.Forall (fun c => slug_char c = true) name
  /\ double_hyphen name = false
  /\ (forall t, name <> hyphen :: t)
  /\ (name = [] \/ List.last name hyphen <> hyphen)
  /\ (length name <= length (lower ticket_key) + 31)%nat
  /\ (name = []
      <-> List.Forall
            (fun c => is_ascii_lower c || is_ascii_digit c = false)
            (lower ticket_key ++ firstn 30 (lower ticket_summary))).
Proof.
  cbv zeta. unfold repo_name, strip_hyphen.
  set (raw := lower ticket_key ++ lit "-" ++ firstn 30 (lower ticket_summary)).
  set (squeezed := sub_hyphens false (List.map plan_char raw)).
  split; [|split; [|split; [|split; [|split]]]].
  - apply List.Forall_forall. intros c Hin.
    apply rstrip_hyphen_In, lstrip_hyphen_In, sub_hyphens_In in Hin.
    apply in_map_iff in Hin. destruct Hin as (x & <- & _).
    apply plan_char_slug.
  - destruct (rstrip_hyphen_prefix (lstrip_hyphen squeezed)) as [q Hq].
    destruct (lstrip_hyphen_suffix squeezed) as [p Hp].
    pose proof (sub_hyphens_double false (List.map plan_char raw)) as Hd.
    fold squeezed in Hd. rewrite Hp in Hd.
    apply double_hyphen_app in Hd. destruct Hd as [_ Hd].
    rewrite Hq in Hd. now apply double_hyphen_app in Hd.
  - intros t Ht.
    destruct (lstrip_hyphen squeezed) as [|c s] eqn:Hs; [discriminate Ht|].
    pose proof (lstrip_hyphen_head _ _ _ Hs) as Hc.
    destruct (rstrip_hyphen_head c s Hc) as [t' Ht'].
    rewrite Ht' in Ht. now injection Ht.
  - apply rstrip_hyphen_last.
  - etransitivity; [apply rstrip_hyphen_length|].
    etransitivity; [apply lstrip_hyphen_length|].
    etransitivity; [apply sub_hyphens_length|].
    rewrite length_map. unfold raw. rewrite !length_app.
    pose proof (firstn_le_length 30 (lower ticket_summary)) as Hf.
    cbn [lit length] in *. change (length (lit "-")) with 1%nat. lia.
  - fold (strip_hyphen squeezed). rewrite strip_hyphen_empty.
    unfold squeezed. rewrite sub_hyphens_all_hyphens.
    rewrite List.Forall_map. unfold raw.
    rewrite !List.Forall_app.
    split.
    + intros (Hk & _ & Hs). split; (eapply List.Forall_impl; [|eassumption]);
        intros c Hc; now apply plan_char_hyphen.
    + intros (Hk & Hs). split; [|split].
      * eapply List.Forall_impl; [|exact Hk].
        intros c Hc; now apply plan_char_hyphen.
      * repeat constructor.
      * eapply List.Forall_impl; [|exact Hs].
        intros c Hc; now apply plan_char_hyphen.
Qed.

End PlanName.

(** ** The subtasks of advanced_automation.py *)

Section Subtasks.
Context `{U : Unicode}.
Import AdvancedAutomationPlan.

Lemma lstrip_space_head (s : str) (c : N) (t : str) :
  lstrip_space s = c :: t -> isspace c = false.
Proof.
  induction s as [|x s IH]; [discriminate|]. cbn [lstrip_space].
  destruct (isspace x) eqn:Hx; [exact IH|]. now intros [= <- _].
Qed.

Lemma rstrip_space_head (c : N) (t : str) :
  isspace c = false -> exists t', rstrip_space (c :: t) = c :: t'.
Proof.
  intros Hc. cbn [rstrip_space].
  destruct (rstrip_space t) as [|y t'].
  - rewrite Hc. now exists [].
  - now exists (y :: t').
Qed.

Lemma rstrip_space_last (s : str) (d : N) :
  rstrip_space s = [] \/ isspace (List.last (rstrip_space s) d) = false.
Proof.
  induction s as [|x s IH]; [now left|]. cbn [rstrip_space].
  destruct (rstrip_space s) as [|y t].
  - destruct (isspace x) eqn:Hx; [now left|]. right. exact Hx.
  - right. destruct IH as [IH|IH]; [discriminate IH|]. exact IH.
Qed.

Lemma existsb_str_in (words : list str) (hay : str) :
  List.existsb (fun word => str_in word hay) words = true
  <-> exists word, In word words /\ str_in word hay = true.
Proof. apply existsb_exists. Qed.

(** X15 (subtasks found in a conversation).  For every action found,
    [analyze_conversation_for_subtasks] builds a subtask whose issue type
    is "Sub-task" whatever the words of the action; the priority is High
    exactly when the lower-cased action contains one of urgent, critical,
    blocking, immediate (these win over the words for Low), and otherwise
    Low exactly when it contains one of the three words for Low; the
    estimate is 1h exactly when it contains simple, quick or minor (also
    for an action of more than ten words), otherwise 4h for more than ten
    words and 2h else; the summary is the label "Subtask: " followed by
    the action without surrounding whitespace. *)
Theorem subtask_fields (parent_ticket_key action : str) :
  let t := subtask_for parent_ticket_key action in
  let mentions (words : list str) :=
    exists word, In word words /\ str_in word (lower action) = true in
  let urgent :=
    [lit "urgent"; lit "critical"; lit "blocking"; lit "immediate"] in
  let relaxed := [lit "nice to have"; lit "future"; lit "later"] in
  let quick := [lit "simple"; lit "quick"; lit "minor"] in
  issue_type t = lit "Sub-task"
  /\ (priority t = lit "High" <-> mentions urgent)
  /\ (priority t = lit "Low" <-> mentions relaxed /\ ~ mentions urgent)
  /\ In (priority t) [lit "High"; lit "Medium"; lit "Low"]
  /\ (estimated_time t = lit "1h" <-> mentions quick)
  /\ (estimated_time t = lit "4h"
      <-> (10 < count_words false action)%nat /\ ~ mentions quick)
  /\ In (estimated_time t) [lit "1h"; lit "2h"; lit "4h"]
  /\ (exists core,
        summary t = lit "Subtask: " ++ core
        /\ core = strip_space action
        /\ (forall c rest, core = c :: rest -> isspace c = false)
        /\ (core = [] \/ isspace (List.last core 0) = false)).
Proof.
  cbv zeta. unfold subtask_for.
  cbn [issue_type priority estimated_time summary].
  rewrite <- !existsb_str_in.
  assert (Hsummary : exists core,
             lit "Subtask: " ++ strip_space action = lit "Subtask: " ++ core
             /\ core = strip_space action
             /\ (forall c rest, core = c :: rest -> isspace c = false)
             /\ (core = [] \/ isspace (List.last core 0) = false)).
  { exists (strip_space action). split; [reflexivity|].
    split; [reflexivity|]. unfold strip_space. split.
    - intros c rest Hc.
      destruct (lstrip_space action) as [|x s] eqn:Hs; [discriminate Hc|].
      pose proof (lstrip_space_head _ _ _ Hs) as Hx.
      destruct (rstrip_space_head x s Hx) as [t' Ht'].
      rewrite Ht' in Hc. now injection Hc as <- _.
    - apply rstrip_space_last. }
  set (has_any := List.existsb (fun word => str_in word (lower action))).
  destruct (has_any [lit "test"; lit "verify"; lit "check"]);
    destruct (has_any [lit "design"; lit "plan"; lit "research"]);
    (split; [reflexivity|]).
  all: destruct (has_any [lit "urgent"; lit "critical"; lit "blocking";
                          lit "immediate"]);
    destruct (has_any [lit "nice to have"; lit "future"; lit "later"]);
    (split; [split; first [reflexivity | intros Hd; discriminate Hd]|]);
    (split; [split; first [ intros _; split; [reflexivity|discriminate]
                          | intros Hd; discriminate Hd
                          | intros [_ Hn]; now elim Hn
                          | intros [Hd _]; discriminate Hd
                          | reflexivity ]|]);
    (split; [cbn [In]; auto|]).
  all: destruct (has_any [lit "simple"; lit "quick"; lit "minor"]);
    destruct (10 <? count_words false action)%nat eqn:Hw;
    (apply Nat.ltb_lt in Hw || apply Nat.ltb_ge in Hw);
    (split; [split; first [reflexivity | intros Hd; discriminate Hd]|]);
    (split; [split; first [ intros _; split; [exact Hw|discriminate]
                          | intros Hd; discriminate Hd
                          | intros [_ Hn]; now elim Hn
                          | intros [Hd _]; lia
                          | reflexivity ]|]);
    (split; [cbn [In]; auto|]); exact Hsummary.
Qed.

End Subtasks.

(** ** The repository name and the recommendations of github_automation.py *)

Section FullNames.
Context `{U : Unicode} `{A : UnicodeAlnum}.
Import GithubAutomationNames.

Lemma split_hyphen_segments (s : str) :
  List.Forall (fun seg => ~ In hyphen seg) (split_hyphen s).
Proof.
  induction s as [|x s IH]; [repeat constructor; easy|].
  cbn [split_hyphen]. destruct (x =? hyphen) eqn:Hx.
  - constructor; [easy|exact IH].
  - apply N.eqb_neq in Hx.
    destruct (split_hyphen s) as [|seg segs].
    + repeat constructor. intros [He|[]]. now elim Hx.
    + inversion IH as [|? ? Hseg Hsegs]. constructor; [|exact Hsegs].
      intros [He|Hin]; [now elim Hx|now elim Hseg].
Qed.

Lemma split_hyphen_all_hyphens (s : str) :
  List.Forall (fun c => c = hyphen) s -> nonempty (split_hyphen s) = [].
Proof.
  induction 1 as [|x s -> _ IH]; [reflexivity|].
  cbn [split_hyphen]. rewrite N.eqb_refl. exact IH.
Qed.

Lemma nonempty_segments (segs : list str) :
  List.Forall (fun seg => ~ In hyphen seg) segs ->
  List.Forall (fun seg => seg <> [] /\ ~ In hyphen seg) (nonempty segs).
Proof.
  induction 1 as [|seg segs Hseg _ IH]; [constructor|].
  unfold nonempty in *. cbn [List.filter].
  destruct seg as [|c seg]; [exact IH|]. cbn [length Nat.eqb negb].
  constructor; [|exact IH]. split; [discriminate|exact Hseg].
Qed.

Lemma double_hyphen_after (a b : str) :
  ~ In hyphen a -> double_hyphen (a ++ b) = double_hyphen b.
Proof.
  induction a as [|x a IH]; [reflexivity|]. intros Hin.
  assert (Hx : (x =? hyphen) = false)
    by (apply N.eqb_neq; intros ->; apply Hin; now left).
  assert (Ha : ~ In hyphen a) by (intros Ha; apply Hin; now right).
  destruct a as [|y a].
  - cbn [app]. destruct b as [|z b]; [reflexivity|].
    now rewrite double_hyphen_cons, Hx.
  - change ((x :: y :: a) ++ b) with (x :: y :: a ++ b).
    rewrite double_hyphen_cons, Hx. cbn [andb orb]. now apply IH.
Qed.

Lemma join_hyphen_cons (seg : str) (rest : list str) :
  rest <> [] -> join_hyphen (seg :: rest) = seg ++ hyphen :: join_hyphen rest.
Proof. destruct rest; [easy|reflexivity]. Qed.

Lemma join_hyphen_shape (segs : list str) :
  List.Forall (fun seg => seg <> [] /\ ~ In hyphen seg) segs ->
  segs <> [] ->
  double_hyphen (join_hyphen segs) = false
  /\ (exists c t, join_hyphen segs = c :: t /\ c <> hyphen)
  /\ List.last (join_hyphen segs) hyphen <> hyphen.
Proof.
  induction 1 as [|seg rest [Hne Hseg] Hrest IH]; [easy|]. intros _.
  assert (Hhead : exists c t, seg = c :: t /\ c <> hyphen).
  { destruct seg as [|c t]; [easy|]. exists c, t. split; [reflexivity|].
    intros ->. apply Hseg. now left. }
  assert (Hlast : List.last seg hyphen <> hyphen).
  { intros He. apply Hseg. rewrite <- He at 1.
    destruct (exists_last Hne) as (p & z & ->).
    rewrite last_last. apply in_or_app. right. now left. }
  destruct rest as [|seg' rest'].
  - cbn [join_hyphen]. split; [|split; [exact Hhead|exact Hlast]].
    rewrite <- (app_nil_r seg). now rewrite double_hyphen_after.
  - destruct IH as (Hd & (c' & t' & Hj & Hc') & Hl); [discriminate|].
    rewrite join_hyphen_cons by discriminate. split; [|split].
    + rewrite double_hyphen_after by exact Hseg.
      rewrite Hj, double_hyphen_cons, <- Hj, Hd.
      apply N.eqb_neq in Hc'. now rewrite Hc', andb_false_r.
    + destruct Hhead as (c & t & -> & Hc). now exists c, (t ++ hyphen :: join_hyphen (seg' :: rest')).
    + rewrite Hj in *.
      change (seg ++ hyphen :: c' :: t') with (seg ++ [hyphen] ++ c' :: t').
      rewrite app_assoc.
      destruct (exists_last (l := c' :: t')) as (p & z & Hp); [discriminate|].
      rewrite Hp in *. rewrite app_assoc, last_last.
      now rewrite last_last in Hl.
Qed.

(** X16 (name of a provisioned repository, full provisioner).  The name
    that [_generate_repo_name] of [github_automation.py] derives has at
    most 50 characters, never two hyphens in a row and no hyphen in front;
    it ends with a hyphen only when it was cut at 50 characters.  A title
    without any alphanumeric character gives the empty name: there is no
    default and no "repo-" prefix. *)
Theorem full_repo_name_shape (task_title : str) :
  let name := GithubAutomationNames._generate_repo_name task_title in
  (length name <= 50)%nat
  /\ double_hyphen name = false
  /\ (forall t, name <> hyphen :: t)
  /\ (name = [] \/ List.last name hyphen <> hyphen \/ length name = 50%nat)
  /\ (List.Forall (fun c => isalnum c = false) task_title -> name = []).
Proof.
  cbv zeta. unfold GithubAutomationNames._generate_repo_name.
  set (clean :=
         List.concat
           (List.map (fun c => if isalnum c then lower [c] else [hyphen])
              task_title)).
  set (segs := nonempty (split_hyphen clean)).
  assert (Hsegs : List.Forall (fun seg => seg <> [] /\ ~ In hyphen seg) segs)
    by apply nonempty_segments, split_hyphen_segments.
  split; [apply firstn_le_length|].
  destruct segs as [|seg rest] eqn:Hs.
  - cbn [join_hyphen]. rewrite firstn_nil.
    split; [reflexivity|]. split; [discriminate|]. split; [now left|easy].
  - rewrite <- Hs in *.
    destruct (join_hyphen_shape segs Hsegs) as (Hd & (c & t & Hj & Hc) & Hl);
      [rewrite Hs; discriminate|].
    split; [|split; [|split]].
    + rewrite <- (firstn_skipn 50 (join_hyphen segs)) in Hd.
      now apply double_hyphen_app in Hd.
    + intros t'. rewrite Hj. cbn [firstn]. intros [= He _]. now elim Hc.
    + destruct (Nat.le_gt_cases (length (join_hyphen segs)) 50) as [Hle|Hgt].
      * rewrite firstn_all2 by exact Hle. right. now left.
      * right. right. apply firstn_length_le. lia.
    + intros Hall. exfalso.
      assert (Hclean : List.Forall (fun c => c = hyphen) clean).
      { unfold clean. clear -Hall.
        induction Hall as [|x s Hx _ IH]; [constructor|].
        cbn [List.map List.concat]. rewrite Hx. now constructor. }
      apply split_hyphen_all_hyphens in Hclean.
      fold segs in Hclean. rewrite Hs in Hclean. now rewrite Hclean in Hs.
Qed.

End FullNames.

Section Recommendations.
Context {G : Type} `{H : Host G} `{U : Unicode}.
Import GithubAutomationNames.

(** X17 (recommended and created branches).  Of the branches that
    [analyze_task_for_repository_structure] recommends for a project type,
    the provisioner of the same file creates main, develop and staging and
    no other: none of the recommended feature branches is among the
    branches it returns.  The recommendation always starts with main,
    develop, staging and has four or six entries. *)
Theorem recommended_branches_not_created (g g' : G)
    (local_path project_type : str) (use_ibm_watsonx : bool)
    (branches : list str) :
  GithubAutomation._create_branch_structure g local_path project_type
    use_ibm_watsonx = (g', Ok branches) ->
  let recommended := _get_recommended_branches project_type in
  firstn 3 recommended = [lit "main"; lit "develop"; lit "staging"]
  /\ (length recommended = 4%nat \/ length recommended = 6%nat)
  /\ (forall b, In b recommended ->
        (In b branches <-> In b [lit "main"; lit "develop"; lit "staging"])).
Proof.
  intros Hrun. cbv zeta.
  assert (Hb : branches
               = [lit "main"; lit "develop"; lit "feature/initial-setup";
                  lit "staging"; lit "hotfix/emergency-fixes"]
                 ++ (if use_ibm_watsonx
                     then [lit "feature/ibm-watsonx-integration"] else [])).
  { revert Hrun. unfold GithubAutomation._create_branch_structure.
    host_cases; intros [= _ <-]; reflexivity. }
  subst branches. unfold _get_recommended_branches.
  destruct (str_in (lit "web") (lower project_type));
    [|destruct (str_in (lit "api") (lower project_type));
      [|destruct (str_in (lit "mobile") (lower project_type))]].
  all: split; [reflexivity|]; split; [cbn; auto|].
  all: intros b Hin; cbn [app In] in Hin.
  all: destruct use_ibm_watsonx.
  all: repeat (destruct Hin as [<-|Hin];
               [split; intros Hb; vm_compute in Hb |- *;
                intuition discriminate|]).
  all: destruct Hin.
Qed.

End Recommendations.

Lemma recommended_branches_not_created_witness :
  let recommended :=
    @GithubAutomationNames._get_recommended_branches ascii_tables
      (lit "Web-App") in
  firstn 3 recommended = [lit "main"; lit "develop"; lit "staging"]
  /\ (length recommended = 4%nat \/ length recommended = 6%nat)
  /\ (forall b, In b recommended ->
        (In b [lit "main"; lit "develop"; lit "feature/initial-setup";
               lit "staging"; lit "hotfix/emergency-fixes";
               lit "feature/ibm-watsonx-integration"]
         <-> In b [lit "main"; lit "develop"; lit "staging"])).
Proof.
  apply (@recommended_branches_not_created nat host_always_ok ascii_tables
           0%nat 9%nat (lit "/tmp/repo") (lit "Web-App") true).
  reflexivity.
Defined.

(** ** Names that the simple provisioner leaves as they are *)

Section RepoNameFixed.
Context `{U : Unicode}.
Import GithubAutomationSimple.

Lemma slug_char_cases (c : N) :
  slug_char c = true ->
  is_ascii_upper c = false /\ is_ascii_space c = false
  /\ is_ascii_letter c || is_ascii_digit c || (c =? hyphen) = true.
Proof.
  unfold slug_char, is_ascii_letter, is_ascii_upper, is_ascii_space,
    is_ascii_lower, is_ascii_digit, hyphen.
  intros Hc. split; [|split].
  - rewrite !orb_true_iff, !andb_true_iff, !N.leb_le, N.eqb_eq in Hc.
    apply andb_false_iff. rewrite !N.leb_gt. lia.
  - rewrite !orb_true_iff, !andb_true_iff, !N.leb_le, N.eqb_eq in Hc.
    rewrite !orb_false_iff, !andb_false_iff, !N.leb_gt, N.eqb_neq. lia.
  - rewrite !orb_true_iff in *. tauto.
Qed.

Lemma filter_all {X : Type} (f : X -> bool) (l : list X) :
  (forall x, In x l -> f x = true) -> List.filter f l = l.
Proof.
  induction l as [|x l IH]; [reflexivity|]. intros Hall.
  cbn [List.filter]. rewrite (Hall x) by now left.
  f_equal. apply IH. intros y Hy. apply Hall. now right.
Qed.

Lemma sub_spaces_no_space (in_run : bool) (s : str) :
  (forall c, In c s -> isspace c = false) -> sub_spaces in_run s = s.
Proof.
  revert in_run. induction s as [|x s IH]; intros in_run Hall; [reflexivity|].
  cbn [sub_spaces]. rewrite (Hall x) by now left.
  f_equal. apply IH. intros y Hy. apply Hall. now right.
Qed.

Lemma rstrip_hyphen_fixed (s : str) :
  List.last s hyphen <> hyphen -> rstrip_hyphen s = s.
Proof.
  induction s as [|x s IH]; [easy|]. intros Hlast.
  cbn [rstrip_hyphen]. destruct s as [|y s].
  - cbn in *. apply N.eqb_neq in Hlast. now rewrite Hlast.
  - rewrite IH by exact Hlast. reflexivity.
Qed.

(** X18 (names in final form).  A string of at most 50 characters of
    a-z, 0-9 and the hyphen that starts with a letter and does not end
    with a hyphen is returned unchanged by [_generate_repo_name] of
    [github_automation_simple.py]: every such name is the name of some
    title, repeated hyphens included. *)
Theorem repo_name_fixed_point (name : str) :
  (forall c, In c name -> slug_char c = true) ->
  (exists c rest, name = c :: rest /\ is_ascii_lower c = true) ->
  List.last name hyphen <> hyphen ->
  (length name <= 50)%nat ->
  _generate_repo_name name = name.
Proof.
  intros Hchars (c & rest & Hname & Hc) Hlast Hlen.
  assert (Hascii : Forall is_ascii name).
  { apply List.Forall_forall. intros x Hx. now apply slug_char_ascii, Hchars. }
  assert (Hlower : lower name = name).
  { rewrite (lower_ascii _ Hascii). rewrite <- (List.map_id name) at 2.
    apply List.map_ext_in. intros x Hx. unfold ascii_lower.
    now destruct (slug_char_cases x (Hchars x Hx)) as (-> & _ & _). }
  assert (Hspace : forall x, In x name -> isspace x = false).
  { intros x Hx.
    rewrite (isspace_ascii x (slug_char_ascii x (Hchars x Hx))).
    now destruct (slug_char_cases x (Hchars x Hx)) as (_ & -> & _). }
  assert (Hkept : List.filter kept name = name).
  { apply filter_all. intros x Hx. unfold kept.
    destruct (slug_char_cases x (Hchars x Hx)) as (_ & _ & Hk).
    rewrite !orb_true_iff in *. tauto. }
  assert (Hcore : core name = name).
  { unfold core. rewrite Hlower, Hkept, (sub_spaces_no_space _ _ Hspace).
    assert (Hstrip : strip_hyphen name = name).
    { unfold strip_hyphen.
      assert (Hl : lstrip_hyphen name = name).
      { rewrite Hname. cbn [lstrip_hyphen].
        assert (Hh : (c =? hyphen) = false).
        { apply N.eqb_neq. intros ->. discriminate Hc. }
        now rewrite Hh. }
      rewrite Hl. now apply rstrip_hyphen_fixed. }
    rewrite Hstrip.
    destruct (Nat.ltb_spec 50 (length name)); [lia|reflexivity]. }
  rewrite generate_repo_name_core, Hcore, Hname.
  assert (Halpha : isalpha c = true).
  { rewrite isalpha_ascii.
    - unfold is_ascii_letter. rewrite Hc. apply orb_true_r.
    - apply slug_char_ascii, Hchars. rewrite Hname. now left. }
  now rewrite Halpha.
Qed.

End RepoNameFixed.

Lemma repo_name_fixed_point_witness :
  @GithubAutomationSimple._generate_repo_name ascii_tables (lit "a---b")
  = lit "a---b".
Proof.
  apply (@repo_name_fixed_point ascii_tables (lit "a---b")).
  - intros c Hc. vm_compute in Hc.
    repeat (destruct Hc as [<-|Hc]; [reflexivity|]). destruct Hc.
  - exists 97, (lit "---b"). split; reflexivity.
  - vm_compute. discriminate.
  - cbn. lia.
Defined.

(** ** Handling a request: what the listener does to the outside *)

Section RequestFlow.
Context `{U : Unicode}.
Variable sv : SlackListenerFlow.services.
Import SlackListener SlackListenerFlow.

Lemma count_app (kind : action -> bool) (a b : trace) :
  count kind (a ++ b) = (count kind a + count kind b)%nat.
Proof. unfold count. now rewrite List.filter_app, length_app. Qed.

Lemma strip_space_empty (s : str) :
  strip_space s = [] <-> (forall c, In c s -> isspace c = true).
Proof.
  unfold strip_space. split.
  - intros Hs. induction s as [|x s IH]; [easy|].
    cbn [lstrip_space] in Hs. destruct (isspace x) eqn:Hx.
    + intros c [<-|Hc]; [exact Hx|now apply IH].
    + exfalso. cbn [rstrip_space] in Hs.
      destruct (rstrip_space s); [now rewrite Hx in Hs|discriminate Hs].
  - induction s as [|x s IH]; [reflexivity|]. intros Hall.
    cbn [lstrip_space]. rewrite (Hall x) by now left.
    apply IH. intros c Hc. apply Hall. now right.
Qed.

(** The outcome of [call_orchestrate_agent] as one case analysis. *)
Ltac flow_cases :=
  repeat match goal with
         | |- context [posted sv ?t] => destruct (posted sv t) as [?|] eqn:?
         | |- context [ran sv ?t] => destruct (ran sv t) as [?|?] eqn:?
         | |- context [created sv ?t] =>
             destruct (created sv t) as [[? ? ? [?|]]|] eqn:?
         | |- context [responded sv ?t] =>
             destruct (responded sv t) as [?|] eqn:?
         | |- context [ev_text ?e] => destruct (ev_text e) as [?|] eqn:?
         | |- context [(returncode ?r =? 0)%Z] =>
             destruct (returncode r =? 0)%Z eqn:?
         | |- context [strip_space ?s] =>
             destruct (strip_space s) as [|? ?] eqn:?
         | _ => progress cbn [fst snd truthy default from_option id
                              ti_repository]
         end.

Lemma process_message_sync_work (t : trace) (event_data : event_payload)
    (channel : option str) :
  let event := default empty_event (ed_event event_data) in
  exists work,
    process_message_sync sv t event_data channel
    = t ++ PostMessage channel processing_text (ev_ts event) :: work
    /\ count is_response work = 0%nat
    /\ (count is_post work = 1 \/ count is_post work = 2)%nat
    /\ (count is_ticket work <= 1)%nat
    /\ (count is_run work <= 2)%nat
    /\ (forall m u, In (CreateTicket m u) work ->
          m = ev_text event /\ u = ev_user event).
Proof.
  cbv zeta.
  unfold process_message_sync, call_orchestrate_agent,
    create_jira_ticket_and_repository, chat_postMessage, run.
  flow_cases.
  all: rewrite <- ?app_assoc; cbn [app]; eexists; (split; [reflexivity|]).
  all: cbn [count List.filter is_response is_post is_ticket is_run length].
  all: repeat (split; [first [reflexivity | lia | (left; reflexivity)
                             | (right; reflexivity)]|]).
  all: intros m u Hin; cbn [In] in Hin.
  all: repeat (destruct Hin as [Hin|Hin];
               [first [discriminate Hin
                      | injection Hin as <- <-; split; congruence]|]).
  all: destruct Hin.
Qed.

Lemma handle_socket_mode_request_parts (processed : gset (option str))
    (t : trace) (req : request) :
  let triage := should_process_message (req_payload req) processed in
  let accepted := is_events_api req && triage.1 in
  let processed' := if is_events_api req then triage.2 else processed in
  let t1 :=
    if accepted
    then process_message_sync sv t (req_payload req) (req_channel req)
    else t in
  let ack := Respond (envelope_id req) in
  handle_socket_mode_request sv processed t req
  = match responded sv (t1 ++ [ack]) with
    | None => (processed', t1 ++ [ack], None)
    | Some _ =>
        (processed', t1 ++ [ack; ack], responded sv (t1 ++ [ack; ack]))
    end.
Proof.
  cbv zeta.
  unfold handle_socket_mode_request, send_socket_mode_response, is_events_api.
  destruct (str_eqb (req_type req) (lit "events_api")); cbn [andb].
  - destruct (should_process_message (req_payload req) processed) as [b s].
    cbn [fst snd]. destruct b.
    + destruct (responded sv _); [|reflexivity].
      now rewrite <- app_assoc.
    + destruct (responded sv _); [|reflexivity].
      now rewrite <- app_assoc.
  - destruct (responded sv _); [|reflexivity].
    now rewrite <- app_assoc.
Qed.

(** X19 (every request is answered).  Whatever the type of the request
    and whatever the services do, [handle_socket_mode_request] ends by
    sending the response for the envelope of the request: once, or a second
    time when the first sending raised, and only the exception of that
    second sending leaves the method.  For a request that is not of type
    events_api, or whose message the triage rejects, nothing else is done
    and the set of processed messages is unchanged. *)
Theorem request_is_answered (processed : gset (option str)) (t : trace)
    (req : request) :
  let r := handle_socket_mode_request sv processed t req in
  let accepted :=
    is_events_api req
    && (should_process_message (req_payload req) processed).1 in
  let ack := Respond (envelope_id req) in
  exists work acks,
    r.1.2 = t ++ work ++ acks
    /\ count is_response work = 0%nat
    /\ (accepted = false -> work = [] /\ r.1.1 = processed)
    /\ (acks = [ack]
        /\ responded sv (t ++ work ++ [ack]) = None /\ r.2 = None
        \/ acks = [ack; ack]
           /\ responded sv (t ++ work ++ [ack]) <> None
           /\ r.2 = responded sv (t ++ work ++ [ack; ack])).
Proof.
  cbv zeta. rewrite handle_socket_mode_request_parts. cbv zeta.
  set (triage := should_process_message (req_payload req) processed).
  assert (Hwork : exists work,
             (if is_events_api req && triage.1
              then process_message_sync sv t (req_payload req)
                     (req_channel req)
              else t) = t ++ work
             /\ count is_response work = 0%nat
             /\ (is_events_api req && triage.1 = false -> work = [])).
  { destruct (is_events_api req && triage.1).
    - destruct (process_message_sync_work t (req_payload req)
                  (req_channel req)) as (work & -> & Hr & _).
      eexists. split; [reflexivity|]. split; [exact Hr|discriminate].
    - exists []. split; [now rewrite app_nil_r|]. now split. }
  destruct Hwork as (work & -> & Hr & Hrej).
  destruct (responded sv ((t ++ work) ++ [Respond (envelope_id req)]))
    eqn:Hack.
  - exists work, [Respond (envelope_id req); Respond (envelope_id req)].
    cbn [fst snd]. rewrite <- !app_assoc in *.
    split; [reflexivity|]. split; [exact Hr|]. split.
    + intros Hacc. split; [now apply Hrej|].
      destruct (is_events_api req); [|reflexivity].
      now apply should_process_message_rejects.
    + right. split; [reflexivity|]. split; [now rewrite Hack|reflexivity].
  - exists work, [Respond (envelope_id req)].
    cbn [fst snd]. rewrite <- !app_assoc in *.
    split; [reflexivity|]. split; [exact Hr|]. split.
    + intros Hacc. split; [now apply Hrej|].
      destruct (is_events_api req); [|reflexivity].
      now apply should_process_message_rejects.
    + left. now split.
Qed.

(** X20 (work for an accepted message).  For a request of type events_api
    whose message the triage accepts, the listener first posts the
    processing text to the channel and thread of the event; it posts two
    or three messages in all, runs at most two commands and asks for at
    most one ticket, with the text and the user of the event; the message
    id is added to the set of processed messages. *)
Theorem accepted_request_work (processed : gset (option str)) (t : trace)
    (req : request) :
  is_events_api req = true ->
  (should_process_message (req_payload req) processed).1 = true ->
  let r := handle_socket_mode_request sv processed t req in
  let event := event_of (req_payload req) in
  exists work acks,
    r.1.2
    = t ++ PostMessage (req_channel req) processing_text (ev_ts event)
             :: work ++ acks
    /\ r.1.1 = {[ message_id event ]} ∪ processed
    /\ (count is_post work = 1 \/ count is_post work = 2)%nat
    /\ (count is_run work <= 2)%nat
    /\ (count is_ticket work <= 1)%nat
    /\ (forall m u, In (CreateTicket m u) work ->
          m = ev_text event /\ u = ev_user event)
    /\ count is_response work = 0%nat
    /\ List.Forall (fun a => a = Respond (envelope_id req)) acks.
Proof.
  intros Hapi Hacc. cbv zeta.
  rewrite handle_socket_mode_request_parts. cbv zeta.
  rewrite Hapi, Hacc. cbn [andb].
  assert (Hset : (should_process_message (req_payload req) processed).2
                 = {[ message_id (event_of (req_payload req)) ]} ∪ processed).
  { revert Hacc. rewrite should_process_message_accepts.
    now destruct (accepts _ _). }
  destruct (process_message_sync_work t (req_payload req) (req_channel req))
    as (work & -> & Hr & Hp & Ht & Hc & Hm).
  exists work.
  destruct (responded sv _).
  - exists [Respond (envelope_id req); Respond (envelope_id req)].
    cbn [fst snd]. rewrite <- !app_assoc. cbn [app].
    repeat (split; [assumption || reflexivity|]). now repeat constructor.
  - exists [Respond (envelope_id req)].
    cbn [fst snd]. rewrite <- !app_assoc. cbn [app].
    repeat (split; [assumption || reflexivity|]). now repeat constructor.
Qed.

(** X21 (a ticket is asked for exactly when the agent gives no answer).
    When the processing text was posted, [process_message_sync] asks for a
    ticket exactly when the agent gave no answer; the agent gives an answer
    exactly when the event has a text, both commands return, the second
    with return code 0, and its output holds a character that is not
    whitespace. *)
Theorem ticket_iff_no_answer (t : trace) (event_data : event_payload)
    (channel : option str) :
  let event := event_of event_data in
  let t1 := t ++ [PostMessage channel processing_text (ev_ts event)] in
  let activate :=
    Run [lit "orchestrate"; lit "env"; lit "activate"; lit "local"] in
  let chat text :=
    Run [lit "orchestrate"; lit "chat"; lit "action_items_agent"; text] in
  let answered :=
    exists text c r,
      ev_text event = Some text
      /\ ran sv (t1 ++ [activate]) = Ok c
      /\ ran sv (t1 ++ [activate; chat text]) = Ok r
      /\ returncode r = 0%Z
      /\ exists x, In x (stdout r) /\ isspace x = false in
  posted sv t1 = None ->
  (answered ->
   count is_ticket (process_message_sync sv t event_data channel)
   = count is_ticket t)
  /\ (~ answered ->
      count is_ticket (process_message_sync sv t event_data channel)
      = S (count is_ticket t)).
Proof.
  cbv zeta. unfold event_of. intros Hposted.
  unfold process_message_sync, call_orchestrate_agent,
    create_jira_ticket_and_repository, chat_postMessage, run.
  rewrite Hposted.
  set (event := default empty_event (ed_event event_data)).
  set (t1 := t ++ [PostMessage channel processing_text (ev_ts event)]).
  set (activate :=
         Run [lit "orchestrate"; lit "env"; lit "activate"; lit "local"]).
  assert (Hblank : forall s, strip_space s = [] ->
            ~ exists x, In x s /\ isspace x = false).
  { intros s Hs (x & Hx & Hsp). rewrite strip_space_empty in Hs.
    rewrite (Hs x Hx) in Hsp. discriminate Hsp. }
  assert (Hink : forall s c rest, strip_space s = c :: rest ->
            exists x, In x s /\ isspace x = false).
  { intros s c rest Hs.
    destruct (List.existsb (fun x => negb (isspace x)) s) eqn:He.
    - apply existsb_exists in He as (x & Hx & Hn). exists x.
      split; [exact Hx|]. now destruct (isspace x).
    - exfalso. assert (Hall : strip_space s = []).
      { apply strip_space_empty. intros x Hx.
        destruct (isspace x) eqn:Hsp; [reflexivity|].
        assert (Ht : List.existsb (fun x => negb (isspace x)) s = true)
          by (apply existsb_exists; exists x; now rewrite Hsp).
        rewrite Ht in He. discriminate He. }
      rewrite Hall in Hs. discriminate Hs. }
  destruct (ran sv (t1 ++ [activate])) as [c|e] eqn:Hfirst.
  2: { split.
       - intros (text & c & r & _ & Hc & _). discriminate Hc.
       - intros _. flow_cases.
         all: unfold t1, activate; rewrite ?count_app;
           cbn [count List.filter is_ticket length]; lia. }
  destruct (ev_text event) as [text|] eqn:Htext.
  2: { split.
       - intros (text & c' & r & Hc & _). discriminate Hc.
       - intros _. flow_cases.
         all: unfold t1, activate; rewrite ?count_app;
           cbn [count List.filter is_ticket length]; lia. }
  rewrite <- app_assoc. cbn [app].
  destruct (ran sv (t1 ++
              [activate;
               Run [lit "orchestrate"; lit "chat"; lit "action_items_agent";
                    text]])) as [r|e] eqn:Hsecond.
  2: { split.
       - intros (text' & c' & r & [= <-] & _ & Hr & _).
         rewrite Hsecond in Hr. discriminate Hr.
       - intros _. flow_cases.
         all: unfold t1, activate; rewrite ?count_app;
           cbn [count List.filter is_ticket length]; lia. }
  destruct (returncode r =? 0)%Z eqn:Hcode.
  2: { split.
       - intros (text' & c' & r' & [= <-] & _ & Hr & Hz & _).
         rewrite Hsecond in Hr. injection Hr as <-.
         apply Z.eqb_neq in Hcode. now elim Hcode.
       - intros _. flow_cases.
         all: unfold t1, activate; rewrite ?count_app;
           cbn [count List.filter is_ticket length]; lia. }
  destruct (strip_space (stdout r)) as [|x rest] eqn:Hout.
  - split.
    + intros (text' & c' & r' & [= <-] & _ & Hr & _ & Hx).
      rewrite Hsecond in Hr. injection Hr as <-.
      now elim (Hblank _ Hout).
    + intros _. flow_cases.
      all: unfold t1, activate; rewrite ?count_app;
           cbn [count List.filter is_ticket length]; lia.
  - split.
    + intros _. flow_cases.
      all: unfold t1, activate; rewrite ?count_app;
           cbn [count List.filter is_ticket length]; lia.
    + intros Hno. elim Hno. exists text, c, r.
      apply Z.eqb_eq in Hcode. repeat (split; [assumption || reflexivity|]).
      now apply (Hink _ x rest).
Qed.

Lemma handle_socket_mode_request_counts (processed : gset (option str))
    (t : trace) (req : request) :
  let r := handle_socket_mode_request sv processed t req in
  let triage := should_process_message (req_payload req) processed in
  let accepted := is_events_api req && triage.1 in
  r.1.1 = (if is_events_api req then triage.2 else processed)
  /\ (count is_ticket r.1.2
      <= count is_ticket t + (if accepted then 1 else 0))%nat
  /\ (count is_post r.1.2
      <= count is_post t + (if accepted then 3 else 0))%nat
  /\ (count is_response t + 1 <= count is_response r.1.2)%nat.
Proof.
  cbv zeta. rewrite handle_socket_mode_request_parts. cbv zeta.
  set (triage := should_process_message (req_payload req) processed).
  destruct (is_events_api req && triage.1).
  - destruct (process_message_sync_work t (req_payload req)
                (req_channel req)) as (work & -> & Hr & Hp & Ht & _).
    destruct (responded sv _); cbn [fst snd];
      (split; [reflexivity|]);
      rewrite !count_app;
      change (PostMessage ?c ?x ?ts :: work)
        with ([PostMessage c x ts] ++ work);
      rewrite !count_app;
      cbn [count List.filter is_ticket is_post is_response length] in *; lia.
  - destruct (responded sv _); cbn [fst snd];
      (split; [reflexivity|]);
      rewrite !count_app;
      cbn [count List.filter is_ticket is_post is_response length]; lia.
Qed.

(** X22 (tickets of a run of the listener).  Over any sequence of
    requests, starting from any set of processed messages, the listener
    asks for at most one ticket per message id it accepts, and these ids
    are pairwise different and were not in the set at the start; the set
    at the end is the one the triage alone gives on the events of the
    events_api requests; every request adds at least one response. *)
Theorem tickets_at_most_one_per_message (processed : gset (option str))
    (t : trace) (reqs : list request) :
  let r := handle_requests sv processed t reqs in
  let events := List.map req_payload (List.filter is_events_api reqs) in
  let ids := accepted_ids events processed in
  r.1 = (handle_events events processed).2
  /\ (count is_ticket r.2 <= count is_ticket t + length ids)%nat
  /\ (count is_post r.2 <= count is_post t + 3 * length ids)%nat
  /\ (count is_response t + length reqs <= count is_response r.2)%nat
  /\ NoDup ids
  /\ (forall id, In id ids -> id ∉ processed).
Proof.
  cbv zeta.
  split; [|split; [|split; [|split; [|split; [apply accepted_ids_NoDup|]]]]].
  5: { intros id Hin Hold.
       exact (accepted_ids_fresh _ processed id Hold Hin). }
  all: revert processed t; induction reqs as [|req rest IH];
    intros processed t;
    [cbn [handle_requests List.filter List.map accepted_ids handle_events
          length fst snd]; try reflexivity; lia|].
  all: cbn [handle_requests List.filter].
  all: destruct (handle_socket_mode_request_counts processed t req)
    as (Hset & Htick & Hpost & Hresp).
  all: destruct (handle_socket_mode_request sv processed t req)
    as [[processed' t'] e]; cbn [fst snd] in *.
  all: specialize (IH processed' t'); subst processed'.
  all: destruct (is_events_api req); cbn [andb] in *.
  all: cbn [List.map accepted_ids length].
  all: try rewrite handle_events_cons; cbn [fst snd].
  all: try destruct (should_process_message (req_payload req) processed).1;
    cbn [length] in *; try exact IH; lia.
Qed.

End RequestFlow.

Lemma accepted_request_work_witness :
  let r :=
    @SlackListenerFlow.handle_socket_mode_request ascii_tables quiet_services
      ∅ [] bug_request in
  let event := @event_of bug_report in
  exists work acks,
    r.1.2
    = [] ++ SlackListenerFlow.PostMessage
              (SlackListenerFlow.req_channel bug_request)
              SlackListenerFlow.processing_text (SlackListener.ev_ts event)
            :: work ++ acks
    /\ r.1.1 = {[ SlackListener.message_id event ]} ∪ ∅
    /\ (count is_post work = 1 \/ count is_post work = 2)%nat
    /\ (count is_run work <= 2)%nat
    /\ (count is_ticket work <= 1)%nat
    /\ (forall m u, In (SlackListenerFlow.CreateTicket m u) work ->
          m = SlackListener.ev_text event /\ u = SlackListener.ev_user event)
    /\ count is_response work = 0%nat
    /\ List.Forall
         (fun a =>
            a = SlackListenerFlow.Respond
                  (SlackListenerFlow.envelope_id bug_request)) acks.
Proof.
  apply (@accepted_request_work ascii_tables quiet_services ∅ [] bug_request).
  - reflexivity.
  - vm_compute. reflexivity.
Defined.

Lemma ticket_iff_no_answer_witness :
  count is_ticket
    (@SlackListenerFlow.process_message_sync ascii_tables answering_services
       [] bug_report (Some (lit "C042")))
  = 0%nat.
Proof.
  apply (@ticket_iff_no_answer ascii_tables answering_services [] bug_report
           (Some (lit "C042"))).
  - reflexivity.
  - eexists _, _, _. split; [reflexivity|]. split; [reflexivity|].
    split; [reflexivity|]. split; [reflexivity|].
    exists 84. split; [vm_compute; tauto|reflexivity].
Defined.

(** ** Provisioning a repository: the temporary directory and the errors *)

Section ProvisioningFacts.
Context `{U : Unicode}.
Variable w : Provisioning.world.
Import Provisioning.

Lemma within_ret (d : str) {A : Type} (a : A) : within d (ret a).
Proof. intros t. exists []. split; [now rewrite app_nil_r|constructor]. Qed.

Lemma within_raise (d : str) {A : Type} (e : exn) : within d (@raise A e).
Proof. intros t. exists []. split; [now rewrite app_nil_r|constructor]. Qed.

Lemma within_bind (d : str) {A B : Type} (m : M A) (k : A -> M B) :
  within d m -> (forall a, within d (k a)) -> within d (bind m k).
Proof.
  intros Hm Hk t. unfold bind.
  destruct (Hm t) as (w1 & H1 & F1).
  destruct (m t) as [t1 [a|e]]; cbn [fst] in H1; subst t1.
  - destruct (Hk a (t ++ w1)) as (w2 & H2 & F2).
    exists (w1 ++ w2). rewrite H2, app_assoc.
    split; [reflexivity|]. apply List.Forall_app. now split.
  - now exists w1.
Qed.

Lemma within_catch (d : str) {A : Type} (m : M A) (h : exn -> M A) :
  within d m -> (forall e, within d (h e)) -> within d (catch m h).
Proof.
  intros Hm Hh t. unfold catch.
  destruct (Hm t) as (w1 & H1 & F1).
  destruct (m t) as [t1 [a|e]]; cbn [fst] in H1; subst t1.
  - now exists w1.
  - destruct (Hh e (t ++ w1)) as (w2 & H2 & F2).
    exists (w1 ++ w2). rewrite H2, app_assoc.
    split; [reflexivity|]. apply List.Forall_app. now split.
Qed.

Lemma within_item (d : str) (key : string) (o : option str) :
  within d (item key o).
Proof. destruct o; [apply within_ret|apply within_raise]. Qed.

Lemma within_run (d : str) (args : list str) :
  within d (run w (Some d) args).
Proof.
  intros t. unfold run. cbn [git trace_host].
  exists [Git (Some d) args].
  split; [now destruct (git_outcome w _)|]. now repeat constructor.
Qed.

Lemma endswith_iff (s suffix : str) :
  endswith s suffix = true <-> exists p, s = p ++ suffix.
Proof.
  unfold endswith. rewrite startswith_iff. split.
  - intros (r & Hr). exists (rev r).
    apply (f_equal (@rev N)) in Hr.
    now rewrite rev_involutive, rev_app_distr, rev_involutive in Hr.
  - intros (p0 & ->). exists (rev p0). now rewrite rev_app_distr.
Qed.

Lemma within_write (d name content : str) :
  In name [lit "README.md"; lit "requirements.txt"; lit "main.py";
           lit ".env.example"] ->
  within d (write w (path_join d name) content).
Proof.
  intros Hname t. unfold write.
  exists [WriteFile (path_join d name) content].
  split; [now destruct (write_outcome w _)|].
  repeat constructor. exists name. split; [exact Hname|].
  unfold path_join.
  replace (startswith name (lit "/")) with false
    by (cbn [In] in Hname;
        decompose [or] Hname; subst; try reflexivity; contradiction).
  destruct (Nat.eqb (length d) 0) eqn:Hlen; cbn [orb].
  - right. split; [reflexivity|]. left.
    apply Nat.eqb_eq in Hlen. now destruct d.
  - destruct (endswith d (lit "/")) eqn:Hend.
    + right. split; [reflexivity|]. right. now apply endswith_iff.
    + now left.
Qed.

Lemma within_clone (d clone_url token : str) :
  within d (_clone_repository w clone_url d token).
Proof.
  unfold _clone_repository. apply within_catch.
  - intros t. unfold run. cbn [git trace_host]. eexists [Git None _].
    split; [now destruct (git_outcome w _)|].
    repeat constructor. eexists. reflexivity.
  - intros e. destruct (is_CalledProcessError e); apply within_raise.
Qed.

Lemma within_branches (d project_type : str) (use_ibm_watsonx : bool) :
  within d (_create_branch_structure w d project_type use_ibm_watsonx).
Proof.
  intros t.
  unfold _create_branch_structure,
    GithubAutomationSimple._create_branch_structure.
  cbn [git trace_host].
  repeat match goal with
         | |- context [git_outcome w ?x] =>
             destruct (git_outcome w x) as [?|]
         | |- context [is_CalledProcessError ?e] =>
             destruct (is_CalledProcessError e)
         end.
  all: cbn [fst]; rewrite <- ?app_assoc; cbn [app]; eexists;
    (split; [reflexivity|]); now repeat constructor.
Qed.

Lemma within_files (d project_type task_title task_description : str) :
  within d (_create_project_files w d project_type task_title
              task_description).
Proof.
  unfold _create_project_files.
  repeat (apply within_bind;
          [apply within_write; cbn [In]; auto|intros _]).
  apply within_write; cbn [In]; auto.
Qed.

Lemma within_push (d clone_url token : str) :
  within d (_push_changes w d clone_url token).
Proof.
  unfold _push_changes. apply within_catch.
  - repeat (apply within_bind; [apply within_run|intros _]).
    apply within_run.
  - intros e. destruct (is_CalledProcessError e); apply within_raise.
Qed.

Lemma bind_eq {A B : Type} (m : M A) (k : A -> M B) (t : trace) :
  bind m k t
  = match m t with
    | (t, Ok a) => k a t
    | (t, Raise e) => (t, Raise e)
    end.
Proof. reflexivity. Qed.

Lemma catch_eq {A : Type} (m : M A) (h : exn -> M A) (t : trace) :
  catch m h t
  = match m t with
    | (t, Ok a) => (t, Ok a)
    | (t, Raise e) => h e t
    end.
Proof. reflexivity. Qed.

(** A computation that leaves the trace as it is. *)
Lemma item_trace (key : string) (o : option str) (t : trace) :
  (item key o t).1 = t.
Proof. now destruct o. Qed.

Lemma startswith_app (prefix s : str) : startswith (prefix ++ s) prefix = true.
Proof. apply startswith_iff. now exists s. Qed.

(** X23 (the temporary directory).  Without a token
    [create_github_repository_for_task] does nothing.  With a token it
    asks GitHub for a private repository under the generated name; when
    that fails nothing else is done.  When the temporary directory was
    made, every later action is a git command run in it, the clone into
    it, or the writing of README.md, requirements.txt, main.py or
    .env.example at the path made of the directory and the name of the
    file, and the last action removes the directory, on success and on
    every failure alike. *)
Theorem temp_dir_always_removed (env : environment)
    (task_title task_description project_type : str)
    (team_members : list str) (use_ibm_watsonx : bool)
    (organization : option str) (t : trace) :
  let r :=
    create_github_repository_for_task w env task_title task_description
      project_type team_members use_ibm_watsonx organization t in
  let post :=
    PostRepo (default [] (GITHUB_TOKEN env))
      (GithubAutomationSimple._generate_repo_name task_title)
      task_description true in
  (truthy (GITHUB_TOKEN env) = false -> r.1 = t /\ exists e, r.2 = Raise e)
  /\ (truthy (GITHUB_TOKEN env) = true ->
      (r.1 = t ++ [post] /\ exists e, r.2 = Raise e)
      \/ (r.1 = t ++ [post; Mkdtemp]
          /\ (exists e, mkdtemp_outcome w (t ++ [post; Mkdtemp]) = Raise e)
          /\ exists e, r.2 = Raise e)
      \/ exists d work,
           mkdtemp_outcome w (t ++ [post; Mkdtemp]) = Ok d
           /\ r.1 = t ++ [post; Mkdtemp] ++ work ++ [Rmtree d]
           /\ List.Forall (inside d) work).
Proof.
  cbv zeta. unfold create_github_repository_for_task, provision.
  destruct (truthy (GITHUB_TOKEN env)) eqn:Htoken; cbn [negb].
  2: { split; [|discriminate]. intros _. rewrite catch_eq. cbn [raise fst snd].
       split; [reflexivity|]. eexists. reflexivity. }
  split; [discriminate|]. intros _.
  rewrite catch_eq, bind_eq. unfold _create_github_repo. cbv beta.
  set (post := PostRepo _ _ _ _).
  destruct (post_outcome w (t ++ [post])) as [resp|e].
  2: { left. cbn [fst snd raise]. split; [reflexivity|]. eexists. reflexivity. }
  destruct (status_code resp =? 201)%Z.
  2: { left. cbn [fst snd raise]. split; [reflexivity|]. eexists. reflexivity. }
  destruct (json resp) as [data|e].
  2: { left. cbn [fst snd raise]. split; [reflexivity|]. eexists. reflexivity. }
  right. cbv beta iota. rewrite bind_eq. unfold mkdtemp. cbv beta.
  rewrite <- app_assoc. cbn [app].
  destruct (mkdtemp_outcome w (t ++ [post; Mkdtemp])) as [d|e] eqn:Hdir.
  2: { left. cbn [fst snd raise]. split; [reflexivity|].
       split; eexists; reflexivity. }
  right. exists d. cbv beta iota. rewrite bind_eq.
  unfold finally_rmtree. cbv beta.
  match goal with
  | |- context [bind (item "clone_url" ?o) ?k (t ++ [post; Mkdtemp])] =>
      assert (Hinner : within d (bind (item "clone_url" o) k))
  end.
  { apply within_bind; [apply within_item|intros clone_url].
    apply within_bind; [apply within_clone|intros _].
    apply within_bind; [apply within_branches|intros branches].
    apply within_bind;
      [destruct use_ibm_watsonx;
       [apply within_write; now left|apply within_ret]
      |intros _].
    apply within_bind; [apply within_files|intros _].
    apply within_bind; [apply within_item|intros clone_url'].
    apply within_bind; [apply within_push|intros _].
    apply within_ret. }
  destruct (Hinner (t ++ [post; Mkdtemp])) as (work & Hwork & Hin).
  exists work. split; [reflexivity|]. split; [|exact Hin].
  match goal with
  | |- context [bind (item "clone_url" ?o) ?k (t ++ [post; Mkdtemp])] =>
      destruct (bind (item "clone_url" o) k (t ++ [post; Mkdtemp]))
        as [t1 [branches|e]]
  end; cbn [fst] in Hwork; subst t1; unfold rmtree.
  - rewrite !bind_eq.
    destruct (rd_name data), (rd_description data), (rd_html_url data),
      (rd_default_branch data); cbn [item ret raise fst snd];
      now rewrite <- !app_assoc.
  - cbn [fst snd raise]. now rewrite <- !app_assoc.
Qed.

(** X24 (failures of the provisioning).  Every failure of
    [create_github_repository_for_task] is an [Exception] whose text
    starts with "Failed to create GitHub repository: ".  Without a token
    the text names the missing token and nothing is done.  When GitHub
    answers with a status other than 201 the label comes twice, followed
    by the status and the text of the answer, and only the request was
    made. *)
Theorem provisioning_failures (env : environment)
    (task_title task_description project_type : str)
    (team_members : list str) (use_ibm_watsonx : bool)
    (organization : option str) (t : trace) :
  let r :=
    create_github_repository_for_task w env task_title task_description
      project_type team_members use_ibm_watsonx organization t in
  let post :=
    PostRepo (default [] (GITHUB_TOKEN env))
      (GithubAutomationSimple._generate_repo_name task_title)
      task_description true in
  let label := lit "Failed to create GitHub repository: " in
  (forall e, r.2 = Raise e ->
     exn_class e = "Exception"%string
     /\ startswith (exn_message e) label = true)
  /\ (truthy (GITHUB_TOKEN env) = false ->
      r = (t, Raise (Exception
                       (label ++ lit "GitHub token not configured. Please set GITHUB_TOKEN environment variable."))))
  /\ (forall resp,
        truthy (GITHUB_TOKEN env) = true ->
        post_outcome w (t ++ [post]) = Ok resp ->
        status_code resp <> 201%Z ->
        r = (t ++ [post],
             Raise (Exception
                      (label ++ label ++ decimal (status_code resp)
                       ++ lit " - " ++ text resp)))).
Proof.
  cbv zeta. split; [|split].
  - intros e. unfold create_github_repository_for_task, catch.
    destruct (provision _ _ _ _ _ _ _ _ _) as [t' [repo|e']];
      unfold raise; cbv beta iota; unfold snd; [discriminate|].
    intros He.
    assert (He' : e = Exception
                        (lit "Failed to create GitHub repository: "
                         ++ exn_message e')) by congruence.
    subst e. split; [reflexivity|]. apply startswith_app.
  - intros Htoken. unfold create_github_repository_for_task, provision, catch.
    rewrite Htoken. reflexivity.
  - intros resp Htoken Hpost Hstatus.
    unfold create_github_repository_for_task, provision.
    rewrite Htoken. cbn [negb].
    rewrite catch_eq, bind_eq. unfold _create_github_repo. cbv beta.
    rewrite Hpost. apply Z.eqb_neq in Hstatus. rewrite Hstatus.
    reflexivity.
Qed.

Lemma files_written_app (a b : trace) :
  files_written (a ++ b) = files_written a ++ files_written b.
Proof. apply List.flat_map_app. Qed.

(** Unfolding the whole function, and following one outcome after the
    other. *)
Ltac provision_unfold H :=
  unfold create_github_repository_for_task, provision,
    _create_github_repo, mkdtemp, finally_rmtree, _clone_repository,
    _create_branch_structure,
    GithubAutomationSimple._create_branch_structure,
    _create_ibm_watsonx_integration, _create_project_files, _push_changes
    in H;
  unfold catch, bind, run, write, rmtree in H;
  cbn [git trace_host] in H; cbv beta iota in H.

Ltac provision_step H :=
  match type of H with
  | context [truthy ?x] => destruct (truthy x) eqn:?
  | context [post_outcome w ?x] => destruct (post_outcome w x) as [?|?] eqn:?
  | context [(status_code ?r =? 201)%Z] =>
      destruct (status_code r =? 201)%Z eqn:?
  | context [json ?r] => destruct (json r) as [?|?] eqn:?
  | context [mkdtemp_outcome w ?x] =>
      destruct (mkdtemp_outcome w x) as [?|?] eqn:?
  | context [item _ (?f ?d)] => destruct (f d) as [?|] eqn:?
  | context [git_outcome w ?x] => destruct (git_outcome w x) as [?|] eqn:?
  | context [write_outcome w ?x] => destruct (write_outcome w x) as [?|] eqn:?
  | context [is_CalledProcessError ?e] =>
      destruct (is_CalledProcessError e) eqn:?
  end;
  cbn [negb item ret raise] in H; cbv beta iota in H;
  try discriminate H.

(** X26 (a repository that was provisioned).  When
    [create_github_repository_for_task] returns, GitHub answered 201, the
    name, description, URL and default branch returned are those of the
    answer (not the generated name), the branches are main and develop,
    with feature/initial-setup when it was created, the files written are
    README.md when the flag is set, then requirements.txt, main.py and
    .env.example, all in the temporary directory, and the token was given
    to git inside the URL of the clone and of the push. *)
Theorem provisioned_repository (env : environment)
    (task_title task_description project_type : str)
    (team_members : list str) (use_ibm_watsonx : bool)
    (organization : option str) (t t' : trace) (repo : GitHubRepo) :
  create_github_repository_for_task w env task_title task_description
    project_type team_members use_ibm_watsonx organization t
  = (t', Ok repo) ->
  let post :=
    PostRepo (default [] (GITHUB_TOKEN env))
      (GithubAutomationSimple._generate_repo_name task_title)
      task_description true in
  exists resp data d clone_url,
    post_outcome w (t ++ [post]) = Ok resp
    /\ status_code resp = 201%Z
    /\ json resp = Ok data
    /\ mkdtemp_outcome w (t ++ [post; Mkdtemp]) = Ok d
    /\ rd_clone_url data = Some clone_url
    /\ rd_name data = Some (name repo)
    /\ rd_description data = Some (description repo)
    /\ rd_html_url data = Some (url repo)
    /\ rd_default_branch data = Some (default_branch repo)
    /\ (branches repo = [lit "main"; lit "develop"]
        \/ branches repo
           = [lit "main"; lit "develop"; lit "feature/initial-setup"])
    /\ files_written t'
       = files_written t
         ++ (if use_ibm_watsonx
             then [(path_join d (lit "README.md"),
                    readme_content task_title task_description)]
             else [])
         ++ [(path_join d (lit "requirements.txt"), requirements_content);
             (path_join d (lit "main.py"),
              main_content task_title task_description);
             (path_join d (lit ".env.example"), env_content)]
    /\ In (Git None
             [lit "git"; lit "clone";
              auth_url (default [] (GITHUB_TOKEN env)) clone_url; d]) t'
    /\ In (Git (Some d)
             [lit "git"; lit "push"; lit "--all";
              auth_url (default [] (GITHUB_TOKEN env)) clone_url]) t'.
Proof.
  intros H. cbv zeta. provision_unfold H.
  repeat provision_step H.
  all: destruct use_ibm_watsonx; unfold ret in H; cbv beta iota in H.
  all: repeat provision_step H.
  all: pose proof (f_equal fst H) as Ht; pose proof (f_equal snd H) as Hr.
  all: unfold fst in Ht; unfold snd in Hr; cbv beta iota in Ht, Hr;
    clear H; subst t'.
  all: injection Hr as Hrepo; subst repo.
  all: match goal with
       | Hz : (status_code _ =? 201)%Z = true |- _ => apply Z.eqb_eq in Hz
       end.
  all: rewrite <- ?app_assoc in *; cbn [app] in *.
  all: do 4 eexists.
  all: repeat (split; [eassumption || reflexivity|]).
  all: cbn [branches].
  all: (split; [first [left; reflexivity | right; reflexivity]|]).
  all: split;
    [rewrite files_written_app; cbn [files_written List.flat_map app];
     reflexivity|].
  all: split; apply in_or_app; right; cbn [In]; unfold auth_url; tauto.
Qed.

End ProvisioningFacts.

Lemma provisioned_repository_witness :
  let t' :=
    (@Provisioning.create_github_repository_for_task ascii_tables
       world_all_ok github_env (lit "Fix Login Bug!!") (lit "Login fails")
       (lit "web-application") [] true None []).1 in
  let repo :=
    {| Provisioning.name := lit "fix-login-bug";
       Provisioning.description := lit "Login fails";
       Provisioning.url := lit "https://github.com/palcube/fix-login-bug";
       Provisioning.branches :=
         [lit "main"; lit "develop"; lit "feature/initial-setup"];
       Provisioning.default_branch := lit "main" |} in
  let post :=
    Provisioning.PostRepo
      (default [] (Provisioning.GITHUB_TOKEN github_env))
      (@GithubAutomationSimple._generate_repo_name ascii_tables
         (lit "Fix Login Bug!!"))
      (lit "Login fails") true in
  exists resp data d clone_url,
    Provisioning.post_outcome world_all_ok ([] ++ [post]) = Ok resp
    /\ Provisioning.status_code resp = 201%Z
    /\ Provisioning.json resp = Ok data
    /\ Provisioning.mkdtemp_outcome world_all_ok
         ([] ++ [post; Provisioning.Mkdtemp]) = Ok d
    /\ Provisioning.rd_clone_url data = Some clone_url
    /\ Provisioning.rd_name data = Some (Provisioning.name repo)
    /\ Provisioning.rd_description data
       = Some (Provisioning.description repo)
    /\ Provisioning.rd_html_url data = Some (Provisioning.url repo)
    /\ Provisioning.rd_default_branch data
       = Some (Provisioning.default_branch repo)
    /\ (Provisioning.branches repo = [lit "main"; lit "develop"]
        \/ Provisioning.branches repo
           = [lit "main"; lit "develop"; lit "feature/initial-setup"])
    /\ files_written t'
       = files_written []
         ++ (if true
             then [(Provisioning.path_join d (lit "README.md"),
                    Provisioning.readme_content (lit "Fix Login Bug!!")
                      (lit "Login fails"))]
             else [])
         ++ [(Provisioning.path_join d (lit "requirements.txt"),
              Provisioning.requirements_content);
             (Provisioning.path_join d (lit "main.py"),
              Provisioning.main_content (lit "Fix Login Bug!!")
                (lit "Login fails"));
             (Provisioning.path_join d (lit ".env.example"),
              Provisioning.env_content)]
    /\ In (Provisioning.Git None
             [lit "git"; lit "clone";
              auth_url (default [] (Provisioning.GITHUB_TOKEN github_env))
                clone_url; d]) t'
    /\ In (Provisioning.Git (Some d)
             [lit "git"; lit "push"; lit "--all";
              auth_url (default [] (Provisioning.GITHUB_TOKEN github_env))
                clone_url]) t'.
Proof.
  apply (@provisioned_repository ascii_tables world_all_ok github_env
           (lit "Fix Login Bug!!") (lit "Login fails") (lit "web-application")
           [] true None []).
  vm_compute. reflexivity.
Defined.

(** ** Creating the subtasks *)

Section SubtaskCreation.
Context `{U : Unicode} `{I : PyInt}.
Import AdvancedAutomationPlan CreateSubtasks.

Lemma create_loop_spec (jira : Jira) (parent_ticket_key project_key : str)
    (subtasks : list SubtaskInfo) :
  forall (t : trace) (keys : list str),
    let r :=
      create_loop jira parent_ticket_key project_key subtasks t keys in
    exists (k : nat) (requests : trace),
      (k <= length subtasks)%nat
      /\ length requests = k
      /\ List.Forall2
           (fun subtask fields =>
              fields_for parent_ticket_key project_key subtask = Ok fields)
           (firstn k subtasks) requests
      /\ r.1 = t ++ requests
      /\ (forall created,
            r.2 = Ok created ->
            k = length subtasks
            /\ exists new,
                 created = keys ++ new
                 /\ length new = k
                 /\ forall (i : nat) key,
                      new !! i = Some key ->
                      jira (t ++ firstn (S i) requests) = Ok key)
      /\ (forall e,
            r.2 = Raise e ->
            forall i, (S i < k)%nat ->
              exists key, jira (t ++ firstn (S i) requests) = Ok key).
Proof.
  induction subtasks as [|subtask rest IH]; intros t keys; cbv zeta.
  - exists 0%nat, []. cbn [create_loop fst snd length firstn].
    split; [lia|]. split; [reflexivity|]. split; [constructor|].
    split; [now rewrite app_nil_r|]. split.
    + intros created [= <-]. split; [reflexivity|]. exists [].
      split; [now rewrite app_nil_r|]. split; [reflexivity|].
      intros i key Hi. discriminate Hi.
    + intros e He. discriminate He.
  - cbn [create_loop].
    destruct (fields_for parent_ticket_key project_key subtask)
      as [fields|e] eqn:Hfields.
    2: { exists 0%nat, []. cbn [fst snd length firstn].
         split; [lia|]. split; [reflexivity|]. split; [constructor|].
         split; [now rewrite app_nil_r|]. split.
         - intros created Hc. discriminate Hc.
         - intros e' _ i Hi. lia. }
    destruct (jira (t ++ [fields])) as [key|e] eqn:Hjira.
    2: { exists 1%nat, [fields]. cbn [fst snd length firstn].
         split; [lia|]. split; [reflexivity|].
         split; [now repeat constructor|]. split; [reflexivity|]. split.
         - intros created Hc. discriminate Hc.
         - intros e' _ i Hi. lia. }
    destruct (IH (t ++ [fields]) (keys ++ [key]))
      as (k & requests & Hk & Hlen & Hall & Htrace & Hok & Hfail).
    exists (S k), (fields :: requests). cbn [length firstn].
    split; [lia|]. split; [now rewrite Hlen|].
    split; [now constructor|].
    split; [now rewrite Htrace, <- app_assoc|]. split.
    + intros created Hc. destruct (Hok created Hc) as (-> & new & -> & Hn & Hkeys).
      split; [reflexivity|]. exists (key :: new).
      split; [now rewrite <- app_assoc|]. split; [cbn; now rewrite Hn|].
      intros [|i] key' Hi.
      * injection Hi as <-. exact Hjira.
      * cbn [firstn]. specialize (Hkeys i key' Hi).
        now rewrite <- app_assoc in Hkeys.
    + intros e He [|i] Hi.
      * exists key. exact Hjira.
      * destruct (Hfail e He i) as (key' & Hkey'); [lia|].
        exists key'. cbn [firstn]. now rewrite <- app_assoc in Hkey'.
Qed.

(** X27 (subtasks are created in order, and stay).  The requests that
    [create_subtasks_automatically] makes are those for the first
    subtasks of the list, in order, one each.  When it returns, there was
    one request per subtask and the keys returned are those of the issues
    created, in order.  When it fails, the failure is an [Exception] whose
    text starts with "Failed to create subtasks: ", and every request but
    the last had created its issue: nothing is taken back. *)
Theorem subtasks_created_in_order (env : environment)
    (parent_ticket_key : str) (subtasks : list SubtaskInfo)
    (project_key : str) :
  let r :=
    create_subtasks_automatically env parent_ticket_key subtasks
      project_key in
  exists k : nat,
    (k <= length subtasks)%nat
    /\ length r.1 = k
    /\ List.Forall2
         (fun subtask fields =>
            fields_for parent_ticket_key project_key subtask = Ok fields)
         (firstn k subtasks) r.1
    /\ (forall created,
          r.2 = Ok created ->
          k = length subtasks
          /\ length created = k
          /\ exists jira,
               connect env = Ok jira
               /\ forall (i : nat) key,
                    created !! i = Some key ->
                    jira (firstn (S i) r.1) = Ok key)
    /\ (forall e,
          r.2 = Raise e ->
          exn_class e = "Exception"%string
          /\ startswith (exn_message e) (lit "Failed to create subtasks: ")
             = true
          /\ forall jira,
               connect env = Ok jira ->
               forall i, (S i < k)%nat ->
                 exists key, jira (firstn (S i) r.1) = Ok key).
Proof.
  cbv zeta. unfold create_subtasks_automatically, create_body.
  assert (Hlabel : forall e e',
             Raise {| exn_class := "Exception";
                      exn_message := lit "Failed to create subtasks: "
                                     ++ exn_message e |}
             = @Raise (list str) e' ->
             exn_class e' = "Exception"%string
             /\ startswith (exn_message e')
                  (lit "Failed to create subtasks: ") = true).
  { intros e e' He.
    assert (He' : e' = {| exn_class := "Exception";
                          exn_message := lit "Failed to create subtasks: "
                                         ++ exn_message e |})
      by congruence.
    subst e'. split; [reflexivity|]. apply startswith_iff. now eexists. }
  destruct (credentials_set env); cbn [negb].
  2: { exists 0%nat. cbn [fst snd length firstn].
       split; [lia|]. split; [reflexivity|]. split; [constructor|]. split.
       - intros created Hc. discriminate Hc.
       - intros e He. destruct (Hlabel _ _ He) as [Hc Hs].
         split; [exact Hc|]. split; [exact Hs|]. intros jira _ i Hi. lia. }
  destruct (connect env) as [jira|e0].
  2: { exists 0%nat. cbn [fst snd length firstn].
       split; [lia|]. split; [reflexivity|]. split; [constructor|]. split.
       - intros created Hc. discriminate Hc.
       - intros e He. destruct (Hlabel _ _ He) as [Hc Hs].
         split; [exact Hc|]. split; [exact Hs|]. intros jira _ i Hi. lia. }
  destruct (create_loop_spec jira parent_ticket_key project_key subtasks
              [] [])
    as (k & requests & Hk & Hlen & Hall & Htrace & Hok & Hfail).
  destruct (create_loop jira parent_ticket_key project_key subtasks [] [])
    as [t [created|e]]; cbn [fst snd app] in *; subst t.
  - exists k. split; [exact Hk|]. split; [exact Hlen|]. split; [exact Hall|].
    split.
    + intros created' [= <-].
      destruct (Hok created eq_refl) as (-> & new & -> & Hn & Hkeys).
      split; [reflexivity|]. split; [exact Hn|].
      exists jira. split; [reflexivity|]. exact Hkeys.
    + intros e He. discriminate He.
  - exists k. split; [exact Hk|]. split; [exact Hlen|]. split; [exact Hall|].
    split.
    + intros created Hc. discriminate Hc.
    + intros e' He. destruct (Hlabel _ _ He) as [Hc Hs].
      split; [exact Hc|]. split; [exact Hs|].
      intros jira' [= <-]. now apply (Hfail e).
Qed.

Lemma fields_for_subtask (parent_ticket_key project_key action : str) :
  exists est,
    In est [lit "1h"; lit "2h"; lit "4h"]
    /\ fields_for parent_ticket_key project_key
         (subtask_for parent_ticket_key action)
       = Ok {| project := project_key;
               issue_summary :=
                 summary (subtask_for parent_ticket_key action);
               issue_description :=
                 description (subtask_for parent_ticket_key action);
               issuetype := lit "Sub-task";
               issue_priority :=
                 priority (subtask_for parent_ticket_key action);
               parent := parent_ticket_key;
               status := lit "To Do";
               timetracking := Some (est, est) |}.
Proof.
  assert (Htype : issue_type (subtask_for parent_ticket_key action)
                  = lit "Sub-task").
  { unfold subtask_for. cbn [issue_type].
    repeat match goal with
           | |- context [if ?b then _ else _] => destruct b
           end; reflexivity. }
  assert (Hest : In (estimated_time (subtask_for parent_ticket_key action))
                   [lit "1h"; lit "2h"; lit "4h"]).
  { unfold subtask_for. cbn [estimated_time].
    repeat match goal with
           | |- context [if ?b then _ else _] => destruct b
           end; cbn [In]; auto. }
  exists (estimated_time (subtask_for parent_ticket_key action)).
  split; [exact Hest|].
  unfold fields_for. rewrite Htype.
  set (est := estimated_time (subtask_for parent_ticket_key action)) in *.
  assert (Hconv : truthy (Some est) = true
                  /\ exists n, int (replace (lit "h") [] est) = Ok n).
  { destruct Hest as [<-|[<-|[<-|[]]]];
      (split; [reflexivity|]); apply int_digits;
      solve [discriminate | reflexivity]. }
  destruct Hconv as (-> & n & ->). reflexivity.
Qed.

(** X28 (the subtasks of the analysis can be created).  For the subtasks
    that [analyze_conversation_for_subtasks] builds, the conversion of the
    estimate never fails: with the credentials set and a client that
    creates every issue, [create_subtasks_automatically] returns one key
    per action, and every request is for a "Sub-task" under the parent
    ticket with status "To Do" and an estimate of 1h, 2h or 4h. *)
Theorem analysis_subtasks_are_created (env : environment) (jira : Jira)
    (parent_ticket_key project_key : str) (actions : list str) :
  credentials_set env = true ->
  connect env = Ok jira ->
  (forall t, exists key, jira t = Ok key) ->
  let subtasks := List.map (subtask_for parent_ticket_key) actions in
  let r :=
    create_subtasks_automatically env parent_ticket_key subtasks
      project_key in
  (exists created, r.2 = Ok created /\ length created = length actions)
  /\ length r.1 = length actions
  /\ List.Forall
       (fun fields =>
          issuetype fields = lit "Sub-task"
          /\ parent fields = parent_ticket_key
          /\ project fields = project_key
          /\ status fields = lit "To Do"
          /\ exists est,
               timetracking fields = Some (est, est)
               /\ In est [lit "1h"; lit "2h"; lit "4h"])
       r.1.
Proof.
  intros Hcred Hconn Hjira. cbv zeta.
  pose proof (subtasks_shape :=
    create_loop_spec jira parent_ticket_key project_key
      (List.map (subtask_for parent_ticket_key) actions) [] []).
  cbv zeta in subtasks_shape.
  destruct subtasks_shape
    as (k & requests & Hk & Hlen & Hall & Htrace & Hok & Hfail).
  unfold create_subtasks_automatically, create_body.
  rewrite Hcred, Hconn. cbn [negb].
  assert (Hnofail : forall t keys subtasks,
             (forall subtask, In subtask subtasks ->
                exists fields,
                  fields_for parent_ticket_key project_key subtask
                  = Ok fields) ->
             exists created,
               (create_loop jira parent_ticket_key project_key subtasks t
                  keys).2 = Ok created).
  { intros t keys subtasks. revert t keys.
    induction subtasks as [|subtask rest IH]; intros t keys Hf.
    - now eexists.
    - cbn [create_loop].
      destruct (Hf subtask) as (fields & ->); [now left|].
      destruct (Hjira (t ++ [fields])) as (key & ->).
      apply IH. intros s Hs. apply Hf. now right. }
  destruct (Hnofail [] [] (List.map (subtask_for parent_ticket_key) actions))
    as (created & Hcreated).
  { intros subtask Hin. apply in_map_iff in Hin as (action & <- & _).
    destruct (fields_for_subtask parent_ticket_key project_key action)
      as (est & _ & ->). now eexists. }
  destruct (create_loop jira parent_ticket_key project_key
              (List.map (subtask_for parent_ticket_key) actions) [] [])
    as [t [created'|e]]; cbn [fst snd app] in *; [|discriminate Hcreated].
  subst t. destruct (Hok created' eq_refl) as (-> & new & -> & Hn & _).
  rewrite length_map in *.
  split; [exists new; now split|]. split; [exact Hlen|].
  rewrite firstn_all2 in Hall by (rewrite length_map; lia).
  clear -Hall. remember (List.map (subtask_for parent_ticket_key) actions)
    as subtasks eqn:Hs.
  revert actions Hs. induction Hall as [|subtask fields subtasks requests Hf _ IH];
    intros actions Hs; [constructor|].
  destruct actions as [|action actions]; [discriminate Hs|].
  injection Hs as -> ->. constructor; [|now apply (IH actions)].
  destruct (fields_for_subtask parent_ticket_key project_key action)
    as (est & Hest & Hfields).
  rewrite Hfields in Hf. injection Hf as <-.
  cbn [issuetype parent project status timetracking].
  repeat (split; [reflexivity|]). now exists est.
Qed.

End SubtaskCreation.

Lemma analysis_subtasks_are_created_witness :
  let subtasks :=
    List.map (@AdvancedAutomationPlan.subtask_for ascii_tables (lit "SMS-1"))
      [lit "fix the login page"; lit "add a quick test"] in
  let r :=
    @CreateSubtasks.create_subtasks_automatically ascii_int subtasks_env
      (lit "SMS-1") subtasks (lit "SMS") in
  (exists created,
      r.2 = Ok created
      /\ length created
         = length [lit "fix the login page"; lit "add a quick test"])
  /\ length r.1 = length [lit "fix the login page"; lit "add a quick test"]
  /\ List.Forall
       (fun fields =>
          CreateSubtasks.issuetype fields = lit "Sub-task"
          /\ CreateSubtasks.parent fields = lit "SMS-1"
          /\ CreateSubtasks.project fields = lit "SMS"
          /\ CreateSubtasks.status fields = lit "To Do"
          /\ exists est,
               CreateSubtasks.timetracking fields = Some (est, est)
               /\ In est [lit "1h"; lit "2h"; lit "4h"])
       r.1.
Proof.
  apply (@analysis_subtasks_are_created ascii_tables ascii_int subtasks_env
           jira_numbering (lit "SMS-1") (lit "SMS")
           [lit "fix the login page"; lit "add a quick test"]).
  - reflexivity.
  - reflexivity.
  - intros t. eexists. reflexivity.
Defined.

(** ** The main branch of the plan *)

Section PlanBranches.
Context `{U : Unicode}.
Import AdvancedAutomationPlan.

(** X29 (main branch of the plan).  The plan of
    [create_git_repository_for_task] is on "master" exactly when a
    component is "legacy" or "old" once lower-cased, as a whole word, and
    on "main" otherwise; a plan on "master" therefore always has the
    branch feature/legacy or feature/old among its feature branches. *)
Theorem master_iff_legacy_component (components labels : list str) :
  (main_branch components = lit "master"
   <-> exists comp,
         In comp components
         /\ (lower comp = lit "legacy" \/ lower comp = lit "old"))
  /\ (main_branch components = lit "master"
      \/ main_branch components = lit "main")
  /\ (main_branch components = lit "master" ->
      In (lit "feature/legacy")
         (AdvancedAutomation.feature_branches components labels)
      \/ In (lit "feature/old")
            (AdvancedAutomation.feature_branches components labels)).
Proof.
  assert (Hiff : main_branch components = lit "master"
                 <-> exists comp,
                       In comp components
                       /\ (lower comp = lit "legacy"
                           \/ lower comp = lit "old")).
  { unfold main_branch.
    destruct (List.existsb _ components) eqn:He.
    - split; [intros _|reflexivity].
      apply existsb_exists in He as (comp & Hin & Hl).
      exists comp. split; [exact Hin|].
      unfold list_in in Hl. cbn [List.existsb] in Hl.
      rewrite orb_false_r in Hl. apply orb_true_iff in Hl.
      destruct Hl as [Hl|Hl]; apply str_eqb_eq in Hl; auto.
    - split; [intros Hd; discriminate Hd|].
      intros (comp & Hin & Hl). exfalso.
      assert (Ht : List.existsb
                     (fun comp =>
                        list_in (lower comp) [lit "legacy"; lit "old"])
                     components = true).
      { apply existsb_exists. exists comp. split; [exact Hin|].
        unfold list_in. cbn [List.existsb].
        destruct Hl as [-> | ->]; reflexivity. }
      rewrite Ht in He. discriminate He. }
  split; [exact Hiff|]. split.
  - unfold main_branch. destruct (List.existsb _ components); auto.
  - intros Hm. apply Hiff in Hm as (comp & Hin & Hl).
    unfold AdvancedAutomation.feature_branches.
    destruct Hl as [Hl|Hl]; [left|right];
      apply in_or_app; left; apply in_map_iff; exists comp;
      (split; [now rewrite Hl|exact Hin]).
Qed.

End PlanBranches.
